(** * toconline-mcp: credential lifecycle, request wrapper and write gate

    A shallow embedding of the parts of [toconline_mcp] that manage the
    OAuth2 credential ([auth.py], [keychain.py]), wrap outbound API calls
    ([client.py]), guard mutating tools ([app.py]) and drive the
    interactive login ([cli.py]), followed by the properties proved about
    them.

    Conventions of the embedding:
    - a Python [str] is a [string]; its characters are the code points
      U+0000..U+00FF (strings with code points above U+00FF are outside
      the model, except in [unicode], where identifiers are sequences of
      arbitrary code points);
    - a Python [float] holding a point in time is an exact rational, or
      [+inf]; rounding of binary floating point is not modelled;
    - a Python [int] is a [Z]; a [dict] is the list of its items;
    - the token store and the keychain hold [str] values, as the source
      annotates them: in the JSON object of the token endpoint the fields
      [access_token] and [refresh_token] are strings when they are there,
      while [expires_in], which the source converts with [int], is any
      JSON value, and the body may also be something else than an object;
    - code that talks to the outside (HTTP, the OS keychain, the clock,
      the terminal) is written in a state-and-exception monad over a
      world that records every interaction, the answers coming from an
      environment of oracles;
    - one call runs at a time: the interleaving of coroutines that share
      the token store is not modelled. *)

From Stdlib Require Import String Ascii List ZArith QArith Bool Lia Lqa.
From Stdlib Require Import DecimalString Sorted.
Import ListNotations.

Local Open Scope string_scope.
Local Open Scope Z_scope.

(* ===================================================================== *)
(** * Part I: the program                                                  *)
(* ===================================================================== *)

(** ** Python built-ins used by the sources *)

Module py.

(** [bool(s)] for a [str]. *)
Definition truthy (s : string) : bool :=
  match s with
  | EmptyString => false
  | String _ _ => true
  end.

(** [a or b] on two [str] values. *)
Definition or_ (a b : string) : string := if truthy a then a else b.

(** [s.startswith(p)]. *)
Fixpoint startswith (p s : string) : bool :=
  match p, s with
  | EmptyString, _ => true
  | String a p', String b s' => Ascii.eqb a b && startswith p' s'
  | String _ _, EmptyString => false
  end.

(** [p in s] for a non-empty [p]. *)
Fixpoint contains (p s : string) : bool :=
  match s with
  | EmptyString => startswith p EmptyString
  | String _ s' => startswith p s || contains p s'
  end.

(** [s.replace(old, new)] for a non-empty [old]: the occurrences of
    [old] are found from left to right, never overlapping, and each is
    replaced.  [skip] counts the characters of a found occurrence that
    are still to be passed over. *)
Fixpoint replace_from (old new : string) (skip : nat) (s : string) : string :=
  match s with
  | EmptyString => EmptyString
  | String c s' =>
      match skip with
      | S k => replace_from old new k s'
      | O =>
          if startswith old s
          then new ++ replace_from old new (String.length old - 1) s'
          else String c (replace_from old new O s')
      end
  end.

Definition replace (old new s : string) : string := replace_from old new O s.

(** [c.isspace()] on U+0000..U+00FF. *)
Definition isspace (c : ascii) : bool :=
  let n := N_of_ascii c in
  ((9 <=? n) && (n <=? 13) || (28 <=? n) && (n <=? 32)
   || (n =? 133) || (n =? 160))%N.

Fixpoint lstrip (s : string) : string :=
  match s with
  | EmptyString => EmptyString
  | String c s' => if isspace c then lstrip s' else s
  end.

(** [s.rstrip()]: a character is kept when it is not white space or
    when something is kept after it. *)
Fixpoint rstrip (s : string) : string :=
  match s with
  | EmptyString => EmptyString
  | String c s' =>
      match rstrip s' with
      | EmptyString => if isspace c then EmptyString else String c EmptyString
      | r => String c r
      end
  end.

(** [s.strip()]. *)
Definition strip (s : string) : string := rstrip (lstrip s).

(** [str(n)] for an [int]. *)
Definition str (n : Z) : string := NilZero.string_of_int (Z.to_int n).

(** The characters matched by [\w] in a [str] pattern, on
    U+0000..U+00FF: those for which [isalnum()] holds, and [_]. *)
Definition isalnum (c : ascii) : bool :=
  let n := N_of_ascii c in
  ((48 <=? n) && (n <=? 57) || (65 <=? n) && (n <=? 90)
   || (97 <=? n) && (n <=? 122)
   || (n =? 170) || (n =? 178) || (n =? 179) || (n =? 181)
   || (n =? 185) || (n =? 186) || (188 <=? n) && (n <=? 190)
   || (192 <=? n) && (n <=? 214) || (216 <=? n) && (n <=? 246)
   || (248 <=? n) && (n <=? 255))%N.

Definition is_word (c : ascii) : bool := isalnum c || Ascii.eqb c "_".

End py.

(** ** JSON values, as [response.json()] returns them

    [JFloat] is a finite [float]; [JNaN] and [JInfinity] are the values
    that [json.loads] makes of [NaN], [Infinity], [-Infinity] and of
    numbers too large for a [float]. *)

#[local] Set Warnings "-register-all".

Inductive json : Type :=
| JNull
| JBool (b : bool)
| JInt (n : Z)
| JFloat (q : Q)
| JNaN
| JInfinity (negative : bool)
| JStr (s : string)
| JArr (l : list json)
| JObj (d : list (string * json)).

Module pyjson.

(** Truth value of a parsed JSON value. *)
Definition truthy (v : json) : bool :=
  match v with
  | JNull => false
  | JBool b => b
  | JInt n => negb (n =? 0)
  | JFloat q => negb (Qeq_bool q 0)
  | JNaN => true
  | JInfinity _ => true
  | JStr s => py.truthy s
  | JArr l => match l with [] => false | _ => true end
  | JObj d => match d with [] => false | _ => true end
  end.

(** [d.get(k)] on the items of a [dict]. *)
Fixpoint get (k : string) (d : list (string * json)) : option json :=
  match d with
  | [] => None
  | (k', v) :: d' => if String.eqb k k' then Some v else get k d'
  end.

Definition is_obj (v : json) : bool :=
  match v with JObj _ => true | _ => false end.

End pyjson.

(** ** settings.py *)

Module settings.

Record Settings : Type := {
  base_url : string;
  access_token : string;
  client_id : string;
  client_secret : string;
  refresh_token : string;
  redirect_uri : string;
  oauth_token_url : string;
  read_only : bool;
  max_write_calls_per_session : Z
}.

(** The field defaults of the class. *)
Definition default : Settings := {|
  base_url := "https://api10.toconline.pt";
  access_token := "";
  client_id := "";
  client_secret := "";
  refresh_token := "";
  redirect_uri := "";
  oauth_token_url := "https://app10.toconline.pt/oauth/token";
  read_only := false;
  max_write_calls_per_session := 50
|}.

End settings.
Import settings.

(** ** Points in time *)

Inductive pyfloat : Type :=
| Fin (q : Q)
| PosInf.

Definition Qltb (x y : Q) : bool := (Qnum x * QDen y <? Qnum y * QDen x)%Z.

(** [t - n] for an integer [n]. *)
Definition float_sub (t : pyfloat) (n : Z) : pyfloat :=
  match t with
  | Fin q => Fin (q - inject_Z n)
  | PosInf => PosInf
  end.

(** [now < t] for a finite [now]. *)
Definition float_lt (now : Q) (t : pyfloat) : bool :=
  match t with
  | Fin q => Qltb now q
  | PosInf => true
  end.

(** ** auth.py: the token store *)

Module TokenStore.

Record t : Type := {
  _access_token : string;
  _refresh_token : string;
  _expires_at : pyfloat
}.

(** [TokenStore()]. *)
Definition new : t := {|
  _access_token := "";
  _refresh_token := "";
  _expires_at := Fin 0
|}.

Definition load_static (self : t) (token : string) : t := {|
  _access_token := token;
  _refresh_token := _refresh_token self;
  _expires_at := PosInf
|}.

Definition load_refresh_token (self : t) (refresh_token : string) : t := {|
  _access_token := _access_token self;
  _refresh_token := refresh_token;
  _expires_at := _expires_at self
|}.

(** The property [is_valid]; [now] is the reading of [time.time()]. *)
Definition is_valid (self : t) (now : Q) : bool :=
  py.truthy (_access_token self)
  && float_lt now (float_sub (_expires_at self) 60).

(** The property [bearer]. *)
Definition bearer (self : t) : string := "Bearer " ++ _access_token self.

End TokenStore.

(** ** Exceptions *)

Inductive exn : Type :=
| ValueError (path : string)
    (** [client.py]: "Unsafe API path rejected: {path!r}. ..." *)
| ValueError_int (text : string)
    (** the [ValueError] of [int(text)]: [text] is no literal in base 10,
        or has too many digits *)
| ValueError_nan
    (** the [ValueError] of [int] on a [float] that is not a number *)
| ValueError_urlparse (text : string)
    (** the [ValueError] of [urlparse(text)] *)
| RuntimeError (msg : string)
| KeyError (key : string)
| HTTPStatusError (status : Z)
    (** [response.raise_for_status()] on a response that is not 2xx *)
| JSONDecodeError
    (** [response.json()] on a body that is not JSON *)
| TransportError
    (** the HTTP client could not obtain a response *)
| TOCOnlineError (errors : json) (status_code : Z)
    (** identified by its two attributes; the text built in [__init__]
        is a function of them *)
| InvalidURL
    (** [httpx.InvalidURL]: the HTTP client refuses the URL of a call
        and sends nothing *)
| AttributeError
| TypeError
| OverflowError
| SystemExit (code : Z).

(** ** The outside world *)

(** An HTTP response whose body parses (or not) to a value of type [B]. *)
Record response (B : Type) : Type := {
  status_code : Z;
  text : string;
  json_ : option B
}.
Arguments status_code {B} _.
Arguments text {B} _.
Arguments json_ {B} _.

Definition is_success {B} (r : response B) : bool :=
  (200 <=? status_code r) && (status_code r <=? 299).

(** What comes of a call of the HTTP client: a response; no response
    ([NetFail]: the transport fails); or nothing at all ([Refused]: the
    client raises [InvalidURL] for the URL it is given, before anything
    is sent). *)
Inductive net_result (B : Type) : Type :=
| Resp (r : response B)
| NetFail
| Refused.
Arguments Resp {B} _.
Arguments NetFail {B}.
Arguments Refused {B}.

(** What the body of the token endpoint parses to.  An object is read
    at three keys, each of which may be missing: [access_token] and
    [refresh_token] are strings, [expires_in] is any JSON value.  A body
    may also parse to a value that is not an object. *)
Module TokenPayload.
Record t : Type := {
  access_token : option string;
  refresh_token : option string;
  expires_in : option json
}.

Inductive non_object : Type :=
| NNull
| NBool (b : bool)
| NInt (n : Z)
| NFloat (q : Q)
| NNaN
| NInfinity (negative : bool)
| NStr (s : string)
| NArr (l : list json).

Inductive body : Type :=
| Object (p : t)
| NotObject (v : non_object).
End TokenPayload.

Inductive keyring_outcome : Type :=
| KrStored
| KrNoKeyringError
| KrOtherError.

(** What the program does to the outside, in order.  [RefreshCalled],
    [StoreRefreshToken] and [ExchangeCalled] mark the entry into
    [TokenStore.refresh], [keychain.store_refresh_token] and
    [exchange_code_for_tokens]; the others are the calls of the HTTP
    client ([TokenPost] for [client.post] on the token URL, [ApiRequest]
    for [client.request]), of the keyring and of the browser.  What comes
    of a call of the HTTP client is the answer of the environment. *)
Inductive event : Type :=
| RefreshCalled
| TokenPost (url : string) (data headers : list (string * string))
| ApiRequest (method path : string) (headers : list (string * string))
    (kwargs : list (string * json))
| StoreRefreshToken (token : string)
| KeyringSetPassword (service key token : string)
| ExchangeCalled (code code_verifier : string)
| WebbrowserOpen (url : string).

(** The answers of the outside, each a function of what happened so far
    and of the call. *)
Record Env : Type := {
  time_time : list event -> Q;
  token_endpoint :
    list event -> string -> list (string * string) -> list (string * string) ->
    net_result TokenPayload.body;
  api_endpoint :
    list event -> string -> string -> list (string * string) ->
    list (string * json) -> net_result json;
  keyring_installed : bool;
  keyring_set_password : list event -> string -> string -> string -> keyring_outcome
}.

Record World : Type := {
  store : TokenStore.t;
  trace : list event
}.

(** ** The monad of effectful code *)

Inductive result (A : Type) : Type :=
| Ok (a : A)
| Raise (e : exn).
Arguments Ok {A} _.
Arguments Raise {A} _.

Definition M (A : Type) : Type := World -> result A * World.

Definition ret {A} (a : A) : M A := fun w => (Ok a, w).

Definition bind {A B} (c : M A) (k : A -> M B) : M B :=
  fun w =>
    match c w with
    | (Ok a, w') => k a w'
    | (Raise e, w') => (Raise e, w')
    end.

Definition raise {A} (e : exn) : M A := fun w => (Raise e, w).

Definition emit (e : event) : M unit :=
  fun w => (Ok tt, {| store := store w; trace := trace w ++ [e] |}).

Definition get_store : M TokenStore.t := fun w => (Ok (store w), w).

Definition put_store (s : TokenStore.t) : M unit :=
  fun w => (Ok tt, {| store := s; trace := trace w |}).

Definition get_trace : M (list event) := fun w => (Ok (trace w), w).

Declare Scope monad_scope.
Delimit Scope monad_scope with monad.
Notation "x <- c ;; k" := (bind c (fun x => k))
  (at level 61, c at next level, right associativity) : monad_scope.
Notation "c ;; k" := (bind c (fun _ => k))
  (at level 61, right associativity) : monad_scope.
Local Open Scope monad_scope.

(** A computation that only returns or raises. *)
Definition lift {A} (r : result A) : M A := fun w => (r, w).

(** [time.time()]. *)
Definition now (env : Env) : M Q :=
  tr <- get_trace ;; ret (time_time env tr).

(** ** Conversions between numbers *)

Module pynum.

(** The white space that [int] skips at both ends of a [str], on
    U+0000..U+00FF. *)
Definition is_space (c : ascii) : bool :=
  let n := N_of_ascii c in
  ((9 <=? n) && (n <=? 13) || (n =? 32) || (n =? 133) || (n =? 160))%N.

Fixpoint lskip (s : string) : string :=
  match s with
  | EmptyString => EmptyString
  | String c s' => if is_space c then lskip s' else s
  end.

Fixpoint rskip (s : string) : string :=
  match s with
  | EmptyString => EmptyString
  | String c s' =>
      match rskip s' with
      | EmptyString => if is_space c then EmptyString else String c EmptyString
      | r => String c r
      end
  end.

Definition digit_value (c : ascii) : option Z :=
  let n := N_of_ascii c in
  if ((48 <=? n) && (n <=? 57))%N then Some (Z.of_N n - 48) else None.

(** The digits of a literal in base 10, read from the left: [acc] is the
    value and [count] the number of the digits read so far.  One [_] may
    stand between two digits and nowhere else; [after_digit] tells
    whether the character before was a digit. *)
Fixpoint digits (acc : Z) (count : nat) (after_digit : bool) (s : string)
  : option (Z * nat) :=
  match s with
  | EmptyString => if after_digit then Some (acc, count) else None
  | String c s' =>
      match digit_value c with
      | Some d => digits (10 * acc + d) (S count) true s'
      | None =>
          if Ascii.eqb c "_" && after_digit then digits acc count false s'
          else None
      end
  end.

(** [sys.get_int_max_str_digits()], at its default. *)
Definition max_str_digits : nat := 4300.

(** [int(s)] for a [str]: white space at both ends is skipped, a sign
    may come first, and the digits follow; [None] stands for
    [ValueError], which is also raised for more digits than the
    interpreter converts. *)
Definition int_of_str (s : string) : option Z :=
  let s := rskip (lskip s) in
  let '(negative, s) :=
    match s with
    | String c s' =>
        if Ascii.eqb c "-" then (true, s')
        else if Ascii.eqb c "+" then (false, s')
        else (false, s)
    | EmptyString => (false, s)
    end in
  match digits 0 O false s with
  | Some (n, count) =>
      if (count <=? max_str_digits)%nat
      then Some (if negative then - n else n)
      else None
  | None => None
  end.

(** [int(v)] for a parsed JSON value: a [float] is cut off towards
    zero. *)
Definition int_ (v : json) : result Z :=
  match v with
  | JNull => Raise TypeError
  | JBool b => Ok (if b then 1 else 0)
  | JInt n => Ok n
  | JFloat q => Ok (Z.quot (Qnum q) (Zpos (Qden q)))
  | JNaN => Raise ValueError_nan
  | JInfinity _ => Raise OverflowError
  | JStr s =>
      match int_of_str s with
      | Some n => Ok n
      | None => Raise (ValueError_int s)
      end
  | JArr _ => Raise TypeError
  | JObj _ => Raise TypeError
  end.

(** The least [n] for which [float(n)] raises [OverflowError]: halfway
    between the largest [float] and [2 ^ 1024]. *)
Definition float_overflow : Z := 2 ^ 1024 - 2 ^ 970.

(** [float(n)] for an [int], as [t + n] computes it for a [float] [t]. *)
Definition float_ (n : Z) : result Q :=
  if Z.abs n <? float_overflow then Ok (inject_Z n) else Raise OverflowError.

End pynum.

(** ** keychain.py *)

Module keychain.

Definition _SERVICE_NAME : string := "toconline-mcp".
Definition _REFRESH_TOKEN_KEY : string := "refresh_token".

Definition store_refresh_token (env : Env) (token : string) : M bool :=
  emit (StoreRefreshToken token) ;;
  if negb (keyring_installed env) then ret false
  else
    tr <- get_trace ;;
    emit (KeyringSetPassword _SERVICE_NAME _REFRESH_TOKEN_KEY token) ;;
    match keyring_set_password env tr _SERVICE_NAME _REFRESH_TOKEN_KEY token with
    | KrStored => ret true
    | KrNoKeyringError => ret false
    | KrOtherError => ret false
    end.

End keychain.

(** ** auth.py: renewal *)

Module auth.
Import TokenStore.

Definition nl : string := String (ascii_of_nat 10) EmptyString.

Definition no_client_credentials : string :=
  "TOCONLINE_ACCESS_TOKEN is missing or expired, and "
  ++ "TOCONLINE_CLIENT_ID / TOCONLINE_CLIENT_SECRET are not configured.".

Definition no_refresh_token : string :=
  "No valid access token and no refresh_token available." ++ nl
  ++ "Run 'uv run toconline-mcp auth' in a terminal to authenticate via browser,"
  ++ nl ++ "or set TOCONLINE_REFRESH_TOKEN in your .env file.".

Definition form_headers : list (string * string) :=
  [("Content-Type", "application/x-www-form-urlencoded");
   ("Accept", "application/json")].

(** [await client.post(url, data=..., headers=...)]. *)
Definition client_post (env : Env) (url : string)
    (data headers : list (string * string)) : M (response TokenPayload.body) :=
  tr <- get_trace ;;
  emit (TokenPost url data headers) ;;
  match token_endpoint env tr url data headers with
  | Resp r => ret r
  | NetFail => raise TransportError
  | Refused => raise InvalidURL
  end.

(** [response.raise_for_status()]. *)
Definition raise_for_status {B} (r : response B) : M unit :=
  if is_success r then ret tt else raise (HTTPStatusError (status_code r)).

(** [response.json()]. *)
Definition response_json {B} (r : response B) : M B :=
  match json_ r with
  | Some v => ret v
  | None => raise JSONDecodeError
  end.

(** [int(payload.get("expires_in", 7890000))], as far as the sum with
    the [float] of [time.time()] accepts it: the sum converts the [int]
    to a [float]. *)
Definition lifetime (payload : TokenPayload.t) : result Z :=
  match pynum.int_ match TokenPayload.expires_in payload with
                   | Some v => v
                   | None => JInt 7890000
                   end with
  | Ok n =>
      match pynum.float_ n with
      | Ok _ => Ok n
      | Raise e => Raise e
      end
  | Raise e => Raise e
  end.

(** [TokenStore.refresh]. *)
Definition refresh (env : Env) (settings : Settings) : M unit :=
  emit RefreshCalled ;;
  if negb (py.truthy (client_id settings))
     || negb (py.truthy (client_secret settings))
  then raise (RuntimeError no_client_credentials)
  else
    self <- get_store ;;
    let refresh_token :=
      py.or_ (_refresh_token self) (settings.refresh_token settings) in
    if negb (py.truthy refresh_token)
    then raise (RuntimeError no_refresh_token)
    else
      response <- client_post env (oauth_token_url settings)
                    [("grant_type", "refresh_token");
                     ("refresh_token", refresh_token);
                     ("client_id", client_id settings);
                     ("client_secret", client_secret settings);
                     ("scope", "commercial")]
                    form_headers ;;
      raise_for_status response ;;
      payload <- response_json response ;;
      payload <- match payload with
                 | TokenPayload.Object p => ret p
                 | TokenPayload.NotObject _ => raise TypeError
                 end ;;
      access <- match TokenPayload.access_token payload with
                | Some a => ret a
                | None => raise (KeyError "access_token")
                end ;;
      self <- get_store ;;
      put_store {| _access_token := access;
                   _refresh_token := _refresh_token self;
                   _expires_at := _expires_at self |} ;;
      t <- now env ;;
      seconds <- lift (lifetime payload) ;;
      self <- get_store ;;
      put_store {| _access_token := _access_token self;
                   _refresh_token := _refresh_token self;
                   _expires_at := Fin (t + inject_Z seconds) |} ;;
      match TokenPayload.refresh_token payload with
      | Some new_refresh =>
          if py.truthy new_refresh
          then
            self <- get_store ;;
            put_store {| _access_token := _access_token self;
                         _refresh_token := new_refresh;
                         _expires_at := _expires_at self |} ;;
            _ <- keychain.store_refresh_token env new_refresh ;;
            ret tt
          else ret tt
      | None => ret tt
      end.

(** The form that [refresh] posts, named for the statements about it. *)
Definition refresh_form (settings : Settings) (refresh_token : string)
  : list (string * string) :=
  [("grant_type", "refresh_token");
   ("refresh_token", refresh_token);
   ("client_id", client_id settings);
   ("client_secret", client_secret settings);
   ("scope", "commercial")].

Definition default_redirect_uri : string := "https://oauth.pstmn.io/v1/callback".

(** The local [auth_endpoint] of [make_auth_url]. *)
Definition auth_endpoint (settings : Settings) : string :=
  py.replace "/token" "/auth" (oauth_token_url settings).

Section make_auth_url.
(** [urllib.parse.urlencode] on the items of a [dict]. *)
Variable urlencode : list (string * string) -> string.

(** [make_auth_url]; [pkce] is the pair that [_generate_pkce_pair]
    draws and [state] the value that [_generate_state] draws. *)
Definition make_auth_url (settings : Settings) (pkce : string * string)
    (state : string) : string * string * string :=
  let redirect_uri := py.or_ (redirect_uri settings) default_redirect_uri in
  let '(code_verifier, code_challenge) := pkce in
  let params :=
    urlencode [("client_id", client_id settings);
               ("redirect_uri", redirect_uri);
               ("response_type", "code");
               ("scope", "commercial");
               ("code_challenge", code_challenge);
               ("code_challenge_method", "S256");
               ("state", state)] in
  (auth_endpoint settings ++ "?" ++ params, code_verifier, state).
End make_auth_url.

Definition exchange_code_for_tokens (env : Env) (code code_verifier : string)
    (settings : Settings) : M TokenPayload.body :=
  emit (ExchangeCalled code code_verifier) ;;
  let redirect_uri := py.or_ (redirect_uri settings) default_redirect_uri in
  response <- client_post env (oauth_token_url settings)
                [("grant_type", "authorization_code");
                 ("code", code);
                 ("client_id", client_id settings);
                 ("client_secret", client_secret settings);
                 ("redirect_uri", redirect_uri);
                 ("code_verifier", code_verifier);
                 ("scope", "commercial")]
                form_headers ;;
  raise_for_status response ;;
  response_json response.

End auth.

(** ** client.py *)

Module client.

(** The characters of the class [[\w/.-]]. *)
Definition in_class (c : ascii) : bool :=
  py.is_word c || Ascii.eqb c "/" || Ascii.eqb c "." || Ascii.eqb c "-".

(** Matching [[\w/.-]*$] at the start of [s]: the class is consumed as
    far as it goes, and [$] (without [re.MULTILINE]) holds at the end of
    the string and also just before a line feed that ends the string. *)
Fixpoint class_star_eol (s : string) : bool :=
  match s with
  | EmptyString => true
  | String c s' =>
      if in_class c then class_star_eol s'
      else Ascii.eqb c (ascii_of_nat 10)
           && match s' with EmptyString => true | _ => false end
  end.

Fixpoint drop (n : nat) (s : string) : string :=
  match n, s with
  | O, _ => s
  | S n', String _ s' => drop n' s'
  | S _, EmptyString => EmptyString
  end.

(** [_SAFE_PATH_RE.match(path)] for [re.compile(r"^/api[\w/.-]*$")],
    as a truth value. *)
Definition _SAFE_PATH_RE_match (path : string) : bool :=
  py.startswith "/api" path && class_star_eol (drop 4 path).

(** [TOCOnlineError(errors, status_code)]: the constructor walks over
    [errors] and calls [.get] on each entry, so it fails on a value that
    cannot be iterated or on an entry that is not an object. *)
Definition TOCOnlineError_new (errors : json) (status : Z) : exn :=
  match errors with
  | JArr l =>
      if forallb pyjson.is_obj l then TOCOnlineError errors status
      else AttributeError
  | JObj [] => TOCOnlineError errors status
  | JObj (_ :: _) => AttributeError
  | JStr s => if py.truthy s then AttributeError else TOCOnlineError errors status
  | JNull | JBool _ | JInt _ | JFloat _ | JNaN | JInfinity _ => TypeError
  end.

Definition _raise_for_api_errors (r : response json) : M unit :=
  if is_success r then ret tt
  else
    let fallback :=
      JArr [JObj [("code", JStr (py.str (status_code r)));
                  ("detail", JStr (text r))]] in
    let errors :=
      match json_ r with
      | Some (JObj d) =>
          let errors :=
            match pyjson.get "errors" d with
            | Some e => e
            | None => JArr []
            end in
          if negb (pyjson.truthy errors) && negb (pyjson.truthy (JObj d))
          then fallback else errors
      | Some _ => fallback
      | None => fallback
      end in
    raise (TOCOnlineError_new errors (status_code r)).

Definition _ensure_token (env : Env) (settings : Settings) : M unit :=
  self <- get_store ;;
  t <- now env ;;
  if negb (TokenStore.is_valid self t) then auth.refresh env settings
  else ret tt.

Definition _auth_header : M (list (string * string)) :=
  self <- get_store ;;
  ret [("Authorization", TokenStore.bearer self)].

(** [await self._client.request(method, path, headers=..., **kwargs)]. *)
Definition client_request (env : Env) (method path : string)
    (headers : list (string * string)) (kwargs : list (string * json))
  : M (response json) :=
  tr <- get_trace ;;
  emit (ApiRequest method path headers kwargs) ;;
  match api_endpoint env tr method path headers kwargs with
  | Resp r => ret r
  | NetFail => raise TransportError
  | Refused => raise InvalidURL
  end.

Definition _request (env : Env) (settings : Settings) (method path : string)
    (kwargs : list (string * json)) : M json :=
  if negb (_SAFE_PATH_RE_match path) || py.contains ".." path
  then raise (ValueError path)
  else
    _ensure_token env settings ;;
    headers <- _auth_header ;;
    response <- client_request env method path headers kwargs ;;
    response <- (if status_code response =? 401
                 then
                   auth.refresh env settings ;;
                   headers <- _auth_header ;;
                   client_request env method path headers kwargs
                 else ret response) ;;
    _raise_for_api_errors response ;;
    auth.response_json response.

(** Every character of [s] is a letter or digit or one of [/ . - _]. *)
Fixpoint all_in_class (s : string) : bool :=
  match s with
  | EmptyString => true
  | String c s' => in_class c && all_in_class s'
  end.

(** Two parts of [_request], named for the statements about it: what it
    does up to and including the first send, and what it makes of the
    response it ends up with. *)
Definition first_send (env : Env) (settings : Settings) (method path : string)
    (kwargs : list (string * json)) : M (response json) :=
  _ensure_token env settings ;;
  headers <- _auth_header ;;
  client_request env method path headers kwargs.

Definition conclude (r : response json) : M json :=
  _raise_for_api_errors r ;;
  auth.response_json r.

(** [conclude] neither reads nor changes the world, so that its outcome
    can be read off in any world. *)
Definition outcome_of (r : response json) : result json :=
  fst (conclude r {| store := TokenStore.new; trace := [] |}).

End client.

(** ** app.py: the write gate *)

Module app.

Definition _READ_ONLY_ERROR : string :=
  "This server is running in read-only mode (TOCONLINE_READ_ONLY=true). "
  ++ "Write operations (create, update, delete, finalize, send) are disabled.".

(** [_RATE_LIMIT_ERROR.format(limit=limit)]. *)
Definition _RATE_LIMIT_ERROR (limit : Z) : string :=
  "Write operation rate limit exceeded (max " ++ py.str limit
  ++ " per session). "
  ++ "This safety limit prevents runaway automation. "
  ++ "Adjust TOCONLINE_MAX_WRITE_CALLS_PER_SESSION to change the limit.".

Definition error_result (msg : string) : json := JObj [("error", JStr msg)].

Section write_tool.
(** A call names a decorated tool and carries its arguments; [W] is
    whatever the tools act on, and [func] runs the undecorated tool. *)
Variables (Call W : Type).
Variable func : Call -> W -> result json * W.

(** The module global [_write_call_count], the state of the tools, and
    the calls that reached [func], oldest first. *)
Record State : Type := {
  _write_call_count : Z;
  tools : W;
  invoked : list Call
}.

Definition initial (w : W) : State :=
  {| _write_call_count := 0; tools := w; invoked := [] |}.

(** The final [return await func(...)] of the wrapper. *)
Definition call_func (c : Call) (st : State) : result json * State :=
  let '(r, w) := func c (tools st) in
  (r, {| _write_call_count := _write_call_count st;
         tools := w;
         invoked := (invoked st ++ [c])%list |}).

(** The [wrapper] that [write_tool] returns. *)
Definition wrapper (settings : Settings) (c : Call) (st : State)
  : result json * State :=
  if read_only settings
  then (Ok (error_result _READ_ONLY_ERROR), st)
  else
    let limit := max_write_calls_per_session settings in
    if limit >? 0
    then
      let st := {| _write_call_count := _write_call_count st + 1;
                   tools := tools st;
                   invoked := invoked st |} in
      if _write_call_count st >? limit
      then (Ok (error_result (_RATE_LIMIT_ERROR limit)), st)
      else call_func c st
    else call_func c st.

(** A session: the calls are served one after the other. *)
Fixpoint session (settings : Settings) (calls : list Call) (st : State)
  : list (result json) * State :=
  match calls with
  | [] => ([], st)
  | c :: calls' =>
      let '(r, st') := wrapper settings c st in
      let '(rs, st'') := session settings calls' st' in
      (r :: rs, st'')
  end.

(** For comparison: the tools run one after the other with no gate in
    front of them. *)
Fixpoint run_funcs (calls : list Call) (w : W) : list (result json) * W :=
  match calls with
  | [] => ([], w)
  | c :: calls' =>
      let '(r, w') := func c w in
      let '(rs, w'') := run_funcs calls' w' in
      (r :: rs, w'')
  end.
End write_tool.

Arguments _write_call_count {Call W} _.
Arguments tools {Call W} _.
Arguments invoked {Call W} _.
Arguments initial {Call W} _.

End app.

(** ** cli.py: the interactive login *)

Module cli.

Definition is_url (s : string) : bool :=
  py.startswith "http://" s || py.startswith "https://" s.

Section login.
(** [urlparse(u).query], or [None] where [urlparse] raises [ValueError]
    (as it does for a bracket without its partner in the host). *)
Variable urlparse_query : string -> option string.
(** [parse_qs(query).get(k, [None])[0]]. *)
Variable parse_qs_first : string -> string -> option string.
Variable urlencode : list (string * string) -> string.

(** [parse_qs(urlparse(u).query).get(k, [None])[0]]. *)
Definition query_first (u k : string) : result (option string) :=
  match urlparse_query u with
  | Some query => Ok (parse_qs_first query k)
  | None => Raise (ValueError_urlparse u)
  end.

Definition _extract_code (user_input : string) : result (option string) :=
  let user_input := py.strip user_input in
  if negb (py.truthy user_input) then Ok None
  else if is_url user_input then query_first user_input "code"
  else Ok (Some user_input).

(** [_auth_login].  [pkce] and [state] are what [make_auth_url] draws
    at random; [typed] is the line that [input] returns, or [None] when
    it is interrupted.  Printing is left out.  [tokens.get] raises
    [AttributeError] when the token endpoint's body is not an object. *)
Definition _auth_login (env : Env) (settings : Settings)
    (pkce : string * string) (state : string) (typed : option string)
  : M unit :=
  if negb (py.truthy (client_id settings))
     || negb (py.truthy (client_secret settings))
  then raise (SystemExit 1)
  else
    let '(auth_url, code_verifier, expected_state) :=
      auth.make_auth_url urlencode settings pkce state in
    emit (WebbrowserOpen auth_url) ;;
    match typed with
    | None => raise (SystemExit 1)
    | Some user_input =>
        let user_input_stripped := py.strip user_input in
        (if is_url user_input_stripped
         then
           returned_state <- lift (query_first user_input_stripped "state") ;;
           match returned_state with
           | Some returned_state =>
               if String.eqb returned_state expected_state then ret tt
               else raise (SystemExit 1)
           | None => raise (SystemExit 1)
           end
         else ret tt) ;;
        code <- lift (_extract_code user_input) ;;
        match code with
        | None => raise (SystemExit 1)
        | Some code =>
            if negb (py.truthy code) then raise (SystemExit 1)
            else
              tokens <- auth.exchange_code_for_tokens env code code_verifier
                          settings ;;
              tokens <- match tokens with
                        | TokenPayload.Object p => ret p
                        | TokenPayload.NotObject _ => raise AttributeError
                        end ;;
              let refresh_token :=
                match TokenPayload.refresh_token tokens with
                | Some r => r
                | None => ""
                end in
              if negb (py.truthy refresh_token) then raise (SystemExit 1)
              else
                _ <- keychain.store_refresh_token env refresh_token ;;
                ret tt
        end
    end.
End login.

End cli.

(** ** Reading a trace *)

Module obs.

(** The calls of the HTTP client: each is a request on the network,
    unless the client refuses its URL. *)
Definition is_network_call (e : event) : bool :=
  match e with
  | TokenPost _ _ _ | ApiRequest _ _ _ _ => true
  | _ => false
  end.

Definition network_calls (tr : list event) : list event :=
  filter is_network_call tr.

Definition is_api_request (e : event) : bool :=
  match e with ApiRequest _ _ _ _ => true | _ => false end.

(** The calls of [client.request]: the requests to the API. *)
Definition api_requests (tr : list event) : list event :=
  filter is_api_request tr.

Definition is_refresh_call (e : event) : bool :=
  match e with RefreshCalled => true | _ => false end.

(** How often [TokenStore.refresh] was entered. *)
Definition refresh_calls (tr : list event) : nat :=
  length (filter is_refresh_call tr).

(** The values handed to [store_refresh_token], oldest first. *)
Fixpoint persistence_writes (tr : list event) : list string :=
  match tr with
  | [] => []
  | StoreRefreshToken token :: tr' => token :: persistence_writes tr'
  | _ :: tr' => persistence_writes tr'
  end.

(** The codes handed to [exchange_code_for_tokens], oldest first. *)
Fixpoint exchanges (tr : list event) : list string :=
  match tr with
  | [] => []
  | ExchangeCalled code _ :: tr' => code :: exchanges tr'
  | _ :: tr' => exchanges tr'
  end.

(** Computations that never end in the [ValueError] of the path check. *)
Definition no_value_error {A} (c : M A) : Prop :=
  forall (w : World) (p : string), fst (c w) <> Raise (ValueError p).

End obs.

(** ** Concrete settings, answers and worlds, for worked examples *)

Module example.

(** A tool that answers with its argument. *)
Definition echo_tool (c : Z) (w : unit) : result json * unit := (Ok (JInt c), w).

(** Settings with client credentials, read-only flag and ceiling as given. *)
Definition settings_with (ro : bool) (limit : Z) : Settings := {|
  base_url := base_url settings.default;
  access_token := "";
  client_id := "id";
  client_secret := "secret";
  refresh_token := "";
  redirect_uri := "";
  oauth_token_url := oauth_token_url settings.default;
  read_only := ro;
  max_write_calls_per_session := limit
|}.

Definition settings_with_token_url (url : string) : Settings := {|
  base_url := base_url settings.default;
  access_token := "";
  client_id := "id";
  client_secret := "secret";
  refresh_token := "";
  redirect_uri := "";
  oauth_token_url := url;
  read_only := false;
  max_write_calls_per_session := 50
|}.

Definition token_payload : TokenPayload.t := {|
  TokenPayload.access_token := Some "a1";
  TokenPayload.refresh_token := Some "r2";
  TokenPayload.expires_in := Some (JInt 3600)
|}.

Definition token_ok : response TokenPayload.body :=
  {| status_code := 200; text := "";
     json_ := Some (TokenPayload.Object token_payload) |}.

Definition api_response (status : Z) (body : json) : response json :=
  {| status_code := status; text := ""; json_ := Some body |}.

Definition unauthorized : response json := api_response 401 (JObj []).
Definition retried : response json :=
  api_response 200 (JObj [("retried", JBool true)]).

(** The clock stands at 1000; the token endpoint grants [token_payload];
    the API answers [first] to the first request it sees and [later] to
    the others; the keychain refuses every write. *)
Definition env_of (first later : response json) : Env := {|
  time_time := fun _ => 1000%Q;
  token_endpoint := fun _ _ _ _ => Resp token_ok;
  api_endpoint := fun tr _ _ _ _ =>
    match obs.api_requests tr with
    | [] => Resp first
    | _ :: _ => Resp later
    end;
  keyring_installed := true;
  keyring_set_password := fun _ _ _ _ => KrOtherError
|}.

(** A store whose bearer is good until 5000 and that holds a refresh
    string, and a store loaded with a static bearer. *)
Definition w_valid : World := {|
  store := {| TokenStore._access_token := "old";
              TokenStore._refresh_token := "r1";
              TokenStore._expires_at := Fin 5000 |};
  trace := []
|}.

Definition w_static : World := {|
  store := TokenStore.load_static TokenStore.new "abc";
  trace := []
|}.

Definition w_new : World := {| store := TokenStore.new; trace := [] |}.

(** [urlencode] on keys and values that need no escaping. *)
Fixpoint urlencode_plain (params : list (string * string)) : string :=
  match params with
  | [] => ""
  | [(k, v)] => k ++ "=" ++ v
  | (k, v) :: params' => k ++ "=" ++ v ++ "&" ++ urlencode_plain params'
  end.

(** [urlparse(u).query] for the lines of the examples: what follows the
    first [?], and a [ValueError] for a line with a [[] and no []]. *)
Fixpoint after_question_mark (u : string) : string :=
  match u with
  | EmptyString => EmptyString
  | String c u' => if Ascii.eqb c "?" then u' else after_question_mark u'
  end.

Definition urlparse_query (u : string) : option string :=
  if py.contains "[" u && negb (py.contains "]" u) then None
  else Some (after_question_mark u).

(** [parse_qs(query).get(k, [None])[0]] for the queries of the examples:
    [code=ABC&state=WRONG] and the empty query. *)
Definition parse_qs_first (query k : string) : option string :=
  if String.eqb query "code=ABC&state=WRONG"
  then
    if String.eqb k "code" then Some "ABC"
    else if String.eqb k "state" then Some "WRONG"
    else None
  else None.

End example.

(** ** client.py: the four verbs *)

Module TOCOnlineClient.

(** [get(path, *, params=None)]; [params] is [JNull] for [None]. *)
Definition get (env : Env) (settings : Settings) (path : string) (params : json)
  : M json :=
  client._request env settings "GET" path [("params", params)].

Definition post (env : Env) (settings : Settings) (path : string) (body : json)
  : M json :=
  client._request env settings "POST" path [("json", body)].

Definition patch (env : Env) (settings : Settings) (path : string) (body : json)
  : M json :=
  client._request env settings "PATCH" path [("json", body)].

(** [delete(path, *, json=None)]. *)
Definition delete (env : Env) (settings : Settings) (path : string) (body : json)
  : M json :=
  client._request env settings "DELETE" path [("json", body)].

End TOCOnlineClient.

(** ** tools/_base.py *)

Module tools_base.

(** The characters matched by [\d] in a [str] pattern, on U+0000..U+00FF:
    the decimal digits [0] to [9].  (The decimal digits of other scripts,
    which [\d] matches as well, lie above U+00FF; [unicode] has the
    pattern on arbitrary code points.) *)
Definition is_digit (c : ascii) : bool :=
  let n := N_of_ascii c in ((48 <=? n) && (n <=? 57))%N.

Fixpoint all_digits (s : string) : bool :=
  match s with
  | EmptyString => true
  | String c s' => is_digit c && all_digits s'
  end.

(** How many digits [s] begins with. *)
Fixpoint leading_digits (s : string) : nat :=
  match s with
  | EmptyString => O
  | String c s' => if is_digit c then S (leading_digits s') else O
  end.

(** Where [$] holds: at the end, and just before a line feed that ends
    the string. *)
Definition at_eol (s : string) : bool :=
  match s with
  | EmptyString => true
  | String c EmptyString => Ascii.eqb c (ascii_of_nat 10)
  | String _ (String _ _) => false
  end.

(** [_RESOURCE_ID_RE.match(value)] for [re.compile(r"^\d{1,20}$")], as a
    truth value: the digits are consumed as far as they go, up to 20, and
    [$] can only hold where they stop. *)
Definition _RESOURCE_ID_RE_match (value : string) : bool :=
  let k := leading_digits value in
  (1 <=? k)%nat && (k <=? 20)%nat && at_eol (client.drop k value).

(** What [validate_resource_id] does: it returns [value], or raises
    [ToolError] with a text made of [name] and [value]. *)
Inductive validated : Type :=
| Returns (value : string)
| ToolError (name value : string).

Definition validate_resource_id (value name : string) : validated :=
  if negb (_RESOURCE_ID_RE_match value) then ToolError name value
  else Returns value.

End tools_base.

(** ** tools/_base.py on identifiers of arbitrary code points

    [\d] in a [str] pattern matches every decimal digit of Unicode, of
    which only [0] to [9] lie in U+0000..U+00FF.  Here an identifier is a
    sequence of code points and [\d] is a parameter, so that
    [validate_resource_id] is covered for every [str];
    [tools_base.validate_resource_id] is what it comes to on the strings
    of the other modules. *)

Module unicode.

(** A [str]: its code points. *)
Definition str : Type := list N.

(** The code points of a string of U+0000..U+00FF. *)
Definition of_string (s : string) : str := map N_of_ascii (list_ascii_of_string s).

Section resource_ids.
(** The code points that [\d] matches. *)
Variable decimal : N -> bool.

(** How many code points matched by [\d] the identifier begins with. *)
Fixpoint leading_digits (value : str) : nat :=
  match value with
  | [] => O
  | c :: value' => if decimal c then S (leading_digits value') else O
  end.

(** Where [$] holds: at the end, and just before a line feed that ends
    the identifier. *)
Definition at_eol (value : str) : bool :=
  match value with
  | [] => true
  | [c] => (c =? 10)%N
  | _ :: _ :: _ => false
  end.

(** [_RESOURCE_ID_RE.match(value)] for [re.compile(r"^\d{1,20}$")], as a
    truth value. *)
Definition _RESOURCE_ID_RE_match (value : str) : bool :=
  let k := leading_digits value in
  (1 <=? k)%nat && (k <=? 20)%nat && at_eol (skipn k value).

Inductive validated : Type :=
| Returns (value : str)
| ToolError (name : string) (value : str).

Definition validate_resource_id (value : str) (name : string) : validated :=
  if negb (_RESOURCE_ID_RE_match value) then ToolError name value
  else Returns value.
End resource_ids.

(** [\d] on U+0000..U+00FF. *)
Definition ascii_digit (c : N) : bool := ((48 <=? c) && (c <=? 57))%N.

End unicode.

(** ** keychain.py against a keyring with a state *)

Module vault.

(** The [keyring] package as the process finds it: not importable;
    importable with no backend ([NoKeyringError] on every call);
    importable with a backend that fails with some other exception on
    every call; or working.  A working backend maps service and user name
    to the password last set and raises [PasswordDeleteError] when asked
    to delete what it does not hold. *)
Inductive backend : Type :=
| NotInstalled
| NoBackend
| Failing
| Working (entries : list (string * string * string)).

Definition same_entry (service key : string) (e : string * string * string) : bool :=
  let '(s, k, _) := e in String.eqb s service && String.eqb k key.

(** [keyring.get_password(service, key)] on a working backend. *)
Fixpoint get_password (entries : list (string * string * string))
    (service key : string) : option string :=
  match entries with
  | [] => None
  | (s, k, pw) :: entries' =>
      if String.eqb s service && String.eqb k key then Some pw
      else get_password entries' service key
  end.

Definition without (entries : list (string * string * string))
    (service key : string) : list (string * string * string) :=
  filter (fun e => negb (same_entry service key e)) entries.

(** [keyring.set_password(service, key, pw)] on a working backend. *)
Definition set_password (entries : list (string * string * string))
    (service key pw : string) : list (string * string * string) :=
  (service, key, pw) :: without entries service key.

Definition store_refresh_token (b : backend) (token : string) : bool * backend :=
  match b with
  | NotInstalled => (false, b)
  | NoBackend => (false, b)
  | Failing => (false, b)
  | Working entries =>
      (true, Working (set_password entries keychain._SERVICE_NAME
                        keychain._REFRESH_TOKEN_KEY token))
  end.

Definition load_refresh_token (b : backend) : option string :=
  match b with
  | NotInstalled => None
  | NoBackend => None
  | Failing => None
  | Working entries =>
      match get_password entries keychain._SERVICE_NAME
              keychain._REFRESH_TOKEN_KEY with
      | Some token => if py.truthy token then Some token else None
      | None => None
      end
  end.

Definition delete_refresh_token (b : backend) : bool * backend :=
  match b with
  | NotInstalled => (false, b)
  | NoBackend => (false, b)
  | Failing => (false, b)
  | Working entries =>
      match get_password entries keychain._SERVICE_NAME
              keychain._REFRESH_TOKEN_KEY with
      | Some _ =>
          (true, Working (without entries keychain._SERVICE_NAME
                            keychain._REFRESH_TOKEN_KEY))
      | None => (true, b)
      end
  end.

Definition has_refresh_token (b : backend) : bool :=
  match load_refresh_token b with
  | Some _ => true
  | None => false
  end.

End vault.

(** ** app.py: seeding the token store *)

Module lifespan.

(** The token store that [lifespan] hands to the client;
    [keychain_token] is what [keychain.load_refresh_token()] returns when
    it is called. *)
Definition token_store (settings : Settings) (keychain_token : option string)
  : TokenStore.t :=
  let token_store := TokenStore.new in
  if py.truthy (access_token settings)
  then TokenStore.load_static token_store (access_token settings)
  else
    let from_settings :=
      if py.truthy (refresh_token settings)
      then TokenStore.load_refresh_token token_store (refresh_token settings)
      else token_store in
    match keychain_token with
    | Some t =>
        if py.truthy t then TokenStore.load_refresh_token token_store t
        else from_settings
    | None => from_settings
    end.

End lifespan.

(** ** cli.py: status and logout *)

Module cli_auth.

(** The line that [_auth_status] prints. *)
Inductive status_line : Type :=
| StoredInKeychain
| OnlyInEnv
| NotFound.

Definition _auth_status (settings : Settings) (b : vault.backend) : status_line :=
  if vault.has_refresh_token b then StoredInKeychain
  else if py.truthy (refresh_token settings) then OnlyInEnv
  else NotFound.

(** The line that [_auth_logout] prints. *)
Inductive logout_line : Type :=
| Removed
| CouldNotDelete.

Definition _auth_logout (b : vault.backend) : logout_line * vault.backend :=
  let '(ok, b') := vault.delete_refresh_token b in
  (if ok then Removed else CouldNotDelete, b').

End cli_auth.

(** ** settings.py: the modules field *)

Module settings_modules.

(** [s.split(sep)] for a separator of one character. *)
Fixpoint split (sep : ascii) (s : string) : list string :=
  match s with
  | EmptyString => [EmptyString]
  | String c s' =>
      if Ascii.eqb c sep then EmptyString :: split sep s'
      else
        match split sep s' with
        | piece :: pieces => String c piece :: pieces
        | [] => [String c EmptyString]
        end
  end.

(** The value handed to the validator: [None], a [str] or a [list]. *)
Inductive raw : Type :=
| RawNone
| RawStr (s : string)
| RawList (l : list string).

Definition _parse_modules (v : raw) : option (list string) :=
  match v with
  | RawNone => None
  | RawStr s =>
      if negb (py.truthy s) then None
      else Some (map py.strip
                   (filter (fun m => py.truthy (py.strip m)) (split "," s)))
  | RawList l => Some l
  end.

End settings_modules.

(** ** server.py *)

Module server.

Definition _ALL_MODULES : list string :=
  ["customers"; "suppliers"; "addresses"; "contacts"; "products"; "services";
   "sales_documents"; "sales_receipts"; "purchase_documents";
   "purchase_payments"; "auxiliary"].

Definition mem (x : string) (l : list string) : bool :=
  existsb (String.eqb x) l.

(** Insertion into a list kept in increasing order without repeats. *)
Fixpoint insert (x : string) (l : list string) : list string :=
  match l with
  | [] => [x]
  | y :: l' =>
      if String.eqb x y then l
      else if String.ltb x y then x :: l
      else y :: insert x l'
  end.

(** The order of [sorted] on [str]: by code points, position by position. *)
Definition increasing (x y : string) : Prop := String.ltb x y = true.

(** [sorted(set(requested) - set(_ALL_MODULES))]. *)
Definition unknown (requested : list string) : list string :=
  fold_right insert [] (filter (fun m => negb (mem m _ALL_MODULES)) requested).

(** What [_load_tool_modules] does: it imports the named modules in
    order, or raises [ValueError] naming the unknown ones. *)
Inductive loaded : Type :=
| Imports (names : list string)
| UnknownModules (names : list string).

Definition _load_tool_modules (requested : option (list string)) : loaded :=
  match requested with
  | Some requested =>
      match unknown requested with
      | [] => Imports requested
      | u => UnknownModules u
      end
  | None => Imports _ALL_MODULES
  end.

End server.

(** ** Reading a form *)

Module form.

(** The value of field [k] among the items of a form or query. *)
Fixpoint field (k : string) (items : list (string * string)) : option string :=
  match items with
  | [] => None
  | (k', v) :: items' => if String.eqb k k' then Some v else field k items'
  end.

(** The items that [make_auth_url] hands to [urlencode]. *)
Definition auth_params (settings : Settings) (pkce : string * string)
    (state : string) : list (string * string) :=
  [("client_id", client_id settings);
   ("redirect_uri", py.or_ (redirect_uri settings) auth.default_redirect_uri);
   ("response_type", "code");
   ("scope", "commercial");
   ("code_challenge", snd pkce);
   ("code_challenge_method", "S256");
   ("state", state)].

End form.

(** ** auth.py: the PKCE pair and the state *)

Module pkce.

(** The alphabet of [base64.urlsafe_b64encode] (RFC 4648, section 5). *)
Definition alphabet : string :=
  "ABCDEFGHIJKLMNOPQRSTUVWXYZabcdefghijklmnopqrstuvwxyz0123456789-_".

(** The character for the low six bits of [i]. *)
Definition digit (i : N) : ascii :=
  match String.get (N.to_nat (i mod 64)) alphabet with
  | Some c => c
  | None => "A"%char
  end.

(** [base64.urlsafe_b64encode(bs)] on a sequence of bytes: three bytes
    give four characters, and a rest of one or two bytes gives two or
    three characters and is padded with [=] to four. *)
Fixpoint urlsafe_b64encode (bs : list ascii) : string :=
  match bs with
  | [] => EmptyString
  | [b1] =>
      let n := (N_of_ascii b1 * 65536)%N in
      String (digit (n / 262144)) (String (digit (n / 4096)) "==")
  | [b1; b2] =>
      let n := (N_of_ascii b1 * 65536 + N_of_ascii b2 * 256)%N in
      String (digit (n / 262144))
        (String (digit (n / 4096)) (String (digit (n / 64)) "="))
  | b1 :: b2 :: b3 :: rest =>
      let n := (N_of_ascii b1 * 65536 + N_of_ascii b2 * 256 + N_of_ascii b3)%N in
      String (digit (n / 262144))
        (String (digit (n / 4096))
           (String (digit (n / 64))
              (String (digit n) (urlsafe_b64encode rest))))
  end.

(** [s.rstrip(b"=")]. *)
Fixpoint rstrip_pad (s : string) : string :=
  match s with
  | EmptyString => EmptyString
  | String c s' =>
      match rstrip_pad s' with
      | EmptyString => if Ascii.eqb c "=" then EmptyString else String c EmptyString
      | r => String c r
      end
  end.

(** [code_verifier.encode()]: the bytes of a string of ASCII characters. *)
Definition encode (s : string) : list ascii := list_ascii_of_string s.

Section generators.
(** [hashlib.sha256(m).digest()]. *)
Variable sha256 : list ascii -> list ascii.

(** [_generate_pkce_pair]; [verifier_bytes] is what [os.urandom(32)]
    returns. *)
Definition _generate_pkce_pair (verifier_bytes : list ascii) : string * string :=
  let code_verifier := rstrip_pad (urlsafe_b64encode verifier_bytes) in
  let digest := sha256 (encode code_verifier) in
  let code_challenge := rstrip_pad (urlsafe_b64encode digest) in
  (code_verifier, code_challenge).
End generators.

(** [_generate_state]; [random] is what [os.urandom(16)] returns. *)
Definition _generate_state (random : list ascii) : string :=
  rstrip_pad (urlsafe_b64encode random).

(** The characters of the URL-safe alphabet. *)
Definition is_urlsafe (c : ascii) : bool :=
  let n := N_of_ascii c in
  ((48 <=? n) && (n <=? 57) || (65 <=? n) && (n <=? 90)
   || (97 <=? n) && (n <=? 122) || (n =? 45) || (n =? 95))%N.

Fixpoint all_urlsafe (s : string) : bool :=
  match s with
  | EmptyString => true
  | String c s' => is_urlsafe c && all_urlsafe s'
  end.

End pkce.

(** ** What a computation adds to the trace, counted *)

Module bounds.

Definition is_token_post (e : event) : bool :=
  match e with TokenPost _ _ _ => true | _ => false end.

(** The calls of [client.post]: the requests to the token endpoint. *)
Definition token_posts (tr : list event) : list event :=
  filter is_token_post tr.

(** [c] only appends to the trace, and what it appends holds at most [a]
    calls of the API, [r] entries into [refresh] and [n] calls of the
    token endpoint. *)
Definition within {A} (c : M A) (a r n : nat) : Prop :=
  forall w : World,
    exists evs : list event,
      trace (snd (c w)) = (trace w ++ evs)%list
      /\ (length (obs.api_requests evs) <= a)%nat
      /\ (obs.refresh_calls evs <= r)%nat
      /\ (length (token_posts evs) <= n)%nat.

End bounds.

(** ** More concrete settings and answers, for worked examples *)

Module example_more.

(** An environment like [example.env_of], with the answer of the token
    endpoint as given. *)
Definition env_with_token (answer : net_result TokenPayload.body)
    (first later : response json) : Env := {|
  time_time := fun _ => 1000%Q;
  token_endpoint := fun _ _ _ _ => answer;
  api_endpoint := fun tr _ _ _ _ =>
    match obs.api_requests tr with
    | [] => Resp first
    | _ :: _ => Resp later
    end;
  keyring_installed := true;
  keyring_set_password := fun _ _ _ _ => KrStored
|}.

Definition server_error : response TokenPayload.body :=
  {| status_code := 500; text := "down"; json_ := None |}.

Definition grant (p : TokenPayload.t) : response TokenPayload.body :=
  {| status_code := 200; text := ""; json_ := Some (TokenPayload.Object p) |}.

(** A grant that lasts 30 seconds. *)
Definition short_lived : response TokenPayload.body :=
  grant {| TokenPayload.access_token := Some "a1";
           TokenPayload.refresh_token := None;
           TokenPayload.expires_in := Some (JInt 30) |}.

(** A grant whose [expires_in] is [null]. *)
Definition null_lifetime : response TokenPayload.body :=
  grant {| TokenPayload.access_token := Some "a1";
           TokenPayload.refresh_token := Some "r2";
           TokenPayload.expires_in := Some JNull |}.

(** An environment whose token endpoint grants [example.token_payload]
    and whose HTTP client refuses the URL of every call of
    [client.request]. *)
Definition env_refusing : Env := {|
  time_time := fun _ => 1000%Q;
  token_endpoint := fun _ _ _ _ => Resp example.token_ok;
  api_endpoint := fun _ _ _ _ _ => Refused;
  keyring_installed := true;
  keyring_set_password := fun _ _ _ _ => KrStored
|}.

(** An environment like [example.env_of] whose clock moves: it starts
    at 1000 and every event takes 100 seconds. *)
Definition env_ticking (first later : response json) : Env := {|
  time_time := fun tr => inject_Z (1000 + 100 * Z.of_nat (length tr));
  token_endpoint := fun _ _ _ _ => Resp example.token_ok;
  api_endpoint := fun tr _ _ _ _ =>
    match obs.api_requests tr with
    | [] => Resp first
    | _ :: _ => Resp later
    end;
  keyring_installed := true;
  keyring_set_password := fun _ _ _ _ => KrStored
|}.

(** A world with a new token store that holds a refresh string. *)
Definition w_seeded : World := {|
  store := TokenStore.load_refresh_token TokenStore.new "r1";
  trace := []
|}.

(** Settings with a static access token and nothing else. *)
Definition settings_static : Settings := {|
  base_url := base_url settings.default;
  access_token := "abc";
  client_id := "";
  client_secret := "";
  refresh_token := "";
  redirect_uri := "";
  oauth_token_url := oauth_token_url settings.default;
  read_only := false;
  max_write_calls_per_session := 50
|}.

(** A digest function of the right size, and sequences of bytes. *)
Definition zero_digest (m : list ascii) : list ascii := repeat zero 32.
Definition bytes32 : list ascii := repeat (ascii_of_nat 255) 32.
Definition bytes16 : list ascii := repeat (ascii_of_nat 7) 16.

End example_more.

(* ===================================================================== *)
(** * Part II: properties                                                  *)
(* ===================================================================== *)

Lemma Qltb_lt (x y : Q) : Qltb x y = true <-> (x < y)%Q.
Proof. unfold Qltb, Qlt. apply Z.ltb_lt. Qed.

Lemma truthy_nonempty (s : string) : py.truthy s = true <-> s <> "".
Proof. destruct s; simpl; split; congruence. Qed.

(** ** The token store: validity *)

Section TokenStoreFacts.
Import TokenStore.

Lemma float_lt_sub60 (now e : Q) :
  float_lt now (float_sub (Fin e) 60) = true <-> (now < e - 60)%Q.
Proof. simpl. rewrite Qltb_lt. reflexivity. Qed.

Lemma is_valid_true_iff (self : t) (now : Q) :
  is_valid self now = true <->
  _access_token self <> ""
  /\ match _expires_at self with
     | Fin e => (now < e - 60)%Q
     | PosInf => True
     end.
Proof.
  unfold is_valid. rewrite andb_true_iff, truthy_nonempty.
  destruct (_expires_at self) as [e|].
  - rewrite float_lt_sub60. reflexivity.
  - simpl. intuition.
Qed.

Lemma is_valid_false_iff (self : t) (now : Q) :
  is_valid self now = false <->
  _access_token self = ""
  \/ match _expires_at self with
     | Fin e => (e - 60 <= now)%Q
     | PosInf => False
     end.
Proof.
  rewrite <- not_true_iff_false, is_valid_true_iff.
  destruct (_access_token self) as [|c s] eqn:Ea;
    destruct (_expires_at self) as [e|] eqn:Ee.
  - intuition.
  - intuition.
  - split.
    + intros H. right. apply Qnot_lt_le. intros Hlt. apply H. split; [discriminate|exact Hlt].
    + intros [H|H] [_ Hlt]; [discriminate|]. exact (Qle_not_lt _ _ H Hlt).
  - split.
    + intros H. exfalso. apply H. split; [discriminate|exact I].
    + intros [H|[]]. discriminate.
Qed.

(** C6.  [is_valid] holds exactly when a bearer is present and the
    clock reads strictly less than [expires_at - 60]; it fails exactly
    when the bearer is empty or [expires_at - 60] is at or before the
    clock (so also at the boundary, where [expires_at] is exactly 60
    seconds away); and after [load_static] the expiry is [+inf] and the
    store is valid at every time, for every non-empty bearer. *)
Theorem is_valid_spec (self : t) (now : Q) :
  (is_valid self now = true <->
     _access_token self <> ""
     /\ match _expires_at self with
        | Fin e => (now < e - 60)%Q
        | PosInf => True
        end)
  /\ (is_valid self now = false <->
        _access_token self = ""
        \/ match _expires_at self with
           | Fin e => (e - 60 <= now)%Q
           | PosInf => False
           end)
  /\ is_valid {| _access_token := _access_token self;
                 _refresh_token := _refresh_token self;
                 _expires_at := Fin (now + 60) |} now = false
  /\ (forall token : string,
        _expires_at (load_static self token) = PosInf
        /\ _access_token (load_static self token) = token
        /\ (is_valid (load_static self token) now = true <-> token <> "")).
Proof.
  split; [apply is_valid_true_iff|].
  split; [apply is_valid_false_iff|].
  split.
  - apply is_valid_false_iff. right. simpl. lra.
  - intros token. split; [reflexivity|]. split; [reflexivity|].
    rewrite is_valid_true_iff. simpl. intuition.
Qed.

(** C10.  [load_refresh_token] changes the held refresh string and
    nothing else: bearer and expiry are kept, so [is_valid] reads the
    same before and after at every time, and a new store is still
    invalid after the call. *)
Theorem load_refresh_token_frame (self : t) (r : string) (now : Q) :
  _refresh_token (load_refresh_token self r) = r
  /\ _access_token (load_refresh_token self r) = _access_token self
  /\ _expires_at (load_refresh_token self r) = _expires_at self
  /\ is_valid (load_refresh_token self r) now = is_valid self now
  /\ is_valid (load_refresh_token new r) now = false.
Proof. repeat split. Qed.

End TokenStoreFacts.

(** ** The write gate *)

Section WriteGateFacts.
Import app.
Variables (Call W : Type).
Variable func : Call -> W -> result json * W.

Lemma read_only_error_mentions :
  py.contains "read-only" _READ_ONLY_ERROR = true.
Proof. reflexivity. Qed.

(** C2.  In read-only mode a call of the wrapper returns the structured
    error, whose [error] entry mentions read-only mode, and leaves the
    whole state as it was: the counter is not incremented and the wrapped
    function is not run. *)
Theorem write_tool_read_only (settings : Settings) (c : Call) (st : State Call W) :
  read_only settings = true ->
  exists msg : string,
    wrapper Call W func settings c st = (Ok (JObj [("error", JStr msg)]), st)
    /\ py.contains "read-only" msg = true
    /\ _write_call_count (snd (wrapper Call W func settings c st))
       = _write_call_count st
    /\ invoked (snd (wrapper Call W func settings c st)) = invoked st
    /\ tools (snd (wrapper Call W func settings c st)) = tools st.
Proof.
  intros Hro. exists _READ_ONLY_ERROR.
  unfold wrapper. rewrite Hro. simpl. repeat split.
Qed.

Lemma wrapper_counts (settings : Settings) (c : Call) (st : State Call W) :
  read_only settings = false ->
  0 < max_write_calls_per_session settings ->
  _write_call_count (snd (wrapper Call W func settings c st))
  = _write_call_count st + 1.
Proof.
  intros Hro Hpos. unfold wrapper. rewrite Hro.
  destruct (max_write_calls_per_session settings >? 0) eqn:E;
    [|rewrite Z.gtb_ltb, Z.ltb_ge in E; lia].
  cbn [_write_call_count].
  destruct (_write_call_count st + 1 >? max_write_calls_per_session settings);
    [reflexivity|].
  unfold call_func. cbn [tools]. destruct (func c (tools st)). reflexivity.
Qed.

(** One call under a positive ceiling, by the room that is left. *)
Lemma wrapper_limited (settings : Settings) (c : Call) (st : State Call W) :
  read_only settings = false ->
  0 < max_write_calls_per_session settings ->
  wrapper Call W func settings c st =
  if _write_call_count st <? max_write_calls_per_session settings
  then (fst (func c (tools st)),
        {| _write_call_count := _write_call_count st + 1;
           tools := snd (func c (tools st));
           invoked := (invoked st ++ [c])%list |})
  else (Ok (error_result (_RATE_LIMIT_ERROR (max_write_calls_per_session settings))),
        {| _write_call_count := _write_call_count st + 1;
           tools := tools st;
           invoked := invoked st |}).
Proof.
  intros Hro Hpos. unfold wrapper. rewrite Hro.
  destruct (max_write_calls_per_session settings >? 0) eqn:E;
    [|rewrite Z.gtb_ltb, Z.ltb_ge in E; lia].
  cbn [_write_call_count].
  rewrite Z.gtb_ltb.
  destruct (_write_call_count st <? max_write_calls_per_session settings) eqn:E1.
  - apply Z.ltb_lt in E1.
    destruct (max_write_calls_per_session settings <? _write_call_count st + 1) eqn:E2;
      [apply Z.ltb_lt in E2; lia|].
    unfold call_func. cbn [tools _write_call_count invoked].
    destruct (func c (tools st)). reflexivity.
  - apply Z.ltb_ge in E1.
    destruct (max_write_calls_per_session settings <? _write_call_count st + 1) eqn:E2;
      [reflexivity|apply Z.ltb_ge in E2; lia].
Qed.

Lemma wrapper_unlimited (settings : Settings) (c : Call) (st : State Call W) :
  read_only settings = false ->
  max_write_calls_per_session settings <= 0 ->
  wrapper Call W func settings c st =
  (fst (func c (tools st)),
   {| _write_call_count := _write_call_count st;
      tools := snd (func c (tools st));
      invoked := (invoked st ++ [c])%list |}).
Proof.
  intros Hro Hz. unfold wrapper. rewrite Hro.
  destruct (max_write_calls_per_session settings >? 0) eqn:E;
    [rewrite Z.gtb_ltb in E; apply Z.ltb_lt in E; lia|].
  unfold call_func. destruct (func c (tools st)). reflexivity.
Qed.

Lemma session_limited (settings : Settings) (calls : list Call) :
  read_only settings = false ->
  0 < max_write_calls_per_session settings ->
  forall st : State Call W,
    0 <= _write_call_count st ->
    let room := Z.to_nat (max_write_calls_per_session settings - _write_call_count st) in
    session Call W func settings calls st =
    ((fst (run_funcs Call W func (firstn room calls) (tools st))
        ++ repeat (Ok (error_result
                         (_RATE_LIMIT_ERROR (max_write_calls_per_session settings))))
                  (length calls - room))%list,
     {| _write_call_count := _write_call_count st + Z.of_nat (length calls);
        tools := snd (run_funcs Call W func (firstn room calls) (tools st));
        invoked := (invoked st ++ firstn room calls)%list |}).
Proof.
  intros Hro Hpos. induction calls as [|c calls IH]; intros st Hc room.
  - destruct st as [n w l]. cbn. rewrite firstn_nil. cbn.
    rewrite app_nil_r, Z.add_0_r. reflexivity.
  - cbn [session]. rewrite (wrapper_limited settings c st Hro Hpos).
    destruct (_write_call_count st <? max_write_calls_per_session settings) eqn:E.
    + apply Z.ltb_lt in E.
      assert (Hroom : room = S (Z.to_nat (max_write_calls_per_session settings
                                           - (_write_call_count st + 1)))).
      { unfold room. lia. }
      rewrite Hroom. cbn [firstn run_funcs length].
      rewrite IH by (cbn; lia). cbn [_write_call_count tools invoked].
      destruct (func c (tools st)) as [r w'] eqn:Ef. cbn [fst snd].
      destruct (run_funcs Call W func _ w') as [rs w''] eqn:Er. cbn [fst snd].
      rewrite <- app_assoc. cbn [app].
      replace (S (length calls) - S _)%nat
        with (length calls - Z.to_nat (max_write_calls_per_session settings
                                        - (_write_call_count st + 1)))%nat by lia.
      f_equal. f_equal. lia.
    + apply Z.ltb_ge in E.
      assert (Hroom : room = O) by (unfold room; lia).
      rewrite Hroom. rewrite IH by (cbn; lia).
      cbn [_write_call_count tools invoked].
      replace (Z.to_nat (max_write_calls_per_session settings
                         - (_write_call_count st + 1))) with O by lia.
      cbn [firstn run_funcs fst snd app length]. rewrite !Nat.sub_0_r.
      cbn [repeat]. f_equal. f_equal. lia.
Qed.

Lemma session_unlimited (settings : Settings) (calls : list Call) :
  read_only settings = false ->
  max_write_calls_per_session settings <= 0 ->
  forall st : State Call W,
    session Call W func settings calls st =
    (fst (run_funcs Call W func calls (tools st)),
     {| _write_call_count := _write_call_count st;
        tools := snd (run_funcs Call W func calls (tools st));
        invoked := (invoked st ++ calls)%list |}).
Proof.
  intros Hro Hz. induction calls as [|c calls IH]; intros st.
  - destruct st as [n w l]. cbn. rewrite app_nil_r. reflexivity.
  - cbn [session]. rewrite (wrapper_unlimited settings c st Hro Hz).
    rewrite IH. cbn [_write_call_count tools invoked run_funcs].
    destruct (func c (tools st)) as [r w'] eqn:Ef. cbn [fst snd].
    destruct (run_funcs Call W func calls w') as [rs w''] eqn:Er. cbn [fst snd].
    rewrite <- app_assoc. reflexivity.
Qed.

End WriteGateFacts.

Section WriteGateSessions.
Import app.
Variables (Call W : Type).
Variable func : Call -> W -> result json * W.

Lemma run_funcs_length (calls : list Call) (w : W) :
  length (fst (run_funcs Call W func calls w)) = length calls.
Proof.
  revert w. induction calls as [|c calls IH]; intros w; [reflexivity|].
  cbn [run_funcs]. destruct (func c w) as [r w'].
  specialize (IH w'). destruct (run_funcs Call W func calls w') as [rs w''].
  cbn [fst length] in *. now rewrite IH.
Qed.

(** C3.  With read-only mode off, let [N] be the configured ceiling.
    If [N > 0]: every call of the wrapper adds exactly one to the
    counter; in a session that starts with the counter at zero the first
    [N] calls, and only they, run the wrapped function, the results being
    those of the wrapped functions followed by one rate-limit error per
    further call; every call at position [N] or later (counting from 0)
    is answered, not raised, by that error: the object whose one entry
    [error] is the rate-limit text with [N] in decimal in it; the counter
    ends at the number of calls.  If [N = 0]: every call runs the wrapped
    function and is answered by its result. *)
Theorem write_tool_rate_limit (settings : Settings) (calls : list Call) (w : W) :
  read_only settings = false ->
  let N := max_write_calls_per_session settings in
  let msg :=
    "Write operation rate limit exceeded (max " ++ py.str N
    ++ " per session). This safety limit prevents runaway automation. "
    ++ "Adjust TOCONLINE_MAX_WRITE_CALLS_PER_SESSION to change the limit." in
  let rejected := Ok (JObj [("error", JStr msg)]) in
  (0 < N ->
     (forall (c : Call) (st : State Call W),
        _write_call_count (snd (wrapper Call W func settings c st))
        = _write_call_count st + 1)
     /\ session Call W func settings calls (initial w) =
        ((fst (run_funcs Call W func (firstn (Z.to_nat N) calls) w)
            ++ repeat rejected (length calls - Z.to_nat N))%list,
         {| _write_call_count := Z.of_nat (length calls);
            tools := snd (run_funcs Call W func (firstn (Z.to_nat N) calls) w);
            invoked := firstn (Z.to_nat N) calls |})
     /\ (forall k : nat,
           (Z.to_nat N <= k < length calls)%nat ->
           nth_error (fst (session Call W func settings calls (initial w))) k
           = Some rejected)
     /\ exists pre post : string, msg = pre ++ py.str N ++ post)
  /\ (N = 0 ->
      session Call W func settings calls (initial w) =
      (fst (run_funcs Call W func calls w),
       {| _write_call_count := 0;
          tools := snd (run_funcs Call W func calls w);
          invoked := calls |})).
Proof.
  intros Hro N msg rejected.
  assert (Hmsg : error_result (_RATE_LIMIT_ERROR N) = JObj [("error", JStr msg)]).
  { reflexivity. }
  split.
  - intros Hpos.
    assert (Hs := session_limited Call W func settings calls Hro Hpos (initial w)
                    (Z.le_refl 0)).
    cbn [initial _write_call_count tools invoked app] in Hs.
    rewrite Z.sub_0_r, Z.add_0_l in Hs. fold N in Hs. rewrite Hmsg in Hs.
    fold rejected in Hs.
    split; [intros c st; now apply wrapper_counts|].
    split; [exact Hs|]. split.
    + intros k [Hk1 Hk2]. rewrite Hs. cbn [fst].
      assert (Hlen : length (fst (run_funcs Call W func (firstn (Z.to_nat N) calls) w))
                     = Z.to_nat N).
      { rewrite run_funcs_length, length_firstn. lia. }
      rewrite nth_error_app2 by lia. rewrite Hlen.
      rewrite nth_error_repeat by lia. reflexivity.
    + exists "Write operation rate limit exceeded (max ". eexists. reflexivity.
  - intros HN.
    assert (Hz : max_write_calls_per_session settings <= 0) by (fold N; lia).
    rewrite (session_unlimited Call W func settings calls Hro Hz (initial w)).
    reflexivity.
Qed.

End WriteGateSessions.

(** ** Traces *)

Lemma persistence_writes_app (a b : list event) :
  obs.persistence_writes (a ++ b)
  = (obs.persistence_writes a ++ obs.persistence_writes b)%list.
Proof.
  induction a as [|e a IH]; [reflexivity|].
  destruct e; cbn; rewrite IH; reflexivity.
Qed.

Lemma exchanges_app (a b : list event) :
  obs.exchanges (a ++ b) = (obs.exchanges a ++ obs.exchanges b)%list.
Proof.
  induction a as [|e a IH]; [reflexivity|].
  destruct e; cbn; rewrite IH; reflexivity.
Qed.

Lemma network_calls_app (a b : list event) :
  obs.network_calls (a ++ b) = (obs.network_calls a ++ obs.network_calls b)%list.
Proof. apply filter_app. Qed.

Lemma api_requests_app (a b : list event) :
  obs.api_requests (a ++ b) = (obs.api_requests a ++ obs.api_requests b)%list.
Proof. apply filter_app. Qed.

Lemma refresh_calls_app (a b : list event) :
  obs.refresh_calls (a ++ b) = (obs.refresh_calls a + obs.refresh_calls b)%nat.
Proof. unfold obs.refresh_calls. now rewrite filter_app, length_app. Qed.

(** Splits the observations of a trace along its appends and evaluates
    them on the events that are spelled out. *)
Ltac trace_obs :=
  repeat rewrite ?persistence_writes_app, ?exchanges_app, ?network_calls_app,
    ?api_requests_app, ?refresh_calls_app;
  cbn [obs.persistence_writes obs.exchanges obs.network_calls obs.api_requests
       obs.refresh_calls filter length
       obs.is_network_call obs.is_api_request obs.is_refresh_call app];
  rewrite ?app_nil_r, <- ?app_assoc; try reflexivity.

(** Runs the monadic plumbing of a goal as far as it is determined. *)
Ltac run_m :=
  cbv beta iota delta
    [bind emit raise ret lift get_store get_trace put_store now
     auth.client_post auth.raise_for_status auth.response_json
     keychain.store_refresh_token
     client._ensure_token client._auth_header client.client_request
     client._raise_for_api_errors client.conclude];
  cbn [store trace fst snd negb orb andb].

(** Splits a goal on one answer of the outside or on one test of the
    program, and runs on. *)
Ltac case_oracle :=
  match goal with
  | |- context [py.truthy ?x] => destruct (py.truthy x); run_m
  | |- context [token_endpoint ?e ?t ?u ?d ?h] =>
      destruct (token_endpoint e t u d h); run_m
  | |- context [api_endpoint ?e ?t ?m ?p ?h ?k] =>
      destruct (api_endpoint e t m p h k); run_m
  | |- context [is_success ?r] => destruct (is_success r); run_m
  | |- context [json_ ?r] => destruct (json_ r); run_m
  | |- context [match ?b with
                | TokenPayload.Object _ => _
                | TokenPayload.NotObject _ => _
                end] => destruct b; run_m
  | |- context [auth.lifetime ?p] => destruct (auth.lifetime p); run_m
  | |- context [TokenPayload.access_token ?p] =>
      destruct (TokenPayload.access_token p); run_m
  | |- context [TokenPayload.refresh_token ?p] =>
      destruct (TokenPayload.refresh_token p); run_m
  | |- context [keyring_installed ?e] => destruct (keyring_installed e); run_m
  | |- context [keyring_set_password ?e ?t ?a ?b ?c] =>
      destruct (keyring_set_password e t a b c); run_m
  end.

(** ** Renewal *)


Section RefreshFacts.
Import TokenStore.
Variable env : Env.
Variable settings : Settings.

Lemma truthy_false_iff (s : string) : py.truthy s = false <-> s = "".
Proof. destruct s; simpl; split; congruence. Qed.

Lemma or_empty (a b : string) : py.or_ a b = "" <-> a = "" /\ b = "".
Proof.
  unfold py.or_. destruct a; simpl; split.
  - intros ->. now split.
  - now intros [_ ->].
  - discriminate.
  - intros [H _]. discriminate.
Qed.

(** C5.  When the client id or the client secret is empty, or when
    neither the store nor the settings hold a refresh string, [refresh]
    raises a [RuntimeError]; the world it leaves has the same token store
    and a trace that grew by the entry mark alone, so that no network
    call was made. *)
Theorem refresh_configuration_error (w : World) :
  client_id settings = "" \/ client_secret settings = ""
  \/ (_refresh_token (store w) = "" /\ refresh_token settings = "") ->
  exists msg : string,
    auth.refresh env settings w
    = (Raise (RuntimeError msg),
       {| store := store w; trace := trace w ++ [RefreshCalled] |})
    /\ store (snd (auth.refresh env settings w)) = store w
    /\ obs.network_calls (trace (snd (auth.refresh env settings w)))
       = obs.network_calls (trace w).
Proof.
  intros H.
  assert (Hn : obs.network_calls (trace w ++ [RefreshCalled]) = obs.network_calls (trace w)).
  { unfold obs.network_calls. rewrite filter_app. cbn. apply app_nil_r. }
  unfold auth.refresh, bind, emit, raise, get_store. cbn [store trace].
  destruct (py.truthy (client_id settings)) eqn:Ei; cbn [negb orb].
  2:{ eexists. cbn. repeat split. exact Hn. }
  destruct (py.truthy (client_secret settings)) eqn:Es; cbn [negb].
  2:{ eexists. cbn. repeat split. exact Hn. }
  destruct H as [H|[H|H]].
  - apply truthy_false_iff in H. congruence.
  - apply truthy_false_iff in H. congruence.
  - apply or_empty in H. cbn [store]. rewrite H. cbn.
    eexists. repeat split. exact Hn.
Qed.

(** [lifetime] returns what [int] makes of [expires_in], or of 7890000
    when the object has no such key, if that fits a [float], and raises
    what [int] raises, or [OverflowError], otherwise. *)
Lemma lifetime_usable (payload : TokenPayload.t) (seconds : Z) :
  pynum.int_ match TokenPayload.expires_in payload with
             | Some v => v
             | None => JInt 7890000
             end = Ok seconds ->
  Z.abs seconds < pynum.float_overflow ->
  auth.lifetime payload = Ok seconds.
Proof.
  intros Hi Hf. unfold auth.lifetime. rewrite Hi. unfold pynum.float_.
  apply Z.ltb_lt in Hf. now rewrite Hf.
Qed.

Lemma lifetime_unusable (payload : TokenPayload.t) (e : exn) :
  auth.lifetime payload = Raise e <->
  pynum.int_ match TokenPayload.expires_in payload with
             | Some v => v
             | None => JInt 7890000
             end = Raise e
  \/ exists n : Z,
       pynum.int_ match TokenPayload.expires_in payload with
                  | Some v => v
                  | None => JInt 7890000
                  end = Ok n
       /\ pynum.float_overflow <= Z.abs n /\ e = OverflowError.
Proof.
  unfold auth.lifetime.
  destruct (pynum.int_ _) as [n|e0].
  - unfold pynum.float_. destruct (Z.abs n <? pynum.float_overflow) eqn:E.
    + apply Z.ltb_lt in E. split; [discriminate|].
      intros [H|(n' & H & Hn & _)]; [discriminate|].
      injection H as <-. lia.
    + apply Z.ltb_ge in E. split.
      * intros H. injection H as <-. right. now exists n.
      * intros [H|(n' & _ & _ & ->)]; [discriminate|reflexivity].
  - split.
    + intros H. now left.
    + intros [H|(n & H & _)]; [exact H|discriminate].
Qed.

(** The run of [refresh] up to the point where the bearer of a granted
    answer has been stored, and what follows it. *)
Lemma refresh_granted (w : World) (resp : response TokenPayload.body)
    (payload : TokenPayload.t) (a : string) :
  client_id settings <> "" ->
  client_secret settings <> "" ->
  let held := py.or_ (_refresh_token (store w)) (refresh_token settings) in
  held <> "" ->
  let post := TokenPost (oauth_token_url settings) (auth.refresh_form settings held)
                auth.form_headers in
  token_endpoint env (trace w ++ [RefreshCalled]) (oauth_token_url settings)
    (auth.refresh_form settings held) auth.form_headers = Resp resp ->
  is_success resp = true ->
  json_ resp = Some (TokenPayload.Object payload) ->
  TokenPayload.access_token payload = Some a ->
  let w1 := {| store := {| _access_token := a;
                           _refresh_token := _refresh_token (store w);
                           _expires_at := _expires_at (store w) |};
               trace := trace w ++ [RefreshCalled; post] |} in
  auth.refresh env settings w
  = match auth.lifetime payload with
    | Raise e => (Raise e, w1)
    | Ok seconds =>
        let expiry := Fin (time_time env (trace w1) + inject_Z seconds) in
        match TokenPayload.refresh_token payload with
        | Some (String c r) =>
            let w2 := {| store := {| _access_token := a;
                                     _refresh_token := String c r;
                                     _expires_at := expiry |};
                         trace := trace w1 |} in
            (_ <- keychain.store_refresh_token env (String c r) ;; ret tt) w2
        | _ =>
            (Ok tt, {| store := {| _access_token := a;
                                   _refresh_token := _refresh_token (store w);
                                   _expires_at := expiry |};
                       trace := trace w1 |})
        end
    end.
Proof.
  intros Hi Hs held Hh post Hr Hok Hj Ha w1.
  apply truthy_nonempty in Hi, Hs, Hh.
  unfold auth.refresh. run_m. rewrite Hi, Hs. run_m.
  fold held. rewrite Hh. run_m.
  fold (auth.refresh_form settings held). rewrite Hr. run_m.
  rewrite Hok. run_m. rewrite Hj. run_m. rewrite Ha. run_m.
  rewrite <- app_assoc. cbn [app]. fold post. fold w1.
  destruct (auth.lifetime payload) as [seconds|e]; [|reflexivity].
  destruct (TokenPayload.refresh_token payload) as [[|c r]|]; reflexivity.
Qed.

(** What [store_refresh_token] does to the world: the entry mark, the
    call of the keyring when the package is there, and nothing to the
    token store. *)
Lemma store_refresh_token_run (token : string) (w : World) :
  exists (ok : bool) (evs : list event),
    keychain.store_refresh_token env token w
    = (Ok ok, {| store := store w;
                 trace := trace w ++ StoreRefreshToken token :: evs |})
    /\ obs.persistence_writes evs = []
    /\ obs.network_calls evs = []
    /\ (evs = []
        \/ evs = [KeyringSetPassword keychain._SERVICE_NAME
                    keychain._REFRESH_TOKEN_KEY token]).
Proof.
  unfold keychain.store_refresh_token. run_m.
  destruct (keyring_installed env); cbn [negb].
  - run_m. rewrite <- app_assoc. cbn [app].
    destruct (keyring_set_password env _ _ _ _);
      (eexists; eexists; split; [reflexivity|]; repeat split; now right).
  - exists false, []. repeat split. now left.
Qed.

(** C4 (amended).  When the credentials and a refresh string are there,
    the token endpoint answers 2xx with an object that has
    [access_token], and [int] turns [expires_in] (or 7890000, when the
    object has no such key) into a number of seconds that fits a [float],
    [refresh] returns normally; the bearer is the answer's
    [access_token]; the expiry is the clock plus that number of seconds;
    when the answer has a non-empty [refresh_token] the held refresh
    string becomes that value and [store_refresh_token] is called once,
    with that value; otherwise the held refresh string stays and nothing
    is written.  The keychain's answer is arbitrary, so a failed write
    does not fail the renewal. *)
Theorem refresh_success (w : World) (resp : response TokenPayload.body)
    (payload : TokenPayload.t) (a : string) (seconds : Z) :
  client_id settings <> "" ->
  client_secret settings <> "" ->
  let held := py.or_ (_refresh_token (store w)) (refresh_token settings) in
  held <> "" ->
  let post := TokenPost (oauth_token_url settings) (auth.refresh_form settings held)
                auth.form_headers in
  token_endpoint env (trace w ++ [RefreshCalled]) (oauth_token_url settings)
    (auth.refresh_form settings held) auth.form_headers = Resp resp ->
  is_success resp = true ->
  json_ resp = Some (TokenPayload.Object payload) ->
  TokenPayload.access_token payload = Some a ->
  pynum.int_ match TokenPayload.expires_in payload with
             | Some v => v
             | None => JInt 7890000
             end = Ok seconds ->
  Z.abs seconds < 2 ^ 1024 - 2 ^ 970 ->
  exists w' : World,
    auth.refresh env settings w = (Ok tt, w')
    /\ _access_token (store w') = a
    /\ _expires_at (store w')
       = Fin (time_time env ((trace w ++ [RefreshCalled]) ++ [post])
              + inject_Z seconds)
    /\ match TokenPayload.refresh_token payload with
       | Some (String c r) =>
           _refresh_token (store w') = String c r
           /\ obs.persistence_writes (trace w')
              = (obs.persistence_writes (trace w) ++ [String c r])%list
       | _ =>
           _refresh_token (store w') = _refresh_token (store w)
           /\ obs.persistence_writes (trace w') = obs.persistence_writes (trace w)
       end
    /\ obs.network_calls (trace w') = (obs.network_calls (trace w) ++ [post])%list.
Proof.
  intros Hi Hs held Hh post Hr Hok Hj Ha Hint Hfit.
  rewrite (refresh_granted w resp payload a Hi Hs Hh Hr Hok Hj Ha).
  rewrite (lifetime_usable payload seconds Hint Hfit).
  fold held. fold post. cbn zeta. cbn [trace].
  rewrite <- app_assoc. cbn [app].
  destruct (TokenPayload.refresh_token payload) as [[|c r]|].
  - eexists. split; [reflexivity|]. cbn [store trace _access_token
      _refresh_token _expires_at]. repeat split; trace_obs.
  - unfold bind.
    match goal with
    | |- context [keychain.store_refresh_token env ?t ?w0] =>
        destruct (store_refresh_token_run t w0) as (ok & evs & Hk & Hp & Hn & _)
    end.
    rewrite Hk. unfold ret.
    eexists. split; [reflexivity|]. cbn [store trace _access_token
      _refresh_token _expires_at].
    repeat split.
    + rewrite !persistence_writes_app. cbn [obs.persistence_writes].
      rewrite Hp. cbn [app]. now rewrite app_nil_r.
    + rewrite !network_calls_app.
      change (StoreRefreshToken (String c r) :: evs)
        with ([StoreRefreshToken (String c r)] ++ evs)%list.
      rewrite !network_calls_app, Hn. cbn. now rewrite app_nil_r.
  - eexists. split; [reflexivity|]. cbn [store trace _access_token
      _refresh_token _expires_at]. repeat split; trace_obs.
Qed.

End RefreshFacts.

(** ** The request wrapper *)

Section RequestFacts.
Variable env : Env.
Variable settings : Settings.

(** Whatever [refresh] does, it is entered once and sends nothing to the
    API. *)
Lemma refresh_trace (w : World) :
  exists evs : list event,
    trace (snd (auth.refresh env settings w)) = (trace w ++ evs)%list
    /\ obs.refresh_calls evs = 1%nat
    /\ obs.api_requests evs = [].
Proof.
  unfold auth.refresh. run_m.
  repeat case_oracle.
  all: rewrite <- ?app_assoc; eexists; split; [reflexivity|]; split; reflexivity.
Qed.

(** What [conclude] makes of a response depends on the response alone,
    and it leaves the world as it is. *)
Lemma conclude_pure (r : response json) (w w' : World) :
  snd (client.conclude r w) = w
  /\ fst (client.conclude r w) = fst (client.conclude r w').
Proof.
  unfold client.conclude. run_m.
  destruct (is_success r); run_m.
  - destruct (json_ r); run_m; split; reflexivity.
  - split; reflexivity.
Qed.

Lemma conclude_outcome (r : response json) (w : World) :
  client.conclude r w = (client.outcome_of r, w).
Proof.
  destruct (conclude_pure r w {| store := TokenStore.new; trace := [] |}) as [H1 H2].
  unfold client.outcome_of. rewrite <- H2.
  destruct (client.conclude r w) as [o w']. cbn [fst snd] in *. now subst.
Qed.

(** C1 (amended).  Take a call of [_request] on an accepted path in which
    the first send comes back with response [r1].

    If [r1] has status 401, [refresh] is entered once, and that run sends
    nothing to the API.  If it raises, [_request] raises the same error
    and nothing is resent.  If it returns, the same method, path and
    keyword arguments are sent once more, with the [Authorization] header
    computed from the store as the renewal left it; that send is the last
    event of the call, and the call ends with what [conclude] makes of
    the second response (or with the error of the second call of the
    HTTP client, when that brings no response), whatever its status.

    If [r1] has any other status, nothing happens after the first send:
    the call ends with what [conclude] makes of [r1]. *)
Theorem request_401_single_retry (method path : string)
    (kwargs : list (string * json)) (w w1 : World) (r1 : response json) :
  negb (client._SAFE_PATH_RE_match path) || py.contains ".." path = false ->
  client.first_send env settings method path kwargs w = (Ok r1, w1) ->
  (status_code r1 = 401 ->
   exists (o : result unit) (w2 : World) (evs : list event),
     auth.refresh env settings w1 = (o, w2)
     /\ trace w2 = (trace w1 ++ evs)%list
     /\ obs.refresh_calls evs = 1%nat
     /\ obs.api_requests evs = []
     /\ match o with
        | Raise e =>
            client._request env settings method path kwargs w = (Raise e, w2)
        | Ok _ =>
            let headers := [("Authorization", TokenStore.bearer (store w2))] in
            let resend := ApiRequest method path headers kwargs in
            let w3 := {| store := store w2; trace := trace w2 ++ [resend] |} in
            client._request env settings method path kwargs w
            = (match api_endpoint env (trace w2) method path headers kwargs with
               | Resp r2 => client.outcome_of r2
               | NetFail => Raise TransportError
               | Refused => Raise InvalidURL
               end, w3)
        end)
  /\ (status_code r1 <> 401 ->
      client._request env settings method path kwargs w
      = (client.outcome_of r1, w1)).
Proof.
  intros Hsafe Hfs.
  unfold client._request. rewrite Hsafe.
  unfold client.first_send in Hfs. unfold bind in *.
  destruct (client._ensure_token env settings w) as [[[]|e0] w0]; [|discriminate].
  destruct (client._auth_header w0) as [[h|e0] w0']; [|discriminate].
  destruct (client.client_request env method path h kwargs w0') as [[r|e0] w1'];
    [|discriminate].
  injection Hfs as -> ->.
  split.
  - intros H401. rewrite H401. cbn [Z.eqb Pos.eqb].
    destruct (refresh_trace w1) as (evs & Ht & Hr & Ha).
    destruct (auth.refresh env settings w1) as [o w2] eqn:Eref. cbn [snd] in Ht.
    exists o, w2, evs. repeat (split; [assumption || reflexivity|]).
    destruct o as [[]|e]; [|reflexivity].
    cbv beta iota delta [client._auth_header client.client_request bind ret
                         get_store get_trace emit raise].
    cbn [store trace].
    destruct (api_endpoint env (trace w2) method path _ kwargs) as [r2| |];
      [|reflexivity|reflexivity].
    pose proof (conclude_outcome r2) as Hc. unfold client.conclude, bind in Hc.
    apply Hc.
  - intros Hne. apply Z.eqb_neq in Hne. rewrite Hne.
    change (ret r1 w1) with (Ok r1, w1).
    fold (client.conclude r1). unfold client.conclude, bind.
    pose proof (conclude_outcome r1 w1) as Hc. unfold client.conclude, bind in Hc.
    exact Hc.
Qed.

End RequestFacts.

(** ** The authorization endpoint *)

Section AuthEndpointFacts.

Lemma replace_cons_miss (old new : string) (c : ascii) (s : string) :
  py.startswith old (String c s) = false ->
  py.replace old new (String c s) = String c (py.replace old new s).
Proof. intros H. unfold py.replace. cbn [py.replace_from]. now rewrite H. Qed.

Lemma replace_token_hit (s : string) :
  py.replace "/token" "/auth" ("/token" ++ s) = "/auth" ++ py.replace "/token" "/auth" s.
Proof.
  unfold py.replace. cbn. destruct s; reflexivity.
Qed.

(** An occurrence of ["/token"] cannot begin inside [a] and run into a
    following ["/token"]: the only ["/"] of the pattern is its first
    character. *)
Lemma startswith_token_app (a x : string) :
  a <> "" ->
  py.startswith "/token" a = false ->
  py.startswith "/token" (a ++ "/token" ++ x) = false.
Proof.
  intros Hne H.
  destruct a as [|c1 [|c2 [|c3 [|c4 [|c5 [|c6 a]]]]]]; [congruence|..];
    cbn in H |- *;
    repeat match goal with
           | |- context [Ascii.eqb ?p ?c] =>
               is_var c; destruct (Ascii.eqb p c); cbn in H |- *
           end;
    congruence.
Qed.

Lemma contains_cons (p : string) (c : ascii) (s : string) :
  py.contains p (String c s) = false ->
  py.startswith p (String c s) = false /\ py.contains p s = false.
Proof. cbn [py.contains]. apply orb_false_iff. Qed.

Lemma replace_without_token (s : string) :
  py.contains "/token" s = false ->
  py.replace "/token" "/auth" s = s.
Proof.
  induction s as [|c s IH]; [reflexivity|].
  intros H. apply contains_cons in H as [H1 H2].
  rewrite replace_cons_miss by exact H1. now rewrite IH.
Qed.

Lemma replace_first_token (a r : string) :
  py.contains "/token" a = false ->
  py.replace "/token" "/auth" (a ++ "/token" ++ r)
  = a ++ "/auth" ++ py.replace "/token" "/auth" r.
Proof.
  induction a as [|c a IH]; intros H.
  - apply replace_token_hit.
  - apply contains_cons in H as [H1 H2].
    change (String c a ++ "/token" ++ r) with (String c (a ++ "/token" ++ r)).
    rewrite replace_cons_miss.
    + rewrite IH by exact H2. reflexivity.
    + apply (startswith_token_app (String c a) r); [discriminate|exact H1].
Qed.

Variable urlencode : list (string * string) -> string.

(** What [str.replace] makes of the token URL.  The URL that
    [make_auth_url] returns is the authorization endpoint followed by
    [?] and the encoded parameters, and the endpoint is the token URL in
    which every occurrence of [/token] is replaced by [/auth]: a URL
    without [/token] is kept; the first occurrence is replaced and the
    rest of the URL is treated in the same way.  So, when [/token] occurs
    in the URL only as its ending, the endpoint is the URL with that
    ending replaced by [/auth] and every other character kept. *)
Lemma auth_endpoint_by_occurrence (settings : Settings)
    (pkce : string * string) (state : string) :
  (exists params : string,
     fst (fst (auth.make_auth_url urlencode settings pkce state))
     = auth.auth_endpoint settings ++ "?" ++ params)
  /\ (forall base : string,
        oauth_token_url settings = base ++ "/token" ->
        py.contains "/token" base = false ->
        auth.auth_endpoint settings = base ++ "/auth")
  /\ (forall a r : string,
        oauth_token_url settings = a ++ "/token" ++ r ->
        py.contains "/token" a = false ->
        auth.auth_endpoint settings
        = a ++ "/auth" ++ py.replace "/token" "/auth" r)
  /\ (py.contains "/token" (oauth_token_url settings) = false ->
      auth.auth_endpoint settings = oauth_token_url settings).
Proof.
  unfold auth.auth_endpoint. repeat split.
  - unfold auth.make_auth_url. destruct pkce as [v ch]. cbn [fst].
    eexists. reflexivity.
  - intros base -> Hb.
    change (base ++ "/token") with (base ++ "/token" ++ "").
    rewrite replace_first_token by exact Hb. reflexivity.
  - intros a r -> Ha. now apply replace_first_token.
  - apply replace_without_token.
Qed.

End AuthEndpointFacts.

(** ** The path check *)

Section PathFacts.
Variable env : Env.
Variable settings : Settings.

(** A rejected path raises [ValueError] and leaves the world untouched:
    no renewal, no network call. *)
Lemma request_rejects (method path : string) (kwargs : list (string * json))
    (w : World) :
  negb (client._SAFE_PATH_RE_match path) || py.contains ".." path = true ->
  client._request env settings method path kwargs w = (Raise (ValueError path), w).
Proof. intros H. unfold client._request. rewrite H. reflexivity. Qed.

Lemma nve_ret {A} (a : A) : obs.no_value_error (ret a).
Proof. intros w p. discriminate. Qed.

Lemma nve_bind {A B} (c : M A) (k : A -> M B) :
  obs.no_value_error c -> (forall a, obs.no_value_error (k a)) ->
  obs.no_value_error (bind c k).
Proof.
  intros Hc Hk w p. unfold bind. specialize (Hc w p).
  destruct (c w) as [[a|e] w']; cbn [fst] in *.
  - apply Hk.
  - intros E. apply Hc. injection E as ->. reflexivity.
Qed.

Lemma nve_emit (e : event) : obs.no_value_error (emit e).
Proof. intros w p. discriminate. Qed.

Lemma nve_if {A} (b : bool) (c d : M A) :
  obs.no_value_error c -> obs.no_value_error d -> obs.no_value_error (if b then c else d).
Proof. now destruct b. Qed.

Create HintDb nve discriminated.

Ltac nve :=
  repeat first
    [ solve [auto with nve nocore]
    | apply nve_bind; [|intros ?]
    | apply nve_if
    | apply nve_ret
    | apply nve_emit
    | (intros ? ?; discriminate) ].

Lemma nve_int (v : json) (p : string) : pynum.int_ v <> Raise (ValueError p).
Proof.
  destruct v; cbn; try discriminate.
  destruct (pynum.int_of_str s); discriminate.
Qed.

Lemma nve_lifetime (payload : TokenPayload.t) :
  obs.no_value_error (lift (auth.lifetime payload)).
Proof.
  intros w p. unfold lift, auth.lifetime. cbn [fst].
  pose proof (nve_int match TokenPayload.expires_in payload with
                      | Some v => v
                      | None => JInt 7890000
                      end p) as H.
  destruct (pynum.int_ _) as [n|e]; [|exact H].
  unfold pynum.float_. destruct (Z.abs n <? pynum.float_overflow); discriminate.
Qed.

#[local] Hint Resolve nve_lifetime : nve.

Lemma nve_refresh : obs.no_value_error (auth.refresh env settings).
Proof.
  unfold auth.refresh, auth.client_post, auth.raise_for_status,
    auth.response_json, now, get_store, get_trace, put_store.
  nve.
  - destruct (token_endpoint _ _ _ _ _); nve.
  - destruct (json_ _); nve.
  - match goal with b : TokenPayload.body |- _ => destruct b end; nve.
  - destruct (TokenPayload.access_token _); nve.
  - destruct (TokenPayload.refresh_token _); nve.
    destruct (keyring_set_password _ _ _ _ _); nve.
Qed.

#[local] Hint Resolve nve_refresh : nve.

Lemma nve_client_request (method path : string) (h : list (string * string))
    (kwargs : list (string * json)) :
  obs.no_value_error (client.client_request env method path h kwargs).
Proof.
  unfold client.client_request, get_trace. nve.
  destruct (api_endpoint _ _ _ _ _ _); nve.
Qed.

#[local] Hint Resolve nve_client_request : nve.

Lemma nve_raise_for_api_errors (r : response json) :
  obs.no_value_error (client._raise_for_api_errors r).
Proof.
  unfold client._raise_for_api_errors. nve.
  intros w p. unfold raise, client.TOCOnlineError_new. cbn [fst].
  repeat match goal with
         | |- context [match ?x with _ => _ end] => destruct x
         end; discriminate.
Qed.

Lemma nve_response_json {B} (r : response B) :
  obs.no_value_error (auth.response_json r).
Proof. unfold auth.response_json. destruct (json_ r); nve. Qed.

#[local] Hint Resolve nve_raise_for_api_errors nve_response_json : nve.

(** An accepted path never ends in [ValueError]. *)
Lemma request_accepts (method path : string) (kwargs : list (string * json)) :
  negb (client._SAFE_PATH_RE_match path) || py.contains ".." path = false ->
  obs.no_value_error (client._request env settings method path kwargs).
Proof.
  intros H. unfold client._request. rewrite H.
  unfold client._ensure_token, client._auth_header, now, get_store, get_trace.
  nve.
Qed.

(** What the pattern accepts after [/api]: characters of the class, and
    then nothing or one line feed. *)
Lemma class_star_eol_spec (s : string) :
  client.class_star_eol s = true <->
  client.all_in_class s = true
  \/ exists body : string,
       s = body ++ auth.nl /\ client.all_in_class body = true.
Proof.
  induction s as [|c s IH]; cbn [client.class_star_eol client.all_in_class].
  - split; auto.
  - destruct (client.in_class c) eqn:Ec; cbn [andb].
    + rewrite IH. split.
      * intros [H|(body & -> & Hb)]; [now left|].
        right. exists (String c body). cbn [client.all_in_class].
        now rewrite Ec.
      * intros [H|(body & Hs & Hb)]; [now left|].
        destruct body as [|c' body]; cbn in Hs.
        -- injection Hs as -> ->. now left.
        -- injection Hs as -> ->. cbn [client.all_in_class] in Hb.
           rewrite Ec in Hb. right. now exists body.
    + split.
      * intros H. apply andb_true_iff in H as [H1 H2].
        apply Ascii.eqb_eq in H1. subst c. destruct s; [|discriminate].
        right. now exists "".
      * intros [H|(body & Hs & Hb)]; [discriminate|].
        destruct body as [|c' body]; cbn in Hs.
        -- now injection Hs as -> ->.
        -- injection Hs as -> ->. cbn [client.all_in_class] in Hb.
           now rewrite Ec in Hb.
Qed.

Lemma startswith_split (p s : string) :
  py.startswith p s = true -> s = p ++ client.drop (String.length p) s.
Proof.
  revert s. induction p as [|a p IH]; intros s H; [reflexivity|].
  destruct s as [|b s]; [discriminate|].
  cbn in H. apply andb_true_iff in H as [H1 H2].
  apply Ascii.eqb_eq in H1. subst b. cbn. f_equal. now apply IH.
Qed.

Lemma all_in_class_app (a b : string) :
  client.all_in_class (a ++ b) = client.all_in_class a && client.all_in_class b.
Proof.
  induction a as [|c a IH]; [reflexivity|].
  cbn [append client.all_in_class]. now rewrite IH, andb_assoc.
Qed.

(** On paths that do not end in a line feed the check is the one C7
    describes: a path that misses the prefix, holds a character outside
    the class or holds [..] is rejected before anything else happens. *)
Lemma request_rejects_nonconforming (method path : string)
    (kwargs : list (string * json)) (w : World) :
  (forall body : string, path <> body ++ auth.nl) ->
  py.startswith "/api" path = false
  \/ client.all_in_class path = false
  \/ py.contains ".." path = true ->
  client._request env settings method path kwargs w = (Raise (ValueError path), w).
Proof.
  intros Hnl H. apply request_rejects.
  destruct (py.contains ".." path); [apply orb_true_r|].
  rewrite orb_false_r. apply negb_true_iff.
  unfold client._SAFE_PATH_RE_match.
  destruct (py.startswith "/api" path) eqn:Ep; [|reflexivity].
  cbn [andb].
  destruct (client.class_star_eol (client.drop 4 path)) eqn:Ec; [|reflexivity].
  exfalso.
  pose proof (startswith_split "/api" path Ep) as Hsplit. cbn [String.length] in Hsplit.
  apply class_star_eol_spec in Ec as [Hall|(body & Hb & _)].
  - destruct H as [H|[H|H]]; try discriminate.
    rewrite Hsplit, all_in_class_app, Hall in H. discriminate.
  - apply (Hnl ("/api" ++ body)). rewrite Hsplit at 1. rewrite Hb.
    reflexivity.
Qed.

(** A path with the prefix, made of characters of the class and free of
    [..] is never rejected. *)
Lemma request_accepts_conforming (method path : string)
    (kwargs : list (string * json)) :
  py.startswith "/api" path = true ->
  client.all_in_class path = true ->
  py.contains ".." path = false ->
  obs.no_value_error (client._request env settings method path kwargs).
Proof.
  intros Hp Hall Hdots. apply request_accepts.
  rewrite Hdots, orb_false_r. apply negb_false_iff.
  unfold client._SAFE_PATH_RE_match. rewrite Hp. cbn [andb].
  apply class_star_eol_spec. left.
  pose proof (startswith_split "/api" path Hp) as Hsplit. cbn [String.length] in Hsplit.
  rewrite Hsplit, all_in_class_app in Hall.
  now apply andb_true_iff in Hall as [_ Hall].
Qed.

End PathFacts.

(** C7 at the path ["/api/customers/123\n"]: its last character is a line
    feed, which is outside the allowed characters, yet the pattern
    matches and the call never raises the [ValueError] of the check,
    whatever the environment.  With a store that holds no bearer the
    call renews the token, over the network, and then hands the path to
    the HTTP client; here the client refuses it, as httpx does with a URL
    that holds a control character, and the call ends in [InvalidURL]. *)
Theorem request_accepts_trailing_line_feed :
  let path := "/api/customers/123" ++ auth.nl in
  let settings := example.settings_with false 50 in
  client.all_in_class path = false
  /\ client._SAFE_PATH_RE_match path = true
  /\ py.contains ".." path = false
  /\ (forall (env : Env) (settings : Settings) (method : string)
        (kwargs : list (string * json)) (w : World) (p : string),
        fst (client._request env settings method path kwargs w)
        <> Raise (ValueError p))
  /\ client._request example_more.env_refusing settings "GET" path []
       example_more.w_seeded
     = (Raise InvalidURL,
        {| store := {| TokenStore._access_token := "a1";
                       TokenStore._refresh_token := "r2";
                       TokenStore._expires_at := Fin (1000 + inject_Z 3600) |};
           trace :=
             [RefreshCalled;
              TokenPost (oauth_token_url settings)
                (auth.refresh_form settings "r1") auth.form_headers;
              StoreRefreshToken "r2";
              KeyringSetPassword "toconline-mcp" "refresh_token" "r2";
              ApiRequest "GET" path [("Authorization", "Bearer a1")] []] |}).
Proof.
  split; [reflexivity|]. split; [reflexivity|]. split; [reflexivity|]. split.
  - intros env settings method kwargs w p.
    apply (request_accepts env settings method _ kwargs). reflexivity.
  - vm_compute. reflexivity.
Qed.

(** ** The interactive login *)

Section LoginFacts.
Variable urlparse_query : string -> option string.
Variable parse_qs_first : string -> string -> option string.
Variable urlencode : list (string * string) -> string.
Variable env : Env.
Variable settings : Settings.

(** C8 (amended).  Let [u] be the pasted line without surrounding white
    space.  When [u] begins with [http://] or [https://], the login
    ends before [exchange_code_for_tokens] is entered or any call of the
    HTTP client is made, unless [urlparse] accepts [u] and the [state]
    parameter of its query is the generated state: with [SystemExit 1]
    when [urlparse] accepts [u] and the [state] parameter is missing or
    differs, and, with client credentials configured, with the
    [ValueError] of [urlparse] when it does not accept [u].  When [u]
    does not begin so, no state is compared: with client credentials
    configured and [u] not empty, [exchange_code_for_tokens] is entered
    once, with [u] as the code and the generated verifier. *)
Theorem login_state_gate (pkce : string * string) (state typed : string)
    (w : World) :
  let u := py.strip typed in
  let run := cli._auth_login urlparse_query parse_qs_first urlencode env settings
               pkce state (Some typed) w in
  (cli.is_url u = true ->
   (forall query : string,
      urlparse_query u = Some query ->
      parse_qs_first query "state" <> Some state) ->
   (fst run = Raise (SystemExit 1) \/ fst run = Raise (ValueError_urlparse u))
   /\ (forall query : string,
         urlparse_query u = Some query -> fst run = Raise (SystemExit 1))
   /\ (urlparse_query u = None ->
       client_id settings <> "" ->
       client_secret settings <> "" ->
       fst run = Raise (ValueError_urlparse u))
   /\ obs.exchanges (trace (snd run)) = obs.exchanges (trace w)
   /\ obs.network_calls (trace (snd run)) = obs.network_calls (trace w))
  /\ (cli.is_url u = false ->
      u <> "" ->
      client_id settings <> "" ->
      client_secret settings <> "" ->
      obs.exchanges (trace (snd run)) = (obs.exchanges (trace w) ++ [u])%list
      /\ exists evs : list event,
           trace (snd run)
           = (trace w
              ++ WebbrowserOpen
                   (fst (fst (auth.make_auth_url urlencode settings pkce state)))
              :: ExchangeCalled u (fst pkce) :: evs)%list).
Proof.
  intros u run. subst run. unfold cli._auth_login.
  destruct pkce as [verifier challenge]. cbn [auth.make_auth_url fst].
  fold u. split.
  - intros Hurl Hstate.
    destruct (negb (py.truthy (client_id settings))
              || negb (py.truthy (client_secret settings))) eqn:Ecred.
    + cbn. repeat split; auto.
      intros _ Hid Hsec. apply truthy_nonempty in Hid, Hsec.
      rewrite Hid, Hsec in Ecred. discriminate.
    + run_m. rewrite Hurl. unfold cli.query_first.
      destruct (urlparse_query u) as [query|] eqn:Eq.
      * specialize (Hstate query eq_refl).
        destruct (parse_qs_first query "state") as [returned|].
        -- destruct (String.eqb returned state) eqn:E.
           ++ apply String.eqb_eq in E. congruence.
           ++ run_m. repeat split; auto; try discriminate; trace_obs.
        -- run_m. repeat split; auto; try discriminate; trace_obs.
      * run_m. repeat split; auto; try discriminate; trace_obs.
  - intros Hraw Hne Hid Hsec.
    apply truthy_nonempty in Hne, Hid, Hsec.
    rewrite Hid, Hsec. cbn [negb orb].
    unfold cli._extract_code. fold u. rewrite Hne, Hraw. cbn [negb].
    run_m. rewrite Hne. cbn [negb].
    unfold auth.exchange_code_for_tokens. run_m.
    repeat case_oracle.
    all: split; [trace_obs|].
    all: rewrite <- ?app_assoc; cbn [app]; eexists; reflexivity.
Qed.

End LoginFacts.

(** ** Worked examples *)

Lemma write_tool_read_only_witness :
  exists msg : string,
    app.wrapper Z unit example.echo_tool (example.settings_with true 50) 7 (app.initial tt)
    = (Ok (JObj [("error", JStr msg)]), app.initial tt)
    /\ py.contains "read-only" msg = true
    /\ app._write_call_count
         (snd (app.wrapper Z unit example.echo_tool (example.settings_with true 50) 7 (app.initial tt)))
       = app._write_call_count (app.initial (Call:=Z) tt)
    /\ app.invoked
         (snd (app.wrapper Z unit example.echo_tool (example.settings_with true 50) 7 (app.initial tt)))
       = app.invoked (app.initial tt)
    /\ app.tools
         (snd (app.wrapper Z unit example.echo_tool (example.settings_with true 50) 7 (app.initial tt)))
       = app.tools (app.initial (Call:=Z) tt).
Proof.
  apply (write_tool_read_only Z unit example.echo_tool (example.settings_with true 50) 7
           (app.initial tt)).
  reflexivity.
Defined.

Lemma write_tool_rate_limit_witness :
  let rejected :=
    Ok (JObj [("error",
               JStr ("Write operation rate limit exceeded (max 2 per session). "
                     ++ "This safety limit prevents runaway automation. "
                     ++ "Adjust TOCONLINE_MAX_WRITE_CALLS_PER_SESSION to change "
                     ++ "the limit."))]) in
  app.session Z unit example.echo_tool (example.settings_with false 2) [10; 20; 30; 40] (app.initial tt)
  = ([Ok (JInt 10); Ok (JInt 20); rejected; rejected],
     {| app._write_call_count := 4; app.tools := tt; app.invoked := [10; 20] |})
  /\ app.session Z unit example.echo_tool (example.settings_with false 0) [10; 20; 30] (app.initial tt)
     = ([Ok (JInt 10); Ok (JInt 20); Ok (JInt 30)],
        {| app._write_call_count := 0; app.tools := tt; app.invoked := [10; 20; 30] |}).
Proof.
  intros rejected. split.
  - destruct (write_tool_rate_limit Z unit example.echo_tool (example.settings_with false 2)
                [10; 20; 30; 40] tt eq_refl) as [H _].
    destruct (H ltac:(reflexivity)) as (_ & Hs & _).
    exact Hs.
  - destruct (write_tool_rate_limit Z unit example.echo_tool (example.settings_with false 0)
                [10; 20; 30] tt eq_refl) as [_ H].
    exact (H eq_refl).
Defined.

Lemma refresh_configuration_error_witness :
  exists msg : string,
    auth.refresh (example.env_of example.retried example.retried)
      settings.default example.w_static
    = (Raise (RuntimeError msg),
       {| store := store example.w_static;
          trace := trace example.w_static ++ [RefreshCalled] |})
    /\ store (snd (auth.refresh (example.env_of example.retried example.retried)
                     settings.default example.w_static))
       = store example.w_static
    /\ obs.network_calls
         (trace (snd (auth.refresh (example.env_of example.retried example.retried)
                        settings.default example.w_static)))
       = obs.network_calls (trace example.w_static).
Proof.
  apply (refresh_configuration_error
           (example.env_of example.retried example.retried)
           settings.default example.w_static).
  left. reflexivity.
Defined.

Lemma refresh_success_witness :
  exists w' : World,
    auth.refresh (example.env_of example.retried example.retried)
      (example.settings_with false 50) example.w_valid = (Ok tt, w')
    /\ store w' = {| TokenStore._access_token := "a1";
                     TokenStore._refresh_token := "r2";
                     TokenStore._expires_at := Fin (1000 + inject_Z 3600) |}
    /\ obs.persistence_writes (trace w') = ["r2"].
Proof.
  destruct (refresh_success (example.env_of example.retried example.retried)
              (example.settings_with false 50) example.w_valid
              example.token_ok example.token_payload "a1" 3600)
    as (w' & Hrun & Ha & He & [Hr Hp] & _);
    try reflexivity; try discriminate.
  exists w'. split; [exact Hrun|]. split; [|exact Hp].
  destruct w' as [[a r e] tr]. cbn in Ha, He, Hr. now subst.
Defined.

Lemma request_401_single_retry_witness :
  let env := example.env_of example.unauthorized example.retried in
  let settings := example.settings_with false 50 in
  client._request env settings "GET" "/api/customers" [] example.w_valid
  = (Ok (JObj [("retried", JBool true)]),
     {| store := {| TokenStore._access_token := "a1";
                    TokenStore._refresh_token := "r2";
                    TokenStore._expires_at := Fin (1000 + inject_Z 3600) |};
        trace :=
          [ApiRequest "GET" "/api/customers" [("Authorization", "Bearer old")] [];
           RefreshCalled;
           TokenPost (oauth_token_url settings) (auth.refresh_form settings "r1")
             auth.form_headers;
           StoreRefreshToken "r2";
           KeyringSetPassword "toconline-mcp" "refresh_token" "r2";
           ApiRequest "GET" "/api/customers" [("Authorization", "Bearer a1")] []] |})
  /\ client._request (example.env_of example.retried example.retried) settings
       "GET" "/api/customers" [] example.w_valid
     = (Ok (JObj [("retried", JBool true)]),
        {| store := store example.w_valid;
           trace := [ApiRequest "GET" "/api/customers"
                       [("Authorization", "Bearer old")] []] |}).
Proof.
  intros env settings. split.
  - destruct (request_401_single_retry env settings "GET" "/api/customers" []
                example.w_valid
                {| store := store example.w_valid;
                   trace := [ApiRequest "GET" "/api/customers"
                               [("Authorization", "Bearer old")] []] |}
                example.unauthorized eq_refl eq_refl) as [H _].
    destruct (H eq_refl) as (o & w2 & evs & Href & _ & _ & _ & Hm).
    vm_compute in Href. injection Href as <- <-. exact Hm.
  - destruct (request_401_single_retry
                (example.env_of example.retried example.retried) settings
                "GET" "/api/customers" [] example.w_valid
                {| store := store example.w_valid;
                   trace := [ApiRequest "GET" "/api/customers"
                               [("Authorization", "Bearer old")] []] |}
                example.retried eq_refl eq_refl) as [_ H].
    apply H. discriminate.
Defined.

(** C1 as stated fails when the renewal itself fails: a static bearer,
    no client credentials, and a server that answers 401.  The first send
    comes back 401, [refresh] raises, and the call ends with that error
    after a single request: nothing is resent, and the outcome is not
    that of a second response. *)
Lemma request_401_renewal_fails_no_resend :
  let env := example.env_of example.unauthorized example.retried in
  let first :=
    ApiRequest "GET" "/api/customers" [("Authorization", "Bearer abc")] [] in
  client.first_send env settings.default "GET" "/api/customers" [] example.w_static
  = (Ok example.unauthorized,
     {| store := store example.w_static; trace := [first] |})
  /\ status_code example.unauthorized = 401
  /\ client._request env settings.default "GET" "/api/customers" [] example.w_static
     = (Raise (RuntimeError auth.no_client_credentials),
        {| store := store example.w_static; trace := [first; RefreshCalled] |})
  /\ obs.api_requests
       (trace (snd (client._request env settings.default "GET" "/api/customers" []
                      example.w_static)))
     = [first].
Proof. vm_compute. repeat split. Qed.

(** C9 at the token URL [https://token.example.com/oauth/token].  The
    URL ends in the path segment [/token], and with that segment alone
    replaced the authorization endpoint is
    [https://token.example.com/oauth/auth].  The [/token] that begins at
    the second slash of [https://token.example.com] is replaced as well:
    the endpoint, and with it the URL opened in the browser, is on the
    host [auth.example.com].  On every token URL in which [/token]
    occurs only as the ending, the endpoint is the URL with that ending
    replaced by [/auth] and every other character kept. *)
Theorem auth_endpoint_rewrites_host :
  let settings :=
    example.settings_with_token_url "https://token.example.com/oauth/token" in
  oauth_token_url settings = "https://token.example.com/oauth" ++ "/token"
  /\ auth.auth_endpoint settings = "https://auth.example.com/oauth/auth"
  /\ auth.auth_endpoint settings <> "https://token.example.com/oauth" ++ "/auth"
  /\ py.startswith "https://auth.example.com/oauth/auth?"
       (fst (fst (auth.make_auth_url example.urlencode_plain settings
                    ("verifier", "challenge") "state")))
     = true
  /\ (forall (settings : Settings) (base : string),
        oauth_token_url settings = base ++ "/token" ->
        py.contains "/token" base = false ->
        auth.auth_endpoint settings = base ++ "/auth")
  /\ auth.auth_endpoint settings.default = "https://app10.toconline.pt/oauth/auth".
Proof.
  split; [reflexivity|]. split; [reflexivity|]. split; [discriminate|].
  split; [reflexivity|]. split; [|reflexivity].
  intros settings base Hurl Hbase.
  destruct (auth_endpoint_by_occurrence example.urlencode_plain settings
              ("v", "c") "s") as (_ & H & _).
  now apply H.
Qed.

Lemma login_state_gate_witness :
  let env := example.env_of example.retried example.retried in
  let settings := example.settings_with false 50 in
  let pkce := ("verifier", "challenge") in
  let login :=
    cli._auth_login example.urlparse_query example.parse_qs_first
      example.urlencode_plain env settings pkce "correct" in
  (fst (login (Some "https://localhost/cb?code=ABC&state=WRONG") example.w_new)
   = Raise (SystemExit 1)
   /\ obs.exchanges
        (trace (snd (login (Some "https://localhost/cb?code=ABC&state=WRONG")
                       example.w_new)))
      = [])
  /\ (fst (login (Some "https://[") example.w_new)
      = Raise (ValueError_urlparse "https://[")
      /\ obs.exchanges (trace (snd (login (Some "https://[") example.w_new))) = [])
  /\ obs.exchanges (trace (snd (login (Some " MYCODE ") example.w_new)))
     = ["MYCODE"].
Proof.
  intros env settings pkce login. split; [|split].
  - destruct (login_state_gate example.urlparse_query example.parse_qs_first
                example.urlencode_plain env settings pkce "correct"
                "https://localhost/cb?code=ABC&state=WRONG" example.w_new)
      as [H _].
    destruct H as (_ & H1 & _ & H2 & _).
    + reflexivity.
    + intros query Hq. vm_compute in Hq. injection Hq as <-. discriminate.
    + split; [exact (H1 _ eq_refl)|exact H2].
  - destruct (login_state_gate example.urlparse_query example.parse_qs_first
                example.urlencode_plain env settings pkce "correct"
                "https://[" example.w_new)
      as [H _].
    destruct H as (_ & _ & H1 & H2 & _).
    + reflexivity.
    + intros query Hq. discriminate Hq.
    + split; [apply H1; [reflexivity|discriminate|discriminate]|exact H2].
  - destruct (login_state_gate example.urlparse_query example.parse_qs_first
                example.urlencode_plain env settings pkce "correct"
                " MYCODE " example.w_new)
      as [_ H].
    destruct H as [H _]; [reflexivity|discriminate|discriminate|discriminate|].
    exact H.
Defined.

(** C8 as stated fails on a pasted authorization code: the line is not a
    URL, no state is read from it or compared, and the exchange is
    entered. *)
Lemma login_raw_code_reaches_exchange :
  let run :=
    cli._auth_login example.urlparse_query example.parse_qs_first
      example.urlencode_plain
      (example.env_of example.retried example.retried)
      (example.settings_with false 50) ("verifier", "challenge") "expected"
      (Some "MYCODE") example.w_new in
  cli.is_url (py.strip "MYCODE") = false
  /\ cli.query_first example.urlparse_query example.parse_qs_first
       (py.strip "MYCODE") "state" = Ok None
  /\ obs.exchanges (trace (snd run)) = ["MYCODE"]
  /\ fst run = Ok tt.
Proof. vm_compute. repeat split. Qed.

(** C4 as stated fails on a 2xx answer that has [access_token] and an
    [expires_in] that [int] does not accept, here [null]: [refresh]
    raises [TypeError] when it computes the expiry.  The bearer has been
    replaced by then; the expiry is not set, the refresh string of the
    answer is not taken over, and nothing is handed to the keychain. *)
Lemma refresh_null_lifetime_raises :
  let env := example_more.env_with_token (Resp example_more.null_lifetime)
               example.retried example.retried in
  let settings := example.settings_with false 50 in
  is_success example_more.null_lifetime = true
  /\ json_ example_more.null_lifetime
     = Some (TokenPayload.Object
               {| TokenPayload.access_token := Some "a1";
                  TokenPayload.refresh_token := Some "r2";
                  TokenPayload.expires_in := Some JNull |})
  /\ auth.refresh env settings example.w_valid
     = (Raise TypeError,
        {| store := {| TokenStore._access_token := "a1";
                       TokenStore._refresh_token := "r1";
                       TokenStore._expires_at := Fin 5000 |};
           trace := [RefreshCalled;
                     TokenPost (oauth_token_url settings)
                       (auth.refresh_form settings "r1") auth.form_headers] |})
  /\ obs.persistence_writes
       (trace (snd (auth.refresh env settings example.w_valid))) = [].
Proof. vm_compute. repeat split. Qed.

(* ===================================================================== *)
(** * Part III: further properties of the code                             *)
(* ===================================================================== *)

(** ** Renewal, by the answer of the token endpoint *)

Section RefreshOutcomes.
Import TokenStore.
Variable env : Env.
Variable settings : Settings.

(** With credentials and a refresh string at hand, [refresh] posts once
    and what follows is decided by the answer. *)
Lemma refresh_cases (w : World) :
  client_id settings <> "" ->
  client_secret settings <> "" ->
  let held := py.or_ (_refresh_token (store w)) (refresh_token settings) in
  held <> "" ->
  let form := auth.refresh_form settings held in
  let post := TokenPost (oauth_token_url settings) form auth.form_headers in
  let w1 := {| store := store w; trace := (trace w ++ [RefreshCalled]) ++ [post] |} in
  match token_endpoint env (trace w ++ [RefreshCalled]) (oauth_token_url settings)
          form auth.form_headers with
  | NetFail => auth.refresh env settings w = (Raise TransportError, w1)
  | Refused => auth.refresh env settings w = (Raise InvalidURL, w1)
  | Resp r =>
      if is_success r
      then
        match json_ r with
        | None => auth.refresh env settings w = (Raise JSONDecodeError, w1)
        | Some (TokenPayload.NotObject _) =>
            auth.refresh env settings w = (Raise TypeError, w1)
        | Some (TokenPayload.Object p) =>
            match TokenPayload.access_token p with
            | None => auth.refresh env settings w = (Raise (KeyError "access_token"), w1)
            | Some a =>
                match auth.lifetime p with
                | Raise e =>
                    auth.refresh env settings w
                    = (Raise e,
                       {| store := {| _access_token := a;
                                      _refresh_token := _refresh_token (store w);
                                      _expires_at := _expires_at (store w) |};
                          trace := trace w1 |})
                | Ok seconds =>
                    let expiry :=
                      Fin (time_time env (trace w1) + inject_Z seconds) in
                    auth.refresh env settings w
                    = (Ok tt,
                       match TokenPayload.refresh_token p with
                       | Some (String c s) =>
                           {| store := {| _access_token := a;
                                          _refresh_token := String c s;
                                          _expires_at := expiry |};
                              trace :=
                                (trace w1 ++ StoreRefreshToken (String c s)
                                   :: (if keyring_installed env
                                       then [KeyringSetPassword keychain._SERVICE_NAME
                                               keychain._REFRESH_TOKEN_KEY (String c s)]
                                       else []))%list |}
                       | _ =>
                           {| store := {| _access_token := a;
                                          _refresh_token := _refresh_token (store w);
                                          _expires_at := expiry |};
                              trace := trace w1 |}
                       end)
                end
            end
        end
      else auth.refresh env settings w = (Raise (HTTPStatusError (status_code r)), w1)
  end.
Proof.
  intros Hi Hs held Hh form post w1.
  apply truthy_nonempty in Hi, Hs, Hh.
  unfold auth.refresh. run_m. rewrite Hi, Hs. run_m.
  fold held. rewrite Hh. run_m.
  subst w1 post form. unfold auth.refresh_form.
  destruct (token_endpoint env (trace w ++ [RefreshCalled]) (oauth_token_url settings)
              _ auth.form_headers) as [r| |]; run_m; [|reflexivity|reflexivity].
  destruct (is_success r); run_m; [|reflexivity].
  destruct (json_ r) as [[p|v]|]; run_m; [|reflexivity|reflexivity].
  destruct (TokenPayload.access_token p) as [a|]; run_m; [|reflexivity].
  destruct (auth.lifetime p) as [seconds|e]; run_m; [|reflexivity].
  destruct (TokenPayload.refresh_token p) as [[|c s]|]; cbn [py.truthy]; run_m;
    try reflexivity.
  destruct (keyring_installed env); run_m.
  - destruct (keyring_set_password env _ _ _ _); rewrite <- ?app_assoc; reflexivity.
  - reflexivity.
Qed.

(** What makes [lifetime] raise, in three instances: [null], a text that
    is no number, and a number too large for a [float]. *)
Lemma lifetime_raises (p : TokenPayload.t) :
  (TokenPayload.expires_in p = Some JNull -> auth.lifetime p = Raise TypeError)
  /\ (forall s : string,
        TokenPayload.expires_in p = Some (JStr s) ->
        pynum.int_of_str s = None ->
        auth.lifetime p = Raise (ValueError_int s))
  /\ (forall n : Z,
        TokenPayload.expires_in p = Some (JInt n) ->
        2 ^ 1024 - 2 ^ 970 <= Z.abs n ->
        auth.lifetime p = Raise OverflowError).
Proof.
  unfold auth.lifetime. repeat split.
  - intros ->. reflexivity.
  - intros s -> Hs. cbn [pynum.int_]. now rewrite Hs.
  - intros n -> Hn. cbn [pynum.int_]. unfold pynum.float_.
    destruct (Z.abs n <? pynum.float_overflow) eqn:E; [|reflexivity].
    apply Z.ltb_lt in E. unfold pynum.float_overflow in E. lia.
Qed.

(** X1.  A renewal that has credentials and a refresh string calls the
    token endpoint once and can fail in seven ways.  Six leave the token
    store as it was: no response ([TransportError]), a URL that the HTTP
    client refuses ([InvalidURL]), a status outside 2xx
    ([HTTPStatusError] with that status), a 2xx body that is not JSON
    ([JSONDecodeError]), a 2xx body that is not an object ([TypeError]),
    and a 2xx object without [access_token] ([KeyError]).  The seventh
    comes after the bearer has been replaced: when [access_token] is
    there and the lifetime cannot be computed from [expires_in], the
    call raises what [lifetime] raises, and the store holds the new
    bearer with the old expiry and the old refresh string.  However the
    call fails, the trace has grown by the entry mark and the one call of
    the token endpoint, nothing was handed to the keychain, and expiry
    and refresh string are the old ones. *)
Theorem refresh_failures (w : World) :
  client_id settings <> "" ->
  client_secret settings <> "" ->
  let held := py.or_ (_refresh_token (store w)) (refresh_token settings) in
  held <> "" ->
  let form := auth.refresh_form settings held in
  let post := TokenPost (oauth_token_url settings) form auth.form_headers in
  let answer := token_endpoint env (trace w ++ [RefreshCalled])
                  (oauth_token_url settings) form auth.form_headers in
  let failed (e : exn) (st : TokenStore.t) :=
    auth.refresh env settings w
    = (Raise e, {| store := st; trace := trace w ++ [RefreshCalled; post] |}) in
  (answer = NetFail -> failed TransportError (store w))
  /\ (answer = Refused -> failed InvalidURL (store w))
  /\ (forall r, answer = Resp r -> is_success r = false ->
        failed (HTTPStatusError (status_code r)) (store w))
  /\ (forall r, answer = Resp r -> is_success r = true -> json_ r = None ->
        failed JSONDecodeError (store w))
  /\ (forall r v, answer = Resp r -> is_success r = true ->
        json_ r = Some (TokenPayload.NotObject v) ->
        failed TypeError (store w))
  /\ (forall r p, answer = Resp r -> is_success r = true ->
        json_ r = Some (TokenPayload.Object p) ->
        TokenPayload.access_token p = None ->
        failed (KeyError "access_token") (store w))
  /\ (forall r p a e, answer = Resp r -> is_success r = true ->
        json_ r = Some (TokenPayload.Object p) ->
        TokenPayload.access_token p = Some a ->
        auth.lifetime p = Raise e ->
        failed e {| _access_token := a;
                    _refresh_token := _refresh_token (store w);
                    _expires_at := _expires_at (store w) |})
  /\ (forall e w', auth.refresh env settings w = (Raise e, w') ->
        trace w' = (trace w ++ [RefreshCalled; post])%list
        /\ obs.persistence_writes (trace w') = obs.persistence_writes (trace w)
        /\ _refresh_token (store w') = _refresh_token (store w)
        /\ _expires_at (store w') = _expires_at (store w)).
Proof.
  intros Hi Hs held Hh form post answer failed.
  pose proof (refresh_cases w Hi Hs Hh) as H. cbv zeta in H.
  fold held form post answer in H. subst failed. cbv beta.
  rewrite <- app_assoc in H. cbn [app] in H.
  repeat match goal with |- _ /\ _ => split end.
  - intros E. now rewrite E in H.
  - intros E. now rewrite E in H.
  - intros r E Hok. now rewrite E, Hok in H.
  - intros r E Hok Hj. now rewrite E, Hok, Hj in H.
  - intros r v E Hok Hj. now rewrite E, Hok, Hj in H.
  - intros r p E Hok Hj Ha. now rewrite E, Hok, Hj, Ha in H.
  - intros r p a e E Hok Hj Ha Hl. now rewrite E, Hok, Hj, Ha, Hl in H.
  - intros e w' Hrun.
    assert (Hw : exists st : TokenStore.t,
               w' = {| store := st; trace := trace w ++ [RefreshCalled; post] |}
               /\ _refresh_token st = _refresh_token (store w)
               /\ _expires_at st = _expires_at (store w)).
    { destruct answer as [r| |].
      - destruct (is_success r).
        + destruct (json_ r) as [[p|v]|].
          * destruct (TokenPayload.access_token p) as [a|].
            -- destruct (auth.lifetime p) as [seconds|e'].
               ++ rewrite H in Hrun. discriminate.
               ++ rewrite H in Hrun. injection Hrun as _ <-.
                  eexists. repeat split.
            -- rewrite H in Hrun. injection Hrun as _ <-. eexists. repeat split.
          * rewrite H in Hrun. injection Hrun as _ <-. eexists. repeat split.
          * rewrite H in Hrun. injection Hrun as _ <-. eexists. repeat split.
        + rewrite H in Hrun. injection Hrun as _ <-. eexists. repeat split.
      - rewrite H in Hrun. injection Hrun as _ <-. eexists. repeat split.
      - rewrite H in Hrun. injection Hrun as _ <-. eexists. repeat split. }
    destruct Hw as (st & -> & Hr & He). cbn [store trace].
    repeat split; try assumption. trace_obs.
Qed.

Lemma refresh_network_calls (w : World) :
  client_id settings <> "" ->
  client_secret settings <> "" ->
  let held := py.or_ (_refresh_token (store w)) (refresh_token settings) in
  held <> "" ->
  obs.network_calls (trace (snd (auth.refresh env settings w)))
  = (obs.network_calls (trace w)
     ++ [TokenPost (oauth_token_url settings)
           [("grant_type", "refresh_token");
            ("refresh_token", held);
            ("client_id", client_id settings);
            ("client_secret", client_secret settings);
            ("scope", "commercial")]
           [("Content-Type", "application/x-www-form-urlencoded");
            ("Accept", "application/json")]])%list.
Proof.
  intros Hi Hs held Hh.
  pose proof (refresh_cases w Hi Hs Hh) as H. cbv zeta in H. fold held in H.
  change (auth.refresh_form settings held) with
    [("grant_type", "refresh_token"); ("refresh_token", held);
     ("client_id", client_id settings); ("client_secret", client_secret settings);
     ("scope", "commercial")] in H.
  change auth.form_headers with
    [("Content-Type", "application/x-www-form-urlencoded");
     ("Accept", "application/json")] in H.
  repeat match type of H with
         | match ?x with _ => _ end => destruct x
         | if ?x then _ else _ => destruct x
         end;
    rewrite H; cbn [snd];
    try (destruct (TokenPayload.refresh_token _) as [[|? ?]|]);
    try destruct (keyring_installed env);
    cbn [trace]; trace_obs.
Qed.

(** X2.  A renewal with credentials at hand calls the HTTP client
    exactly once, whatever comes of the call: a POST to the token URL
    whose form carries the grant type, the client id and secret, and as
    refresh string the one the store holds, or the configured one when
    the store holds none. *)
Theorem refresh_posts_once (w : World) :
  client_id settings <> "" ->
  client_secret settings <> "" ->
  let held := py.or_ (_refresh_token (store w)) (refresh_token settings) in
  held <> "" ->
  obs.network_calls (trace (snd (auth.refresh env settings w)))
  = (obs.network_calls (trace w)
     ++ [TokenPost (oauth_token_url settings)
           [("grant_type", "refresh_token");
            ("refresh_token", held);
            ("client_id", client_id settings);
            ("client_secret", client_secret settings);
            ("scope", "commercial")]
           [("Content-Type", "application/x-www-form-urlencoded");
            ("Accept", "application/json")]])%list
  /\ (_refresh_token (store w) <> "" -> held = _refresh_token (store w))
  /\ (_refresh_token (store w) = "" -> held = refresh_token settings).
Proof.
  intros Hi Hs held Hh.
  split; [now apply refresh_network_calls|split].
  - intros Hne. subst held. unfold py.or_.
    apply truthy_nonempty in Hne. now rewrite Hne.
  - intros He. subst held. unfold py.or_. now rewrite He.
Qed.

(** The store that a successful renewal leaves. *)
Lemma refresh_success_store (w : World) (r : response TokenPayload.body)
    (p : TokenPayload.t) (a : string) (seconds : Z) :
  client_id settings <> "" ->
  client_secret settings <> "" ->
  let held := py.or_ (_refresh_token (store w)) (refresh_token settings) in
  held <> "" ->
  let form := auth.refresh_form settings held in
  let post := TokenPost (oauth_token_url settings) form auth.form_headers in
  token_endpoint env (trace w ++ [RefreshCalled]) (oauth_token_url settings)
    form auth.form_headers = Resp r ->
  is_success r = true ->
  json_ r = Some (TokenPayload.Object p) ->
  TokenPayload.access_token p = Some a ->
  auth.lifetime p = Ok seconds ->
  fst (auth.refresh env settings w) = Ok tt
  /\ store (snd (auth.refresh env settings w))
     = {| _access_token := a;
          _refresh_token :=
            match TokenPayload.refresh_token p with
            | Some (String c s) => String c s
            | _ => _refresh_token (store w)
            end;
          _expires_at :=
            Fin (time_time env (trace w ++ [RefreshCalled; post])
                 + inject_Z seconds) |}.
Proof.
  intros Hi Hs held Hh form post Hr Hok Hj Ha Hl.
  pose proof (refresh_cases w Hi Hs Hh) as H. cbv zeta in H.
  fold held form post in H. rewrite Hr, Hok, Hj, Ha, Hl in H.
  rewrite H. cbn [fst snd]. split; [reflexivity|].
  rewrite <- app_assoc. cbn [app trace].
  destruct (TokenPayload.refresh_token p) as [[|c s]|]; reflexivity.
Qed.

(** X3.  After a renewal that succeeds, with a lifetime of [seconds]
    computed from the answer, the store is valid at a time [t'] exactly
    when the new bearer is not empty and [t'] is more than 60 seconds
    before the new expiry, the clock reading of the renewal plus
    [seconds].  At that clock reading itself this holds exactly when
    [seconds] exceeds 60: a lifetime of 60 seconds or less leaves a store
    that is invalid from the start. *)
Theorem refresh_validity (w : World) (r : response TokenPayload.body)
    (p : TokenPayload.t) (a : string) (seconds : Z) :
  client_id settings <> "" ->
  client_secret settings <> "" ->
  let held := py.or_ (_refresh_token (store w)) (refresh_token settings) in
  held <> "" ->
  let form := auth.refresh_form settings held in
  let post := TokenPost (oauth_token_url settings) form auth.form_headers in
  token_endpoint env (trace w ++ [RefreshCalled]) (oauth_token_url settings)
    form auth.form_headers = Resp r ->
  is_success r = true ->
  json_ r = Some (TokenPayload.Object p) ->
  TokenPayload.access_token p = Some a ->
  auth.lifetime p = Ok seconds ->
  let t := time_time env (trace w ++ [RefreshCalled; post]) in
  let after := store (snd (auth.refresh env settings w)) in
  (forall t' : Q,
     is_valid after t' = true <-> a <> "" /\ (t' < t + inject_Z seconds - 60)%Q)
  /\ (is_valid after t = true <-> a <> "" /\ 60 < seconds).
Proof.
  intros Hi Hs held Hh form post Hr Hok Hj Ha Hl t after.
  destruct (refresh_success_store w r p a seconds Hi Hs Hh Hr Hok Hj Ha Hl)
    as [_ Hst].
  fold held form post t after in Hst.
  assert (Hall : forall t' : Q,
             is_valid after t' = true
             <-> a <> "" /\ (t' < t + inject_Z seconds - 60)%Q).
  { intros t'. rewrite is_valid_true_iff, Hst. reflexivity. }
  split; [exact Hall|].
  rewrite Hall. split; intros [Hne Hlt]; (split; [exact Hne|]).
  - assert (Hq : (inject_Z 60 < inject_Z seconds)%Q)
      by (change (inject_Z 60) with 60%Q; lra).
    rewrite <- Zlt_Qlt in Hq. exact Hq.
  - assert (Hq : (inject_Z 60 < inject_Z seconds)%Q) by (now rewrite <- Zlt_Qlt).
    change (inject_Z 60) with 60%Q in Hq. lra.
Qed.

(** X4.  The refresh chain continues: after a renewal that succeeds on
    an answer with a non-empty [refresh_token], the store holds that
    rotated value, and the next renewal, in whatever world it finds that
    store, posts it, whatever the settings hold. *)
Theorem refresh_rotation (w : World) (r : response TokenPayload.body)
    (p : TokenPayload.t) (a rotated : string) (seconds : Z) :
  client_id settings <> "" ->
  client_secret settings <> "" ->
  let held := py.or_ (_refresh_token (store w)) (refresh_token settings) in
  held <> "" ->
  token_endpoint env (trace w ++ [RefreshCalled]) (oauth_token_url settings)
    (auth.refresh_form settings held) auth.form_headers = Resp r ->
  is_success r = true ->
  json_ r = Some (TokenPayload.Object p) ->
  TokenPayload.access_token p = Some a ->
  auth.lifetime p = Ok seconds ->
  TokenPayload.refresh_token p = Some rotated ->
  rotated <> "" ->
  let w1 := snd (auth.refresh env settings w) in
  _refresh_token (store w1) = rotated
  /\ forall later : list event,
       let w2 := {| store := store w1; trace := later |} in
       obs.network_calls (trace (snd (auth.refresh env settings w2)))
       = (obs.network_calls later
          ++ [TokenPost (oauth_token_url settings)
                (auth.refresh_form settings rotated) auth.form_headers])%list.
Proof.
  intros Hi Hs held Hh Hr Hok Hj Ha Hl Hrot Hne w1.
  destruct (refresh_success_store w r p a seconds Hi Hs Hh Hr Hok Hj Ha Hl)
    as [_ Hst].
  fold w1 in Hst. rewrite Hrot in Hst.
  assert (Hheld : _refresh_token (store w1) = rotated).
  { rewrite Hst. destruct rotated; [congruence|reflexivity]. }
  split; [exact Hheld|].
  intros later w2.
  assert (Hor : py.or_ (_refresh_token (store w2)) (refresh_token settings) = rotated).
  { unfold w2. cbn [store]. rewrite Hheld. unfold py.or_.
    apply truthy_nonempty in Hne. now rewrite Hne. }
  pose proof (refresh_network_calls w2 Hi Hs) as H. cbv zeta in H.
  rewrite Hor in H. apply H. exact Hne.
Qed.

End RefreshOutcomes.

(** ** The request wrapper: bounds and outcomes *)

Section RequestBounds.
Import bounds.
Variable env : Env.
Variable settings : Settings.

Lemma token_posts_app (a b : list event) :
  token_posts (a ++ b) = (token_posts a ++ token_posts b)%list.
Proof. apply filter_app. Qed.

Lemma within_ret {A} (x : A) : within (ret x) 0 0 0.
Proof. intros w. exists []. cbn. rewrite app_nil_r. split; [reflexivity|lia]. Qed.

Lemma within_raise {A} (e : exn) : within (@raise A e) 0 0 0.
Proof. intros w. exists []. cbn. rewrite app_nil_r. split; [reflexivity|lia]. Qed.

Lemma within_weaken {A} (c : M A) (a r n a' r' n' : nat) :
  within c a r n -> (a <= a')%nat -> (r <= r')%nat -> (n <= n')%nat ->
  within c a' r' n'.
Proof.
  intros H Ha Hr Hn w. destruct (H w) as (evs & E & H1 & H2 & H3).
  exists evs. split; [exact E|lia].
Qed.

Lemma within_bind {A B} (c : M A) (k : A -> M B) (a r n a' r' n' : nat) :
  within c a r n -> (forall x, within (k x) a' r' n') ->
  within (bind c k) (a + a') (r + r') (n + n').
Proof.
  intros Hc Hk w. unfold bind.
  destruct (Hc w) as (e1 & E1 & H1 & H2 & H3).
  destruct (c w) as [[x|e] w1]; cbn [snd] in *.
  - destruct (Hk x w1) as (e2 & E2 & K1 & K2 & K3).
    exists (e1 ++ e2)%list. rewrite E2, E1, app_assoc.
    rewrite api_requests_app, refresh_calls_app, token_posts_app, !length_app.
    split; [reflexivity|cbn; lia].
  - exists e1. split; [exact E1|lia].
Qed.

Lemma within_if {A} (b : bool) (c d : M A) (a r n : nat) :
  within c a r n -> within d a r n -> within (if b then c else d) a r n.
Proof. now destruct b. Qed.

Lemma within_get_store : within get_store 0 0 0.
Proof. intros w. exists []. cbn. rewrite app_nil_r. split; [reflexivity|lia]. Qed.

Lemma within_put_store (s : TokenStore.t) : within (put_store s) 0 0 0.
Proof. intros w. exists []. cbn. rewrite app_nil_r. split; [reflexivity|lia]. Qed.

Lemma within_now : within (now env) 0 0 0.
Proof. intros w. exists []. cbn. rewrite app_nil_r. split; [reflexivity|lia]. Qed.

Lemma within_refresh : within (auth.refresh env settings) 0 1 1.
Proof.
  intros w. unfold auth.refresh. run_m.
  repeat case_oracle.
  all: rewrite <- ?app_assoc; eexists; split; [reflexivity|]; cbn; lia.
Qed.

Lemma within_client_request (method path : string) (h : list (string * string))
    (kwargs : list (string * json)) :
  within (client.client_request env method path h kwargs) 1 0 0.
Proof.
  intros w. unfold client.client_request. run_m.
  destruct (api_endpoint _ _ _ _ _ _); eexists; (split; [reflexivity|]);
    cbn; lia.
Qed.

Lemma within_ensure_token : within (client._ensure_token env settings) 0 1 1.
Proof.
  unfold client._ensure_token.
  apply (within_bind _ _ 0 0 0 0 1 1); [apply within_get_store|]. intros self.
  apply (within_bind _ _ 0 0 0 0 1 1); [apply within_now|]. intros t.
  apply within_if; [apply within_refresh|].
  apply (within_weaken _ 0 0 0); [apply within_ret|lia..].
Qed.

Lemma within_auth_header : within client._auth_header 0 0 0.
Proof.
  unfold client._auth_header.
  apply (within_bind _ _ 0 0 0 0 0 0); [apply within_get_store|].
  intros self. apply within_ret.
Qed.

Lemma within_conclude (r : response json) : within (client.conclude r) 0 0 0.
Proof.
  intros w. rewrite conclude_outcome. exists []. cbn. rewrite app_nil_r.
  split; [reflexivity|lia].
Qed.

Lemma within_request (method path : string) (kwargs : list (string * json)) :
  within (client._request env settings method path kwargs) 2 2 2.
Proof.
  unfold client._request.
  apply within_if.
  { apply (within_weaken _ 0 0 0); [apply within_raise|lia..]. }
  apply (within_bind _ _ 0 1 1 2 1 1); [apply within_ensure_token|]. intros _.
  apply (within_bind _ _ 0 0 0 2 1 1); [apply within_auth_header|]. intros h.
  apply (within_bind _ _ 1 0 0 1 1 1); [apply within_client_request|]. intros r.
  apply (within_bind _ _ 1 1 1 0 0 0).
  - apply within_if; [|apply (within_weaken _ 0 0 0); [apply within_ret|lia..]].
    apply (within_bind _ _ 0 1 1 1 0 0); [apply within_refresh|]. intros _.
    apply (within_bind _ _ 0 0 0 1 0 0); [apply within_auth_header|]. intros h'.
    apply within_client_request.
  - intros r'. apply (within_conclude r').
Qed.

(** X5.  One call of [_request], whatever the path, the store and the
    answers of the outside, only appends to the trace, and appends at
    most two requests to the API, at most two entries into [refresh] and
    at most two requests to the token endpoint. *)
Theorem request_bounded (method path : string) (kwargs : list (string * json))
    (w : World) :
  exists evs : list event,
    trace (snd (client._request env settings method path kwargs w))
    = (trace w ++ evs)%list
    /\ (length (obs.api_requests evs) <= 2)%nat
    /\ (obs.refresh_calls evs <= 2)%nat
    /\ (length (token_posts evs) <= 2)%nat.
Proof. apply within_request. Qed.

End RequestBounds.

Section RequestOutcomes.
Variable env : Env.
Variable settings : Settings.

Lemma client_request_inv (method path : string) (h : list (string * string))
    (kwargs : list (string * json)) (w w' : World) (r : response json) :
  client.client_request env method path h kwargs w = (Ok r, w') ->
  api_endpoint env (trace w) method path h kwargs = Resp r.
Proof.
  unfold client.client_request. run_m.
  destruct (api_endpoint env (trace w) method path h kwargs); cbn.
  - intros E. injection E as -> _. reflexivity.
  - discriminate.
  - discriminate.
Qed.

Lemma conclude_ok (r : response json) (w : World) (v : json) :
  fst (client.conclude r w) = Ok v -> is_success r = true /\ json_ r = Some v.
Proof.
  unfold client.conclude. run_m.
  destruct (is_success r); run_m; [|discriminate].
  destruct (json_ r); cbn; [|discriminate].
  intros E. injection E as ->. split; reflexivity.
Qed.

(** X6.  [_request] returns a value only for a response with a status
    in 200..299 that the API gave to this method and path, and the value
    is the parsed body of that response: no error status is ever turned
    into a result. *)
Theorem request_ok_is_success (method path : string)
    (kwargs : list (string * json)) (w : World) (v : json) :
  fst (client._request env settings method path kwargs w) = Ok v ->
  exists (tr : list event) (h : list (string * string)) (r : response json),
    api_endpoint env tr method path h kwargs = Resp r
    /\ 200 <= status_code r <= 299
    /\ json_ r = Some v.
Proof.
  unfold client._request.
  destruct (negb (client._SAFE_PATH_RE_match path) || py.contains ".." path);
    [discriminate|].
  unfold bind.
  destruct (client._ensure_token env settings w) as [[[]|e0] w0]; [|discriminate].
  destruct (client._auth_header w0) as [[h|e0] w0']; [|discriminate].
  destruct (client.client_request env method path h kwargs w0') as [[r|e0] w1] eqn:E1;
    [|discriminate].
  assert (Hfin : forall (tr : list event) (h' : list (string * string))
                   (r' : response json) (w' : World),
             api_endpoint env tr method path h' kwargs = Resp r' ->
             fst (client.conclude r' w') = Ok v ->
             exists tr h r,
               api_endpoint env tr method path h kwargs = Resp r
               /\ 200 <= status_code r <= 299 /\ json_ r = Some v).
  { intros tr h' r' w' Hep Hc. apply conclude_ok in Hc as [Hok Hj].
    exists tr, h', r'. split; [exact Hep|]. split; [|exact Hj].
    unfold is_success in Hok. apply andb_true_iff in Hok as [H1 H2].
    apply Z.leb_le in H1, H2. lia. }
  destruct (status_code r =? 401).
  - destruct (auth.refresh env settings w1) as [[[]|e0] w2]; [|discriminate].
    destruct (client._auth_header w2) as [[h2|e0] w2']; [|discriminate].
    destruct (client.client_request env method path h2 kwargs w2') as [[r2|e0] w3] eqn:E2;
      [|discriminate].
    apply client_request_inv in E2.
    intros H. apply (Hfin _ _ _ w3 E2). exact H.
  - apply client_request_inv in E1.
    intros H. apply (Hfin _ _ _ w1 E1). exact H.
Qed.

Lemma request_valid_run (method path : string)
    (kwargs : list (string * json)) (w : World) (r : response json) :
  negb (client._SAFE_PATH_RE_match path) || py.contains ".." path = false ->
  TokenStore.is_valid (store w) (time_time env (trace w)) = true ->
  let h := [("Authorization", "Bearer " ++ TokenStore._access_token (store w))] in
  api_endpoint env (trace w) method path h kwargs = Resp r ->
  status_code r <> 401 ->
  client._request env settings method path kwargs w
  = (client.outcome_of r,
     {| store := store w;
        trace := trace w ++ [ApiRequest method path h kwargs] |}).
Proof.
  intros Hsafe Hvalid h Hep Hne.
  unfold client._request. rewrite Hsafe.
  cbv beta iota delta [client._ensure_token client._auth_header
                       client.client_request bind ret get_store get_trace emit
                       raise now].
  cbn [store trace]. rewrite Hvalid. cbn [negb store trace].
  unfold TokenStore.bearer. fold h. rewrite Hep.
  apply Z.eqb_neq in Hne. rewrite Hne.
  pose proof (conclude_outcome r) as Hc. unfold client.conclude, bind in Hc.
  apply Hc.
Qed.

(** X7.  With a store that is valid by the clock and an answer other
    than 401, [_request] sends exactly one request, carrying the held
    bearer, does not enter [refresh], leaves the store as it was, and ends
    with what [conclude] makes of the answer. *)
Theorem request_with_valid_bearer (method path : string)
    (kwargs : list (string * json)) (w : World) (r : response json) :
  negb (client._SAFE_PATH_RE_match path) || py.contains ".." path = false ->
  TokenStore.is_valid (store w) (time_time env (trace w)) = true ->
  let h := [("Authorization", "Bearer " ++ TokenStore._access_token (store w))] in
  api_endpoint env (trace w) method path h kwargs = Resp r ->
  status_code r <> 401 ->
  client._request env settings method path kwargs w
  = (client.outcome_of r,
     {| store := store w;
        trace := trace w ++ [ApiRequest method path h kwargs] |})
  /\ obs.refresh_calls
       (trace (snd (client._request env settings method path kwargs w)))
     = obs.refresh_calls (trace w)
  /\ obs.network_calls
       (trace (snd (client._request env settings method path kwargs w)))
     = (obs.network_calls (trace w) ++ [ApiRequest method path h kwargs])%list.
Proof.
  intros Hsafe Hvalid h Hep Hne.
  rewrite (request_valid_run method path kwargs w r Hsafe Hvalid Hep Hne).
  cbn [snd trace]. repeat split; trace_obs. cbn. lia.
Qed.

(** X8.  With a store that is not valid by the clock, [_request] renews
    before it sends anything.  If that renewal raises, the call ends with
    the same error and no request has gone to the API.  If it returns,
    the first request carries the bearer that the renewal installed. *)
Theorem request_proactive_renewal (method path : string)
    (kwargs : list (string * json)) (w : World) :
  negb (client._SAFE_PATH_RE_match path) || py.contains ".." path = false ->
  TokenStore.is_valid (store w) (time_time env (trace w)) = false ->
  match auth.refresh env settings w with
  | (Raise e, w1) =>
      client._request env settings method path kwargs w = (Raise e, w1)
      /\ obs.api_requests (trace w1) = obs.api_requests (trace w)
  | (Ok _, w1) =>
      client.first_send env settings method path kwargs w
      = client.client_request env method path
          [("Authorization", "Bearer " ++ TokenStore._access_token (store w1))]
          kwargs w1
  end.
Proof.
  intros Hsafe Hinv.
  destruct (refresh_trace env settings w) as (evs & Ht & _ & Ha).
  destruct (auth.refresh env settings w) as [[[]|e] w1] eqn:Eref; cbn [snd] in Ht.
  - unfold client.first_send.
    cbv beta iota delta [client._ensure_token client._auth_header bind ret
                         get_store get_trace now].
    cbn [store trace]. rewrite Hinv. cbn [negb]. rewrite Eref.
    reflexivity.
  - split.
    + unfold client._request. rewrite Hsafe.
      cbv beta iota delta [client._ensure_token bind ret get_store get_trace now].
      cbn [store trace]. rewrite Hinv. cbn [negb]. rewrite Eref. reflexivity.
    + rewrite Ht, api_requests_app, Ha. apply app_nil_r.
Qed.

End RequestOutcomes.

(** ** Errors of the API *)

(** X9.  [_raise_for_api_errors] returns on a status in 200..299 and
    raises on every other status, leaving the world as it is.  What it
    raises is a [TOCOnlineError] that carries the status, unless the
    constructor of that error fails on the entries it is given.  The
    entries are one entry made of the status and the raw text when the
    body is not JSON, is not an object or is the empty object.  For a
    non-empty object they are the value of its [errors], or the empty
    list when there is none; the call then raises the [TOCOnlineError]
    when that value is a list of objects, the empty object or the empty
    string, [AttributeError] when it is a list with an entry that is no
    object, a non-empty object or a non-empty string, and [TypeError] when
    it is [null], a truth value or a number. *)
Theorem raise_for_api_errors_spec (r : response json) (w : World) :
  let raises (e : exn) := client._raise_for_api_errors r w = (Raise e, w) in
  let error (errors : json) := TOCOnlineError errors (status_code r) in
  let fallback :=
    JArr [JObj [("code", JStr (py.str (status_code r)));
                ("detail", JStr (text r))]] in
  (is_success r = true -> client._raise_for_api_errors r w = (Ok tt, w))
  /\ (is_success r = false ->
      (exists e : exn,
         raises e
         /\ (e = AttributeError \/ e = TypeError \/ exists errors, e = error errors))
      /\ ((forall d, json_ r = Some (JObj d) -> d = []) -> raises (error fallback))
      /\ (forall d,
            json_ r = Some (JObj d) ->
            d <> [] ->
            match pyjson.get "errors" d with
            | None => raises (error (JArr []))
            | Some (JArr l) =>
                if forallb pyjson.is_obj l then raises (error (JArr l))
                else raises AttributeError
            | Some (JObj []) => raises (error (JObj []))
            | Some (JObj (_ :: _)) => raises AttributeError
            | Some (JStr EmptyString) => raises (error (JStr ""))
            | Some (JStr (String _ _)) => raises AttributeError
            | Some JNull | Some (JBool _) | Some (JInt _) | Some (JFloat _)
            | Some JNaN | Some (JInfinity _) => raises TypeError
            end)).
Proof.
  intros raises error fallback.
  assert (Hobj : forall d, is_success r = false -> json_ r = Some (JObj d) -> d <> [] ->
            match pyjson.get "errors" d with
            | None => raises (error (JArr []))
            | Some (JArr l) =>
                if forallb pyjson.is_obj l then raises (error (JArr l))
                else raises AttributeError
            | Some (JObj []) => raises (error (JObj []))
            | Some (JObj (_ :: _)) => raises AttributeError
            | Some (JStr EmptyString) => raises (error (JStr ""))
            | Some (JStr (String _ _)) => raises AttributeError
            | Some JNull | Some (JBool _) | Some (JInt _) | Some (JFloat _)
            | Some JNaN | Some (JInfinity _) => raises TypeError
            end).
  { intros d Hf Hj Hne. subst raises error. cbv beta.
    unfold client._raise_for_api_errors, raise. rewrite Hf, Hj.
    destruct d as [|item d]; [congruence|].
    cbn [pyjson.truthy negb andb].
    rewrite andb_false_r.
    destruct (pyjson.get "errors" (item :: d)) as [[| | | | | |[|c s]|l|[|i d']]|];
      cbn [client.TOCOnlineError_new py.truthy]; try reflexivity.
    destruct (forallb pyjson.is_obj l); reflexivity. }
  assert (Hfall : is_success r = false ->
            (forall d, json_ r = Some (JObj d) -> d = []) -> raises (error fallback)).
  { intros Hf H. subst raises error fallback. cbv beta.
    unfold client._raise_for_api_errors, raise. rewrite Hf.
    destruct (json_ r) as [[| | | | | | | |d]|]; try reflexivity.
    rewrite (H d eq_refl). reflexivity. }
  split.
  - intros Hs. unfold client._raise_for_api_errors, ret. now rewrite Hs.
  - intros Hf. split; [|split; [exact (Hfall Hf)|intros d; exact (Hobj d Hf)]].
    destruct (json_ r) as [v|] eqn:Ej.
    + destruct v as [| | | | | | | |d];
        try (eexists; split; [apply (Hfall Hf); intros ? ?; discriminate|];
             right; right; eexists; reflexivity).
      destruct d as [|item d].
      * eexists. split.
        -- apply (Hfall Hf). intros d' E. now injection E as <-.
        -- right. right. eexists. reflexivity.
      * specialize (Hobj (item :: d) Hf eq_refl ltac:(discriminate)).
        destruct (pyjson.get "errors" (item :: d)) as [[| | | | | |[|c s]|l|[|i d']]|];
          try destruct (forallb pyjson.is_obj l);
          (eexists; split; [exact Hobj|]);
          first [ left; reflexivity
                | right; left; reflexivity
                | right; right; eexists; reflexivity ].
    + eexists. split; [apply (Hfall Hf); intros ? ?; discriminate|].
      right. right. eexists. reflexivity.
Qed.

(** ** Resource identifiers *)

Section ResourceIds.
Import tools_base.

Lemma at_eol_spec (s : string) :
  at_eol s = true <-> s = "" \/ s = auth.nl.
Proof.
  destruct s as [|c [|c' s]]; cbn.
  - split; auto.
  - rewrite Ascii.eqb_eq. split.
    + intros ->. now right.
    + intros [H|H]; [discriminate|]. now injection H.
  - split; [discriminate|]. intros [H|H]; discriminate.
Qed.

Lemma leading_split (v : string) :
  exists ds : string,
    v = ds ++ client.drop (leading_digits v) v
    /\ all_digits ds = true
    /\ String.length ds = leading_digits v.
Proof.
  induction v as [|c v (ds & E & Hd & Hl)].
  - now exists "".
  - cbn [leading_digits]. destruct (is_digit c) eqn:Ec.
    + exists (String c ds). cbn. rewrite Ec, Hd, Hl. now rewrite <- E.
    + now exists "".
Qed.

Lemma leading_digits_app (ds t : string) :
  all_digits ds = true ->
  leading_digits (ds ++ t) = (String.length ds + leading_digits t)%nat.
Proof.
  induction ds as [|c ds IH]; [reflexivity|].
  cbn. intros H. apply andb_true_iff in H as [Hc Hd].
  now rewrite Hc, IH.
Qed.

Lemma drop_app_length (a b : string) : client.drop (String.length a) (a ++ b) = b.
Proof. induction a as [|c a IH]; [now destruct b|exact IH]. Qed.

Lemma resource_id_match_spec (value : string) :
  _RESOURCE_ID_RE_match value = true <->
  exists ds tail : string,
    value = ds ++ tail /\ all_digits ds = true
    /\ (1 <= String.length ds <= 20)%nat
    /\ (tail = "" \/ tail = auth.nl).
Proof.
  unfold _RESOURCE_ID_RE_match. cbv zeta.
  rewrite !andb_true_iff, !Nat.leb_le, at_eol_spec. split.
  - intros [[H1 H2] H3].
    destruct (leading_split value) as (ds & E & Hd & Hl).
    exists ds, (client.drop (leading_digits value) value).
    rewrite Hl. auto.
  - intros (ds & tail & -> & Hd & Hlen & Ht).
    assert (Hk : leading_digits (ds ++ tail) = String.length ds).
    { rewrite leading_digits_app by exact Hd.
      destruct Ht as [-> | ->]; cbn; lia. }
    rewrite Hk, drop_app_length. auto.
Qed.

Lemma digit_in_class (c : ascii) : is_digit c = true -> client.in_class c = true.
Proof.
  unfold is_digit, client.in_class, py.is_word, py.isalnum. cbv zeta.
  intros ->. reflexivity.
Qed.

Lemma digits_in_class (ds : string) :
  all_digits ds = true -> client.all_in_class ds = true.
Proof.
  induction ds as [|c ds IH]; [reflexivity|].
  cbn. intros H. apply andb_true_iff in H as [Hc Hd].
  now rewrite (digit_in_class c Hc), IH.
Qed.

Lemma startswith_app (p a b : string) :
  py.startswith p a = true -> py.startswith p (a ++ b) = true.
Proof.
  revert a. induction p as [|c p IH]; intros a H; [reflexivity|].
  destruct a as [|c' a]; [discriminate|].
  cbn in *. apply andb_true_iff in H as [H1 H2].
  now rewrite H1, IH.
Qed.

Lemma class_star_eol_app (a b : string) :
  client.all_in_class a = true ->
  client.class_star_eol (a ++ b) = client.class_star_eol b.
Proof.
  induction a as [|c a IH]; [reflexivity|].
  cbn. intros H. apply andb_true_iff in H as [Hc Ha].
  now rewrite Hc, IH.
Qed.

(** A string that starts with something other than a dot adds no [..]
    when it is appended, provided it holds none itself. *)
Lemma contains_dots_app (a b : string) :
  py.contains ".." a = false ->
  py.contains ".." b = false ->
  py.startswith "." b = false ->
  py.contains ".." (a ++ b) = false.
Proof.
  intros Ha Hb Hs. induction a as [|c a IH]; [exact Hb|].
  apply contains_cons in Ha as [H1 H2].
  change (String c a ++ b) with (String c (a ++ b)).
  cbn [py.contains]. rewrite (IH H2), orb_false_r.
  cbn [py.startswith] in H1 |- *.
  destruct (Ascii.eqb "." c); [|reflexivity]. cbn [andb] in H1 |- *.
  destruct a as [|c' a].
  - cbn [append]. destruct b as [|c'' b]; [reflexivity|].
    cbn [py.startswith] in Hs |- *. exact Hs.
  - exact H1.
Qed.

Lemma digits_no_dots (ds tail : string) :
  all_digits ds = true -> tail = "" \/ tail = auth.nl ->
  py.contains ".." (ds ++ tail) = false
  /\ (ds <> "" -> py.startswith "." (ds ++ tail) = false).
Proof.
  intros Hd Ht. split.
  - induction ds as [|c ds IH].
    + destruct Ht as [-> | ->]; reflexivity.
    + cbn in Hd. apply andb_true_iff in Hd as [Hc Hd].
      change (String c ds ++ tail) with (String c (ds ++ tail)).
      cbn [py.contains]. rewrite (IH Hd), orb_false_r.
      cbn [py.startswith].
      destruct (Ascii.eqb "." c) eqn:E; [|reflexivity].
      apply Ascii.eqb_eq in E. subst c. discriminate.
  - intros Hne. destruct ds as [|c ds]; [congruence|].
    cbn in Hd. apply andb_true_iff in Hd as [Hc _].
    cbn [append py.startswith].
    destruct (Ascii.eqb "." c) eqn:E; [|reflexivity].
    apply Ascii.eqb_eq in E. subst c. discriminate.
Qed.

Variable env : Env.
Variable settings : Settings.

(** X11.  An identifier that [validate_resource_id] lets through never
    trips the path check of the client: appended to a prefix that starts
    with [/api], is made of allowed characters and holds no [..], it
    gives a path that the pattern matches and that holds no [..], so that
    [get] and [delete] on it never raise the [ValueError] of the check. *)
Theorem validated_id_passes_path_check (value name prefix : string)
    (params body : json) :
  validate_resource_id value name = Returns value ->
  py.startswith "/api" prefix = true ->
  client.all_in_class prefix = true ->
  py.contains ".." prefix = false ->
  client._SAFE_PATH_RE_match (prefix ++ value) = true
  /\ py.contains ".." (prefix ++ value) = false
  /\ obs.no_value_error (TOCOnlineClient.get env settings (prefix ++ value) params)
  /\ obs.no_value_error (TOCOnlineClient.delete env settings (prefix ++ value) body).
Proof.
  intros Hv Hp Hall Hdots.
  assert (Hmatch : _RESOURCE_ID_RE_match value = true).
  { unfold validate_resource_id in Hv.
    destruct (_RESOURCE_ID_RE_match value); [reflexivity|discriminate]. }
  apply resource_id_match_spec in Hmatch as (ds & tail & -> & Hd & Hlen & Ht).
  assert (Hm : client._SAFE_PATH_RE_match (prefix ++ ds ++ tail) = true).
  { unfold client._SAFE_PATH_RE_match.
    rewrite (startswith_app _ _ _ Hp). cbn [andb].
    pose proof (startswith_split "/api" prefix Hp) as Hsplit.
    cbn [String.length] in Hsplit. rewrite Hsplit in Hall |- *.
    rewrite all_in_class_app in Hall. apply andb_true_iff in Hall as [_ Hall].
    change (client.drop 4 (("/api" ++ client.drop 4 prefix) ++ ds ++ tail))
      with (client.drop 4 prefix ++ ds ++ tail).
    rewrite class_star_eol_app by exact Hall.
    rewrite class_star_eol_app by (now apply digits_in_class).
    destruct Ht as [-> | ->]; reflexivity. }
  assert (Hc : py.contains ".." (prefix ++ ds ++ tail) = false).
  { destruct (digits_no_dots ds tail Hd Ht) as [H1 H2].
    apply contains_dots_app; [exact Hdots|exact H1|].
    apply H2. intros ->. cbn in Hlen. lia. }
  split; [exact Hm|]. split; [exact Hc|].
  split; apply request_accepts; rewrite Hm, Hc; reflexivity.
Qed.

End ResourceIds.

Section UnicodeIds.
(** The code points that [\d] matches: on U+0000..U+00FF they are the
    digits [0] to [9]. *)
Variable decimal : N -> bool.
Hypothesis decimal_latin1 :
  forall c : N, (c < 256)%N -> decimal c = unicode.ascii_digit c.

Lemma decimal_line_feed : decimal 10 = false.
Proof. rewrite decimal_latin1; reflexivity. Qed.

Lemma unicode_at_eol_spec (s : unicode.str) :
  unicode.at_eol s = true <-> s = [] \/ s = [10%N].
Proof.
  destruct s as [|c [|c' s]]; cbn.
  - split; auto.
  - rewrite N.eqb_eq. split.
    + intros ->. now right.
    + intros [H|H]; [discriminate|]. now injection H.
  - split; [discriminate|]. intros [H|H]; discriminate.
Qed.

Lemma unicode_leading_split (v : unicode.str) :
  exists ds : unicode.str,
    v = (ds ++ skipn (unicode.leading_digits decimal v) v)%list
    /\ forallb decimal ds = true
    /\ length ds = unicode.leading_digits decimal v.
Proof.
  induction v as [|c v (ds & E & Hd & Hl)].
  - now exists [].
  - cbn [unicode.leading_digits]. destruct (decimal c) eqn:Ec.
    + exists (c :: ds). cbn. rewrite Ec, Hd, Hl. now rewrite <- E.
    + now exists [].
Qed.

Lemma unicode_leading_app (ds t : unicode.str) :
  forallb decimal ds = true ->
  unicode.leading_digits decimal (ds ++ t)%list
  = (length ds + unicode.leading_digits decimal t)%nat.
Proof.
  induction ds as [|c ds IH]; [reflexivity|].
  cbn. intros H. apply andb_true_iff in H as [Hc Hd].
  now rewrite Hc, IH.
Qed.

Lemma unicode_match_spec (value : unicode.str) :
  unicode._RESOURCE_ID_RE_match decimal value = true <->
  exists ds tail : unicode.str,
    value = (ds ++ tail)%list /\ forallb decimal ds = true
    /\ (1 <= length ds <= 20)%nat
    /\ (tail = [] \/ tail = [10%N]).
Proof.
  unfold unicode._RESOURCE_ID_RE_match. cbv zeta.
  rewrite !andb_true_iff, !Nat.leb_le, unicode_at_eol_spec. split.
  - intros [[H1 H2] H3].
    destruct (unicode_leading_split value) as (ds & E & Hd & Hl).
    exists ds, (skipn (unicode.leading_digits decimal value) value).
    rewrite Hl. auto.
  - intros (ds & tail & -> & Hd & Hlen & Ht).
    assert (Hk : unicode.leading_digits decimal (ds ++ tail)%list = length ds).
    { rewrite unicode_leading_app by exact Hd.
      destruct Ht as [-> | ->]; cbn; [lia|].
      rewrite decimal_line_feed. lia. }
    rewrite Hk, skipn_app, Nat.sub_diag, skipn_all. cbn [skipn app]. auto.
Qed.

Lemma line_feed_code (c : ascii) :
  Ascii.eqb c (ascii_of_nat 10) = (N_of_ascii c =? 10)%N.
Proof. destruct c as [[] [] [] [] [] [] [] []]; reflexivity. Qed.

Lemma of_string_leading (s : string) :
  unicode.leading_digits decimal (unicode.of_string s) = tools_base.leading_digits s.
Proof.
  induction s as [|c s IH]; [reflexivity|].
  unfold unicode.of_string in *. cbn [list_ascii_of_string map unicode.leading_digits
    tools_base.leading_digits].
  rewrite decimal_latin1 by apply N_ascii_bounded.
  change (unicode.ascii_digit (N_of_ascii c)) with (tools_base.is_digit c).
  now rewrite IH.
Qed.

Lemma of_string_drop (k : nat) (s : string) :
  skipn k (unicode.of_string s) = unicode.of_string (client.drop k s).
Proof.
  revert s. induction k as [|k IH]; intros s; [reflexivity|].
  destruct s as [|c s]; [reflexivity|]. apply IH.
Qed.

Lemma of_string_at_eol (s : string) :
  unicode.at_eol (unicode.of_string s) = tools_base.at_eol s.
Proof.
  destruct s as [|c [|c' s]]; cbn; [reflexivity| |reflexivity].
  symmetry. apply line_feed_code.
Qed.

Lemma of_string_match (s : string) :
  unicode._RESOURCE_ID_RE_match decimal (unicode.of_string s)
  = tools_base._RESOURCE_ID_RE_match s.
Proof.
  unfold unicode._RESOURCE_ID_RE_match, tools_base._RESOURCE_ID_RE_match.
  cbv zeta. now rewrite of_string_leading, of_string_drop, of_string_at_eol.
Qed.

(** X10.  On identifiers of arbitrary code points, with [\d] matching
    the decimal digits of Unicode: [validate_resource_id] returns its
    argument exactly for the identifiers made of 1 to 20 code points that
    [\d] matches, optionally followed by one line feed; every other
    identifier, the empty one included, raises [ToolError] carrying the
    name and the value.  On a string of U+0000..U+00FF this is what
    [tools_base.validate_resource_id] computes. *)
Theorem validate_resource_id_spec (value : unicode.str) (name : string) :
  (unicode.validate_resource_id decimal value name = unicode.Returns value
   \/ unicode.validate_resource_id decimal value name = unicode.ToolError name value)
  /\ (unicode.validate_resource_id decimal value name = unicode.Returns value <->
      exists ds tail : unicode.str,
        value = (ds ++ tail)%list
        /\ forallb decimal ds = true
        /\ (1 <= length ds <= 20)%nat
        /\ (tail = [] \/ tail = [10%N]))
  /\ (forall s : string,
        tools_base.validate_resource_id s name = tools_base.Returns s
        <-> unicode.validate_resource_id decimal (unicode.of_string s) name
            = unicode.Returns (unicode.of_string s)).
Proof.
  unfold unicode.validate_resource_id. split; [|split].
  - destruct (unicode._RESOURCE_ID_RE_match decimal value); cbn; auto.
  - pose proof (unicode_match_spec value) as Hm.
    destruct (unicode._RESOURCE_ID_RE_match decimal value); cbn [negb].
    + split; [intros _; now apply Hm|reflexivity].
    + split; [discriminate|]. intros H. apply Hm in H. discriminate.
  - intros s. unfold tools_base.validate_resource_id. rewrite of_string_match.
    destruct (tools_base._RESOURCE_ID_RE_match s); cbn [negb];
      split; (reflexivity || discriminate).
Qed.

End UnicodeIds.

(** ** Validity over time *)

(** X17.  Validity only ever ends: a store that is valid at some time is
    valid at every earlier time, and a store that is invalid at some time
    stays invalid at every later time until it is changed. *)
Theorem is_valid_antitone (self : TokenStore.t) (t1 t2 : Q) :
  (t1 <= t2)%Q ->
  (TokenStore.is_valid self t2 = true -> TokenStore.is_valid self t1 = true)
  /\ (TokenStore.is_valid self t1 = false -> TokenStore.is_valid self t2 = false).
Proof.
  intros Hle.
  assert (H : TokenStore.is_valid self t2 = true -> TokenStore.is_valid self t1 = true).
  { rewrite !is_valid_true_iff. intros [Hne Hlt]. split; [exact Hne|].
    destruct (TokenStore._expires_at self); [lra|exact I]. }
  split; [exact H|].
  intros Hf. destruct (TokenStore.is_valid self t2); [|reflexivity].
  rewrite H in Hf by reflexivity. discriminate.
Qed.

(** ** The keychain *)

Section VaultFacts.
Import vault.

Lemma get_without_same (entries : list (string * string * string))
    (service key : string) :
  get_password (without entries service key) service key = None.
Proof.
  induction entries as [|[[s k] pw] entries IH]; [reflexivity|].
  unfold without in *. cbn [filter same_entry].
  destruct (String.eqb s service && String.eqb k key) eqn:E; cbn [negb].
  - exact IH.
  - cbn [get_password]. now rewrite E.
Qed.

Lemma get_without_other (entries : list (string * string * string))
    (service key s' k' : string) :
  String.eqb service s' && String.eqb key k' = false ->
  get_password (without entries service key) s' k' = get_password entries s' k'.
Proof.
  intros Hne.
  induction entries as [|[[s k] pw] entries IH]; [reflexivity|].
  unfold without in *. cbn [filter same_entry get_password].
  destruct (String.eqb s service && String.eqb k key) eqn:E; cbn [negb].
  - rewrite IH.
    apply andb_true_iff in E as [E1 E2].
    apply String.eqb_eq in E1, E2. subst s k. now rewrite Hne.
  - cbn [get_password]. now rewrite IH.
Qed.

(** X12.  [store_refresh_token] reports success exactly on a working
    backend.  There, a following [load_refresh_token] returns the stored
    token, unless the token is empty, which reads back as no token at
    all; what is stored under any other service or key is not touched.
    Elsewhere the backend is left as it was and nothing can be loaded. *)
Theorem store_then_load (b : backend) (token : string) :
  let after := snd (store_refresh_token b token) in
  (fst (store_refresh_token b token) = true <-> exists entries, b = Working entries)
  /\ (fst (store_refresh_token b token) = true ->
      load_refresh_token after = (if py.truthy token then Some token else None)
      /\ has_refresh_token after = py.truthy token)
  /\ (fst (store_refresh_token b token) = false ->
      after = b /\ load_refresh_token after = None)
  /\ (forall entries entries' service key,
        b = Working entries -> after = Working entries' ->
        String.eqb keychain._SERVICE_NAME service
        && String.eqb keychain._REFRESH_TOKEN_KEY key = false ->
        get_password entries' service key = get_password entries service key).
Proof.
  cbv zeta. destruct b as [| | |entries]; cbn [store_refresh_token fst snd].
  1-3: (split; [split; [discriminate|intros [e He]; discriminate]|]);
       (split; [discriminate|]); (split; [intros _; split; reflexivity|]);
       intros e e' sv k He; discriminate.
  split; [split; [intros _; now exists entries|reflexivity]|].
  split; [|split; [discriminate|]].
  - intros _. unfold has_refresh_token, load_refresh_token, set_password.
    cbn [get_password]. rewrite !String.eqb_refl. cbn [andb].
    destruct (py.truthy token); split; reflexivity.
  - intros e e' sv k He He' Hne. injection He as <-. injection He' as <-.
    unfold set_password. cbn [get_password]. rewrite Hne.
    now apply get_without_other.
Qed.

(** X13.  [delete_refresh_token] reports success on a working backend
    whether or not a token was stored; afterwards nothing can be loaded,
    a second delete succeeds again and changes nothing, and what is
    stored under any other service or key is not touched.  On any other
    backend it reports failure and changes nothing. *)
Theorem delete_then_load (b : backend) :
  let after := snd (delete_refresh_token b) in
  (fst (delete_refresh_token b) = true <-> exists entries, b = Working entries)
  /\ load_refresh_token after = None
  /\ has_refresh_token after = false
  /\ delete_refresh_token after = (fst (delete_refresh_token b), after)
  /\ (forall entries entries' service key,
        b = Working entries -> after = Working entries' ->
        String.eqb keychain._SERVICE_NAME service
        && String.eqb keychain._REFRESH_TOKEN_KEY key = false ->
        get_password entries' service key = get_password entries service key).
Proof.
  cbv zeta. destruct b as [| | |entries]; cbn [delete_refresh_token].
  1-3: cbn; (split; [split; [discriminate|intros [e He]; discriminate]|]);
       repeat (split; [reflexivity|]); intros e e' sv k He; discriminate.
  destruct (get_password entries keychain._SERVICE_NAME keychain._REFRESH_TOKEN_KEY)
    as [t|] eqn:E; cbn [fst snd].
  - split; [split; [intros _; now exists entries|reflexivity]|].
    unfold has_refresh_token, load_refresh_token. cbn [delete_refresh_token].
    rewrite get_without_same. repeat (split; [reflexivity|]).
    intros e e' sv k He He' Hne. injection He as <-. injection He' as <-.
    now apply get_without_other.
  - split; [split; [intros _; now exists entries|reflexivity]|].
    unfold has_refresh_token, load_refresh_token. cbn [delete_refresh_token].
    rewrite E. repeat (split; [reflexivity|]).
    intros e e' sv k He He'. injection He as <-. injection He' as <-. reflexivity.
Qed.

(** X14.  After [_auth_logout], [_auth_status] never reports a token in
    the keychain, on any backend: it reports the one of the settings when
    there is one, and none otherwise.  [_auth_logout] itself reports the
    removal exactly on a working backend. *)
Theorem logout_then_status (settings : Settings) (b : backend) :
  let after := snd (cli_auth._auth_logout b) in
  cli_auth._auth_status settings after
  = (if py.truthy (refresh_token settings)
     then cli_auth.OnlyInEnv else cli_auth.NotFound)
  /\ (fst (cli_auth._auth_logout b) = cli_auth.Removed
      <-> exists entries, b = Working entries).
Proof.
  cbv zeta. unfold cli_auth._auth_logout, cli_auth._auth_status.
  destruct b as [| | |entries]; cbn [delete_refresh_token].
  1-3: cbn; (split; [reflexivity|]); split; [discriminate|intros [e He]; discriminate].
  assert (Hw : cli_auth.Removed = cli_auth.Removed <-> exists e, Working entries = Working e)
    by (split; [intros _; now exists entries|reflexivity]).
  destruct (get_password entries keychain._SERVICE_NAME keychain._REFRESH_TOKEN_KEY)
    as [t|] eqn:E; cbn [fst snd]; (split; [|exact Hw]);
    unfold has_refresh_token, load_refresh_token.
  - now rewrite get_without_same.
  - now rewrite E.
Qed.

End VaultFacts.

(** ** Seeding the token store *)

Section LifespanFacts.
Import TokenStore.
Variable settings : Settings.

(** X15.  When the settings carry a static access token, [lifespan]
    installs it and nothing else: the keychain's token is not used, the
    store is valid at every time, and a request that is not answered by
    401 sends one request with that bearer, enters no renewal and leaves
    the store as it was, so that the same holds for the next request. *)
Theorem lifespan_static_token (keychain_token : option string) :
  access_token settings <> "" ->
  let st := lifespan.token_store settings keychain_token in
  st = load_static new (access_token settings)
  /\ _refresh_token st = ""
  /\ (forall t : Q, is_valid st t = true)
  /\ (forall (env : Env) (method path : string) (kwargs : list (string * json))
        (tr : list event) (r : response json),
        negb (client._SAFE_PATH_RE_match path) || py.contains ".." path = false ->
        let h := [("Authorization", "Bearer " ++ access_token settings)] in
        api_endpoint env tr method path h kwargs = Resp r ->
        status_code r <> 401 ->
        client._request env settings method path kwargs {| store := st; trace := tr |}
        = (client.outcome_of r,
           {| store := st; trace := tr ++ [ApiRequest method path h kwargs] |})).
Proof.
  intros Hne st.
  assert (Hst : st = load_static new (access_token settings)).
  { subst st. unfold lifespan.token_store.
    apply truthy_nonempty in Hne. now rewrite Hne. }
  assert (Hvalid : forall t : Q, is_valid st t = true).
  { intros t. rewrite Hst. apply is_valid_true_iff. cbn. auto. }
  split; [exact Hst|]. split; [now rewrite Hst|]. split; [exact Hvalid|].
  intros env method path kwargs tr r Hsafe h Hep H401.
  pose proof (request_valid_run env settings method path kwargs
                {| store := st; trace := tr |} r Hsafe (Hvalid _)) as H.
  cbn [store trace] in H.
  assert (Hb : _access_token st = access_token settings) by now rewrite Hst.
  rewrite Hb in H. apply H; [exact Hep|exact H401].
Qed.

(** X16.  Without a static access token, [lifespan] leaves the store
    without a bearer, so that it is invalid at every time, and seeds the
    refresh string from the keychain when that holds a token and from
    the settings otherwise.  With client credentials configured, the
    first thing a request then does is a renewal that posts this seed;
    when there is no seed the renewal raises [RuntimeError] and nothing
    is sent. *)
Theorem lifespan_refresh_seed (keychain_token : option string) :
  access_token settings = "" ->
  let st := lifespan.token_store settings keychain_token in
  let seed := match keychain_token with
              | Some (String c s) => String c s
              | _ => refresh_token settings
              end in
  _access_token st = ""
  /\ _refresh_token st = seed
  /\ (forall t : Q, is_valid st t = false)
  /\ (forall (env : Env) (tr : list event),
        let w := {| store := st; trace := tr |} in
        client._ensure_token env settings w = auth.refresh env settings w
        /\ (client_id settings <> "" -> client_secret settings <> "" ->
            (seed <> "" ->
             obs.network_calls (trace (snd (auth.refresh env settings w)))
             = (obs.network_calls tr
                ++ [TokenPost (oauth_token_url settings)
                      (auth.refresh_form settings seed) auth.form_headers])%list)
            /\ (seed = "" ->
                auth.refresh env settings w
                = (Raise (RuntimeError auth.no_refresh_token),
                   {| store := st; trace := tr ++ [RefreshCalled] |})))).
Proof.
  intros He st seed.
  assert (Hst : _access_token st = "" /\ _refresh_token st = seed).
  { subst st seed. unfold lifespan.token_store. rewrite He. cbn [py.truthy].
    destruct keychain_token as [[|c s]|]; cbn [py.truthy];
      destruct (refresh_token settings) eqn:E; cbn; auto. }
  destruct Hst as [Ha Hr].
  assert (Hinv : forall t : Q, is_valid st t = false).
  { intros t. apply is_valid_false_iff. now left. }
  split; [exact Ha|]. split; [exact Hr|]. split; [exact Hinv|].
  intros env tr w. split.
  - unfold client._ensure_token.
    cbv beta iota delta [bind ret get_store get_trace now].
    cbn [store trace]. now rewrite Hinv.
  - intros Hi Hs.
    assert (Hor : py.or_ (_refresh_token (store w)) (refresh_token settings) = seed).
    { unfold w. cbn [store]. rewrite Hr. unfold py.or_.
      destruct seed eqn:E; cbn [py.truthy]; [|reflexivity].
      subst seed. destruct keychain_token as [[|c s]|]; congruence. }
    split.
    + intros Hseed.
      pose proof (refresh_network_calls env settings w Hi Hs) as H.
      cbv zeta in H. rewrite Hor in H. apply (H Hseed).
    + intros Hseed. apply truthy_nonempty in Hi, Hs.
      unfold w in Hor. cbn [store] in Hor.
      unfold auth.refresh, w. run_m. rewrite Hi, Hs. run_m.
      rewrite Hor, Hseed. reflexivity.
Qed.

End LifespanFacts.

(** ** The interactive login: what it does to the outside *)

Section LoginEffects.
Import bounds.
Variable urlparse_query : string -> option string.
Variable parse_qs_first : string -> string -> option string.
Variable urlencode : list (string * string) -> string.
Variable env : Env.
Variable settings : Settings.

(** Closes a goal about a run whose trace is spelled out. *)
Ltac login_leaf :=
  rewrite <- ?app_assoc; cbn [app];
  first [ exists (@nil event); split; [symmetry; apply app_nil_r|]
        | eexists; split; [reflexivity|] ];
  cbn [fst snd store obs.api_requests obs.refresh_calls token_posts
       obs.exchanges obs.persistence_writes filter length
       obs.is_api_request obs.is_refresh_call is_token_post In].

Ltac login_done :=
  repeat match goal with
         | |- _ /\ _ => split
         | |- (_ <= _)%nat => lia
         | |- _ = _ => reflexivity
         | |- forall code, _ -> code <> "" =>
             let H := fresh in intros ? H; cbn in H; intuition congruence
         end.

(** The login from the exchange on, for a code that is not empty. *)
Lemma login_exchange (code verifier : string) (w : World) (evs0 : list event) :
  code <> "" ->
  obs.api_requests evs0 = [] ->
  obs.refresh_calls evs0 = 0%nat ->
  token_posts evs0 = [] ->
  obs.exchanges evs0 = [] ->
  obs.persistence_writes evs0 = [] ->
  let w0 := {| store := store w; trace := trace w ++ evs0 |} in
  let run :=
    (tokens <- auth.exchange_code_for_tokens env code verifier settings ;;
     tokens <- match tokens with
               | TokenPayload.Object p => ret p
               | TokenPayload.NotObject _ => raise AttributeError
               end ;;
     let refresh_token :=
       match TokenPayload.refresh_token tokens with
       | Some r => r
       | None => ""
       end in
     if negb (py.truthy refresh_token) then raise (SystemExit 1)
     else _ <- keychain.store_refresh_token env refresh_token ;; ret tt) w0 in
  exists evs : list event,
    trace (snd run) = (trace w ++ evs)%list
    /\ store (snd run) = store w
    /\ obs.api_requests evs = []
    /\ obs.refresh_calls evs = 0%nat
    /\ (length (token_posts evs) <= 1)%nat
    /\ (length (obs.exchanges evs) <= 1)%nat
    /\ (forall c, In c (obs.exchanges evs) -> c <> "")
    /\ match fst run with
       | Ok _ =>
           exists (r : string) (tr : list event) (url : string)
                  (form h : list (string * string))
                  (resp : response TokenPayload.body) (p : TokenPayload.t),
             r <> ""
             /\ obs.persistence_writes evs = [r]
             /\ token_endpoint env tr url form h = Resp resp
             /\ is_success resp = true
             /\ json_ resp = Some (TokenPayload.Object p)
             /\ TokenPayload.refresh_token p = Some r
       | Raise _ => obs.persistence_writes evs = []
       end.
Proof.
  intros Hcode Ha Hr Hn He Hp w0 run. subst run w0.
  assert (Hobs : forall evs : list event,
            obs.api_requests (evs0 ++ evs) = obs.api_requests evs
            /\ obs.refresh_calls (evs0 ++ evs) = obs.refresh_calls evs
            /\ token_posts (evs0 ++ evs) = token_posts evs
            /\ obs.exchanges (evs0 ++ evs) = obs.exchanges evs
            /\ obs.persistence_writes (evs0 ++ evs) = obs.persistence_writes evs).
  { intros evs.
    rewrite api_requests_app, refresh_calls_app, token_posts_app, exchanges_app,
      persistence_writes_app, Ha, Hr, Hn, He, Hp. repeat split. }
  assert (Hleaf : forall (o : result unit) (evs : list event),
            match o with
            | Ok _ =>
                exists (r : string) (tr : list event) (url : string)
                       (form h : list (string * string))
                       (resp : response TokenPayload.body) (p : TokenPayload.t),
                  r <> ""
                  /\ obs.persistence_writes evs = [r]
                  /\ token_endpoint env tr url form h = Resp resp
                  /\ is_success resp = true
                  /\ json_ resp = Some (TokenPayload.Object p)
                  /\ TokenPayload.refresh_token p = Some r
            | Raise _ => obs.persistence_writes evs = []
            end ->
            obs.api_requests evs = [] ->
            obs.refresh_calls evs = 0%nat ->
            (length (token_posts evs) <= 1)%nat ->
            obs.exchanges evs = [code] ->
            let run := (o, {| store := store w; trace := (trace w ++ evs0) ++ evs |}) in
            exists evs' : list event,
              trace (snd run) = (trace w ++ evs')%list
              /\ store (snd run) = store w
              /\ obs.api_requests evs' = []
              /\ obs.refresh_calls evs' = 0%nat
              /\ (length (token_posts evs') <= 1)%nat
              /\ (length (obs.exchanges evs') <= 1)%nat
              /\ (forall c, In c (obs.exchanges evs') -> c <> "")
              /\ match fst run with
                 | Ok _ =>
                     exists (r : string) (tr : list event) (url : string)
                            (form h : list (string * string))
                            (resp : response TokenPayload.body) (p : TokenPayload.t),
                       r <> ""
                       /\ obs.persistence_writes evs' = [r]
                       /\ token_endpoint env tr url form h = Resp resp
                       /\ is_success resp = true
                       /\ json_ resp = Some (TokenPayload.Object p)
                       /\ TokenPayload.refresh_token p = Some r
                 | Raise _ => obs.persistence_writes evs' = []
                 end).
  { intros o evs Ho H1 H2 H3 H4 run. subst run.
    destruct (Hobs evs) as (O1 & O2 & O3 & O4 & O5).
    exists (evs0 ++ evs)%list. cbn [trace store fst snd].
    rewrite O1, O2, O3, O4, O5, H1, H2, H4, app_assoc.
    repeat match goal with |- _ /\ _ => split end;
      try reflexivity; try assumption; try (cbn; lia).
    intros c [<-|[]]. exact Hcode. }
  unfold auth.exchange_code_for_tokens. run_m.
  rewrite <- (app_assoc (trace w ++ evs0)). cbn [app].
  destruct (token_endpoint env _ _ _ _) as [resp| |] eqn:Eep; run_m.
  2,3: apply (Hleaf (Raise TypeError)); reflexivity || (cbn; lia).
  destruct (is_success resp) eqn:Eok; run_m.
  2: apply (Hleaf (Raise TypeError)); reflexivity || (cbn; lia).
  destruct (json_ resp) as [[p|v]|] eqn:Ej; run_m.
  2,3: apply (Hleaf (Raise TypeError)); reflexivity || (cbn; lia).
  destruct (TokenPayload.refresh_token p) as [r|] eqn:Er; cbn [py.truthy negb]; run_m.
  2: apply (Hleaf (Raise TypeError)); reflexivity || (cbn; lia).
  destruct (py.truthy r) eqn:Etr; cbn [negb]; run_m.
  2: apply (Hleaf (Raise TypeError)); reflexivity || (cbn; lia).
  apply truthy_nonempty in Etr.
  destruct (keyring_installed env); run_m.
  - rewrite <- !(app_assoc (trace w ++ evs0)). cbn [app].
    destruct (keyring_set_password env _ _ _ _);
      (apply (Hleaf (Ok tt)); [|reflexivity|reflexivity|cbn; lia|reflexivity]);
      exists r; do 6 eexists; repeat split; eauto.
  - rewrite <- !(app_assoc (trace w ++ evs0)). cbn [app].
    apply (Hleaf (Ok tt)); [|reflexivity|reflexivity|cbn; lia|reflexivity].
    exists r. do 6 eexists. repeat split; eauto.
Qed.

(** X18.  Whatever is typed and whatever the outside answers, a login
    leaves the token store alone, calls nothing of the API, enters no
    renewal, enters [exchange_code_for_tokens] at most once and never
    with an empty code, and posts to the token endpoint at most once.
    When it returns normally it has handed exactly one value to
    [store_refresh_token]: a non-empty refresh token that the token
    endpoint returned in a 2xx answer.  When it ends in any other way it
    has handed nothing to [store_refresh_token]. *)
Theorem login_effects (pkce : string * string) (state : string)
    (typed : option string) (w : World) :
  let run := cli._auth_login urlparse_query parse_qs_first urlencode env settings
               pkce state typed w in
  exists evs : list event,
    trace (snd run) = (trace w ++ evs)%list
    /\ store (snd run) = store w
    /\ obs.api_requests evs = []
    /\ obs.refresh_calls evs = 0%nat
    /\ (length (token_posts evs) <= 1)%nat
    /\ (length (obs.exchanges evs) <= 1)%nat
    /\ (forall code, In code (obs.exchanges evs) -> code <> "")
    /\ match fst run with
       | Ok _ =>
           exists (r : string) (tr : list event) (url : string)
                  (form h : list (string * string))
                  (resp : response TokenPayload.body) (p : TokenPayload.t),
             r <> ""
             /\ obs.persistence_writes evs = [r]
             /\ token_endpoint env tr url form h = Resp resp
             /\ is_success resp = true
             /\ json_ resp = Some (TokenPayload.Object p)
             /\ TokenPayload.refresh_token p = Some r
       | Raise _ => obs.persistence_writes evs = []
       end.
Proof.
  cbv zeta. unfold cli._auth_login.
  destruct (negb (py.truthy (client_id settings))
            || negb (py.truthy (client_secret settings))).
  { unfold raise. login_leaf. login_done. }
  destruct pkce as [verifier challenge]. cbn [auth.make_auth_url].
  destruct typed as [u|]; run_m.
  2:{ login_leaf. login_done. }
  unfold cli._extract_code, cli.query_first.
  set (u' := py.strip u).
  destruct (cli.is_url u') eqn:Eurl.
  - destruct (urlparse_query u') as [query|]; run_m.
    2:{ login_leaf. login_done. }
    destruct (parse_qs_first query "state") as [returned|]; run_m.
    2:{ login_leaf. login_done. }
    destruct (String.eqb returned state); run_m.
    2:{ login_leaf. login_done. }
    destruct (py.truthy u'); cbn [negb]; run_m.
    2:{ login_leaf. login_done. }
    destruct (parse_qs_first query "code") as [code|]; run_m.
    2:{ login_leaf. login_done. }
    destruct (py.truthy code) eqn:Ecode; cbn [negb]; run_m.
    2:{ login_leaf. login_done. }
    apply truthy_nonempty in Ecode.
    apply (login_exchange code verifier w [WebbrowserOpen _] Ecode);
      reflexivity.
  - run_m.
    destruct (py.truthy u') eqn:Ecode; cbn [negb]; run_m.
    2:{ login_leaf. login_done. }
    rewrite Ecode. cbn [negb].
    apply truthy_nonempty in Ecode.
    apply (login_exchange u' verifier w [WebbrowserOpen _] Ecode);
      reflexivity.
Qed.

End LoginEffects.

Section LoginExits.
Variable urlparse_query : string -> option string.
Variable parse_qs_first : string -> string -> option string.
Variable urlencode : list (string * string) -> string.
Variable env : Env.
Variable settings : Settings.

(** X19.  The login ends before any exchange in these cases.  Without
    client credentials it gives up with [SystemExit 1] before the browser
    is opened and with the world untouched.  Once the browser has been
    opened, it gives up with [SystemExit 1] when the input is
    interrupted, when the pasted line is blank, and when a pasted URL
    that [urlparse] accepts echoes the right state but carries no code;
    and it ends with the [ValueError] of [urlparse], not with
    [SystemExit], when the pasted line begins like a URL and [urlparse]
    does not accept it. *)
Theorem login_early_exits (pkce : string * string) (state : string)
    (typed : option string) (w : World) :
  let run := cli._auth_login urlparse_query parse_qs_first urlencode env settings
               pkce state typed w in
  let url := fst (fst (auth.make_auth_url urlencode settings pkce state)) in
  let opened := {| store := store w; trace := trace w ++ [WebbrowserOpen url] |} in
  (client_id settings = "" \/ client_secret settings = "" ->
   run = (Raise (SystemExit 1), w))
  /\ (client_id settings <> "" -> client_secret settings <> "" ->
      (typed = None -> run = (Raise (SystemExit 1), opened))
      /\ (forall u, typed = Some u -> py.strip u = "" ->
            run = (Raise (SystemExit 1), opened))
      /\ (forall u query, typed = Some u -> cli.is_url (py.strip u) = true ->
            urlparse_query (py.strip u) = Some query ->
            parse_qs_first query "state" = Some state ->
            parse_qs_first query "code" = None ->
            run = (Raise (SystemExit 1), opened))
      /\ (forall u, typed = Some u -> cli.is_url (py.strip u) = true ->
            urlparse_query (py.strip u) = None ->
            run = (Raise (ValueError_urlparse (py.strip u)), opened))).
Proof.
  cbv zeta. unfold cli._auth_login.
  destruct pkce as [verifier challenge]. cbn [auth.make_auth_url fst].
  split.
  - intros [H|H]; rewrite H; cbn [py.truthy negb orb]; [reflexivity|].
    now rewrite orb_true_r.
  - intros Hi Hs. apply truthy_nonempty in Hi, Hs. rewrite Hi, Hs.
    cbn [negb orb]. split; [|split; [|split]].
    + intros ->. reflexivity.
    + intros u -> Hu. unfold cli._extract_code. rewrite Hu. reflexivity.
    + intros u query -> Hurl Hq Hstate Hcode. unfold cli._extract_code, cli.query_first.
      run_m. rewrite Hurl, Hq. run_m. rewrite Hstate, String.eqb_refl. run_m.
      destruct (py.truthy (py.strip u)); cbn [negb]; [|reflexivity].
      now rewrite Hcode.
    + intros u -> Hurl Hq. unfold cli.query_first.
      run_m. rewrite Hurl, Hq. reflexivity.
Qed.

(** X21.  [exchange_code_for_tokens] calls the HTTP client once, with a
    POST to the token URL, whatever the settings hold, and touches
    neither the token store nor the keychain; it returns the parsed body
    for a status in 200..299 and raises [HTTPStatusError] with the status
    for any other status, [JSONDecodeError] for a 2xx body that is not
    JSON, [TransportError] when no response comes and [InvalidURL] when
    the client refuses the URL.  The form names the same client and the
    same redirect address as the authorization URL of [make_auth_url],
    and carries the code and the verifier it was given. *)
Theorem exchange_posts_once (code code_verifier : string) (w : World)
    (pkce : string * string) (state : string) :
  exists form : list (string * string),
    let post := TokenPost (oauth_token_url settings) form auth.form_headers in
    auth.exchange_code_for_tokens env code code_verifier settings w
    = (match token_endpoint env (trace w ++ [ExchangeCalled code code_verifier])
               (oauth_token_url settings) form auth.form_headers with
       | NetFail => Raise TransportError
       | Refused => Raise InvalidURL
       | Resp r =>
           if is_success r
           then match json_ r with
                | Some p => Ok p
                | None => Raise JSONDecodeError
                end
           else Raise (HTTPStatusError (status_code r))
       end,
       {| store := store w;
          trace := trace w ++ [ExchangeCalled code code_verifier; post] |})
    /\ form.field "grant_type" form = Some "authorization_code"
    /\ form.field "code" form = Some code
    /\ form.field "code_verifier" form = Some code_verifier
    /\ form.field "client_secret" form = Some (client_secret settings)
    /\ form.field "client_id" form
       = form.field "client_id" (form.auth_params settings pkce state)
    /\ form.field "redirect_uri" form
       = form.field "redirect_uri" (form.auth_params settings pkce state)
    /\ fst (fst (auth.make_auth_url urlencode settings pkce state))
       = auth.auth_endpoint settings ++ "?"
         ++ urlencode (form.auth_params settings pkce state).
Proof.
  exists [("grant_type", "authorization_code"); ("code", code);
          ("client_id", client_id settings);
          ("client_secret", client_secret settings);
          ("redirect_uri", py.or_ (redirect_uri settings) auth.default_redirect_uri);
          ("code_verifier", code_verifier); ("scope", "commercial")].
  cbv zeta. split.
  - unfold auth.exchange_code_for_tokens. run_m.
    rewrite <- app_assoc. cbn [app].
    destruct (token_endpoint env _ _ _ _) as [r| |]; run_m;
      [|reflexivity|reflexivity].
    destruct (is_success r); run_m; [|reflexivity].
    destruct (json_ r); reflexivity.
  - repeat split. destruct pkce. reflexivity.
Qed.

End LoginExits.

(** ** The write gate: read-only sessions and ceilings below zero *)

Section WriteGateEdges.
Import app.
Variables (Call W : Type).
Variable func : Call -> W -> result json * W.

(** X22.  In read-only mode a whole session, of any length and from any
    state, answers every call with the read-only error, the object whose
    one entry [error] is the read-only text, and ends in the state it
    started from: no tool runs and the counter does not move, whatever
    the ceiling is and however far the counter already is. *)
Theorem read_only_session (settings : Settings) (calls : list Call)
    (st : State Call W) :
  read_only settings = true ->
  session Call W func settings calls st
  = (repeat (Ok (JObj [("error", JStr _READ_ONLY_ERROR)])) (length calls), st).
Proof.
  intros Hro. induction calls as [|c calls IH]; [reflexivity|].
  cbn [session length repeat]. unfold wrapper. rewrite Hro, IH. reflexivity.
Qed.

(** X23.  A ceiling below zero switches the limit off just as zero does:
    every call of a session runs its tool, the results are those of the
    tools, and the counter stays where it was. *)
Theorem negative_ceiling_unlimited (settings : Settings) (calls : list Call)
    (st : State Call W) :
  read_only settings = false ->
  max_write_calls_per_session settings < 0 ->
  session Call W func settings calls st
  = (fst (run_funcs Call W func calls (tools st)),
     {| _write_call_count := _write_call_count st;
        tools := snd (run_funcs Call W func calls (tools st));
        invoked := (invoked st ++ calls)%list |}).
Proof.
  intros Hro Hneg. apply session_unlimited; [exact Hro|lia].
Qed.

End WriteGateEdges.

(** ** The modules setting *)

Section ModulesFacts.
Import settings_modules.

Lemma lstrip_idem (s : string) : py.lstrip (py.lstrip s) = py.lstrip s.
Proof.
  induction s as [|c s IH]; [reflexivity|].
  cbn [py.lstrip]. destruct (py.isspace c) eqn:E; [exact IH|].
  cbn [py.lstrip]. now rewrite E.
Qed.

Lemma rstrip_idem (s : string) : py.rstrip (py.rstrip s) = py.rstrip s.
Proof.
  induction s as [|c s IH]; [reflexivity|].
  cbn [py.rstrip]. destruct (py.rstrip s) as [|c' r] eqn:E.
  - destruct (py.isspace c) eqn:Ec; [reflexivity|].
    cbn [py.rstrip]. now rewrite Ec.
  - cbn [py.rstrip]. cbn [py.rstrip] in IH. now rewrite IH.
Qed.

Lemma lstrip_length (s : string) :
  (String.length (py.lstrip s) <= String.length s)%nat.
Proof.
  induction s as [|c s IH]; [reflexivity|].
  cbn [py.lstrip]. destruct (py.isspace c); cbn [String.length]; lia.
Qed.

Lemma lstrip_fixed_head (c : ascii) (s : string) :
  py.lstrip (String c s) = String c s -> py.isspace c = false.
Proof.
  cbn [py.lstrip]. destruct (py.isspace c); [|reflexivity].
  intros H. pose proof (lstrip_length s) as Hl. rewrite H in Hl.
  cbn [String.length] in Hl. lia.
Qed.

Lemma lstrip_rstrip (x : string) :
  py.lstrip x = x -> py.lstrip (py.rstrip x) = py.rstrip x.
Proof.
  destruct x as [|c s]; [reflexivity|].
  intros H. apply lstrip_fixed_head in H.
  cbn [py.rstrip]. destruct (py.rstrip s); rewrite ?H; cbn [py.lstrip];
    now rewrite H.
Qed.

Lemma strip_idem (s : string) : py.strip (py.strip s) = py.strip s.
Proof.
  unfold py.strip.
  rewrite (lstrip_rstrip (py.lstrip s)) by apply lstrip_idem.
  apply rstrip_idem.
Qed.

Lemma contains_char_cons (a c : ascii) (s : string) :
  py.contains (String a "") (String c s)
  = Ascii.eqb a c || py.contains (String a "") s.
Proof. cbn [py.contains py.startswith]. now rewrite andb_true_r. Qed.

Lemma lstrip_keeps_out (a : ascii) (s : string) :
  py.contains (String a "") s = false ->
  py.contains (String a "") (py.lstrip s) = false.
Proof.
  induction s as [|c s IH]; [auto|].
  intros H. cbn [py.lstrip]. destruct (py.isspace c); [|exact H].
  rewrite contains_char_cons in H. apply orb_false_iff in H as [_ H]. auto.
Qed.

Lemma rstrip_keeps_out (a : ascii) (s : string) :
  py.contains (String a "") s = false ->
  py.contains (String a "") (py.rstrip s) = false.
Proof.
  induction s as [|c s IH]; [auto|].
  intros H. rewrite contains_char_cons in H. apply orb_false_iff in H as [Hc H].
  cbn [py.rstrip]. destruct (py.rstrip s) as [|c' r] eqn:E.
  - destruct (py.isspace c); [reflexivity|].
    rewrite contains_char_cons, Hc. reflexivity.
  - rewrite contains_char_cons, Hc. cbn [orb]. now apply IH.
Qed.

Lemma split_pieces_without_sep (sep : ascii) (s : string) :
  Forall (fun piece => py.contains (String sep "") piece = false) (split sep s).
Proof.
  induction s as [|c s IH]; cbn [split].
  - constructor; [reflexivity|constructor].
  - destruct (Ascii.eqb c sep) eqn:E.
    + constructor; [reflexivity|exact IH].
    + destruct (split sep s) as [|piece pieces].
      * constructor; [|constructor].
        rewrite contains_char_cons, Ascii.eqb_sym, E. reflexivity.
      * inversion IH as [|? ? Hp Hps]; subst. constructor; [|exact Hps].
        rewrite contains_char_cons, Ascii.eqb_sym, E. exact Hp.
Qed.

(** X24.  [_parse_modules] returns [None] only for [None] and for the
    empty string, and passes a list through.  For any other string it
    returns a list in which every name is non-empty, has no white space
    at either end and holds no comma; a string whose pieces between
    commas are all blank gives the empty list, not [None]. *)
Theorem parse_modules_spec (s : string) :
  _parse_modules RawNone = None
  /\ _parse_modules (RawStr "") = None
  /\ (forall l, _parse_modules (RawList l) = Some l)
  /\ (s <> "" ->
      exists names : list string,
        _parse_modules (RawStr s) = Some names
        /\ (forall m, In m names ->
              m <> "" /\ py.strip m = m /\ py.contains "," m = false)
        /\ ((forall piece, In piece (split "," s) -> py.strip piece = "") ->
            names = [])).
Proof.
  split; [reflexivity|]. split; [reflexivity|]. split; [reflexivity|].
  intros Hne. unfold _parse_modules.
  apply truthy_nonempty in Hne. rewrite Hne. cbn [negb].
  eexists. split; [reflexivity|]. split.
  - intros m Hm. apply in_map_iff in Hm as (piece & <- & Hin).
    apply filter_In in Hin as [Hin Ht]. apply truthy_nonempty in Ht.
    split; [exact Ht|]. split; [apply strip_idem|].
    pose proof (split_pieces_without_sep "," s) as Hall.
    rewrite Forall_forall in Hall. unfold py.strip.
    apply rstrip_keeps_out, lstrip_keeps_out, Hall, Hin.
  - intros Hblank.
    assert (Hf : filter (fun m => py.truthy (py.strip m)) (split "," s) = []).
    { induction (split "," s) as [|piece pieces IH]; [reflexivity|].
      cbn [filter]. rewrite (Hblank piece) by now left. cbn [py.truthy].
      apply IH. intros q Hq. apply Hblank. now right. }
    now rewrite Hf.
Qed.

End ModulesFacts.

Section ServerFacts.
Import server.

Lemma mem_In (x : string) (l : list string) : mem x l = true <-> In x l.
Proof.
  unfold mem. rewrite existsb_exists. split.
  - intros (y & Hy & E). apply String.eqb_eq in E. now subst.
  - intros H. exists x. split; [exact H|apply String.eqb_refl].
Qed.

Lemma insert_In (x y : string) (l : list string) :
  In x (insert y l) <-> x = y \/ In x l.
Proof.
  induction l as [|z l IH]; cbn [insert].
  - cbn. intuition.
  - destruct (String.eqb y z) eqn:E.
    + apply String.eqb_eq in E. subst z. cbn. intuition.
    + destruct (String.ltb y z); cbn [In]; [intuition|].
      rewrite IH. intuition.
Qed.

Lemma unknown_In (x : string) (requested : list string) :
  In x (unknown requested) <-> In x requested /\ ~ In x _ALL_MODULES.
Proof.
  unfold unknown.
  induction requested as [|m requested IH]; [cbn; intuition|].
  cbn [filter]. destruct (mem m _ALL_MODULES) eqn:E; cbn [negb fold_right].
  - rewrite IH. apply mem_In in E. cbn [In]. split.
    + intros [H1 H2]. auto.
    + intros [[->|H1] H2]; [contradiction|auto].
  - rewrite insert_In, IH.
    assert (Hm : ~ In m _ALL_MODULES).
    { intros H. apply mem_In in H. congruence. }
    cbn [In]. split.
    + intros [->|[H1 H2]]; auto.
    + intros [[->|H1] H2]; auto.
Qed.

Lemma ltb_total (x y : string) :
  String.eqb x y = false -> String.ltb x y = false -> String.ltb y x = true.
Proof.
  unfold String.ltb. intros He Hl.
  rewrite String.compare_antisym.
  destruct (String.compare x y) eqn:E; cbn; try reflexivity; try discriminate.
  apply String.compare_eq_iff in E. subst. rewrite String.eqb_refl in He.
  discriminate.
Qed.

Lemma insert_sorted (x : string) (l : list string) :
  Sorted increasing l -> Sorted increasing (insert x l).
Proof.
  induction l as [|y l IH]; intros Hs; cbn [insert].
  - repeat constructor.
  - destruct (String.eqb x y) eqn:E; [exact Hs|].
    destruct (String.ltb x y) eqn:El.
    + constructor; [exact Hs|]. constructor. exact El.
    + inversion Hs as [|? ? Hs' Hhd]; subst.
      constructor; [now apply IH|].
      destruct l as [|z l]; cbn [insert].
      * constructor. now apply ltb_total.
      * destruct (String.eqb x z); [exact Hhd|].
        destruct (String.ltb x z).
        -- constructor. now apply ltb_total.
        -- inversion Hhd; subst. now constructor.
Qed.

Lemma unknown_sorted (requested : list string) :
  Sorted increasing (unknown requested).
Proof.
  unfold unknown.
  induction (filter (fun m => negb (mem m _ALL_MODULES)) requested) as [|m l IH];
    cbn [fold_right]; [constructor|now apply insert_sorted].
Qed.

(** X25.  [_load_tool_modules] imports nothing but known modules: with
    no request it imports all eleven; with a request of known names it
    imports exactly the requested names, in order (so an empty request
    imports nothing); and as soon as one requested name is unknown it
    imports nothing and raises, naming exactly the requested names that
    are unknown, in strictly increasing order. *)
Theorem load_tool_modules_spec (requested : option (list string)) :
  match _load_tool_modules requested with
  | Imports names =>
      names = match requested with
              | Some l => l
              | None => _ALL_MODULES
              end
      /\ (forall m, In m names -> In m _ALL_MODULES)
  | UnknownModules names =>
      exists l : list string,
        requested = Some l
        /\ names <> []
        /\ (forall m, In m names <-> In m l /\ ~ In m _ALL_MODULES)
        /\ Sorted increasing names
  end.
Proof.
  destruct requested as [l|]; cbn [_load_tool_modules].
  - destruct (unknown l) as [|u us] eqn:E.
    + split; [reflexivity|]. intros m Hm.
      destruct (mem m _ALL_MODULES) eqn:Em; [now apply mem_In|].
      assert (H : In m (unknown l)).
      { apply unknown_In. split; [exact Hm|].
        intros Hin. apply mem_In in Hin. congruence. }
      rewrite E in H. destruct H.
    + exists l. split; [reflexivity|]. split; [discriminate|].
      rewrite <- E. split; [intros m; apply unknown_In|apply unknown_sorted].
  - split; [reflexivity|auto].
Qed.

End ServerFacts.

(** ** The PKCE pair and the state *)

Section PkceFacts.
Import pkce.

Lemma digit_urlsafe (i : N) : is_urlsafe (digit i) = true.
Proof.
  unfold digit.
  assert (H : (N.to_nat (i mod 64) < 64)%nat).
  { pose proof (N.mod_lt i 64). lia. }
  revert H. generalize (N.to_nat (i mod 64)). intros k Hk.
  do 64 (destruct k as [|k]; [reflexivity|]). lia.
Qed.

Lemma digit_not_pad (i : N) : Ascii.eqb (digit i) "=" = false.
Proof.
  pose proof (digit_urlsafe i) as H.
  destruct (Ascii.eqb (digit i) "=") eqn:E; [|reflexivity].
  apply Ascii.eqb_eq in E. rewrite E in H. discriminate.
Qed.

Lemma rstrip_pad_digit (i : N) (s : string) :
  rstrip_pad (String (digit i) s) = String (digit i) (rstrip_pad s).
Proof.
  cbn [rstrip_pad]. destruct (rstrip_pad s); [|reflexivity].
  now rewrite digit_not_pad.
Qed.

Lemma list_ind3 {A} (P : list A -> Prop) :
  P [] -> (forall a, P [a]) -> (forall a b, P [a; b]) ->
  (forall a b c l, P l -> P (a :: b :: c :: l)) ->
  forall l, P l.
Proof.
  intros H0 H1 H2 H3 l.
  assert (H : P l /\ (forall a, P (a :: l)) /\ (forall a b, P (a :: b :: l))).
  { induction l as [|x l (IH0 & IH1 & IH2)]; [auto|].
    split; [apply IH1|]. split; [intros a; apply IH2|]. intros a b. now apply H3. }
  apply H.
Qed.

(** The unpadded encoding is made of URL-safe characters and has one
    character for every six bits, rounded up. *)
Lemma b64_unpadded (bs : list ascii) :
  all_urlsafe (rstrip_pad (urlsafe_b64encode bs)) = true
  /\ String.length (rstrip_pad (urlsafe_b64encode bs))
     = ((4 * length bs + 2) / 3)%nat.
Proof.
  induction bs as [|a|a b|a b c l [IH1 IH2]] using list_ind3.
  - split; reflexivity.
  - cbn [urlsafe_b64encode]. rewrite !rstrip_pad_digit.
    cbn [rstrip_pad Ascii.eqb Bool.eqb all_urlsafe String.length length].
    rewrite !digit_urlsafe. split; reflexivity.
  - cbn [urlsafe_b64encode]. rewrite !rstrip_pad_digit.
    cbn [rstrip_pad Ascii.eqb Bool.eqb all_urlsafe String.length length].
    rewrite !digit_urlsafe. split; reflexivity.
  - cbn [urlsafe_b64encode]. rewrite !rstrip_pad_digit.
    cbn [all_urlsafe String.length length].
    rewrite !digit_urlsafe, IH1, IH2. split; [reflexivity|].
    replace (4 * S (S (S (length l))) + 2)%nat
      with ((4 * length l + 2) + 4 * 3)%nat by lia.
    rewrite Nat.div_add by lia. lia.
Qed.

(** X26.  From 32 random bytes [_generate_pkce_pair] gives a verifier of
    43 characters, and from a 32-byte digest a challenge of 43
    characters, which is the unpadded encoding of the digest of the
    verifier; from 16 random bytes [_generate_state] gives 22 characters.
    All three are made of letters, digits, [-] and [_] only, with no
    [=] left. *)
Theorem pkce_shape (sha256 : list ascii -> list ascii)
    (verifier_bytes random : list ascii) :
  length verifier_bytes = 32%nat ->
  length random = 16%nat ->
  (forall m, length (sha256 m) = 32%nat) ->
  let code_verifier := fst (_generate_pkce_pair sha256 verifier_bytes) in
  let code_challenge := snd (_generate_pkce_pair sha256 verifier_bytes) in
  let state := _generate_state random in
  String.length code_verifier = 43%nat
  /\ all_urlsafe code_verifier = true
  /\ String.length code_challenge = 43%nat
  /\ all_urlsafe code_challenge = true
  /\ code_challenge
     = rstrip_pad (urlsafe_b64encode (sha256 (encode code_verifier)))
  /\ String.length state = 22%nat
  /\ all_urlsafe state = true.
Proof.
  intros Hv Hr Hh. cbv zeta. unfold _generate_pkce_pair, _generate_state.
  cbn [fst snd].
  destruct (b64_unpadded verifier_bytes) as [V1 V2].
  destruct (b64_unpadded random) as [R1 R2].
  destruct (b64_unpadded
              (sha256 (encode (rstrip_pad (urlsafe_b64encode verifier_bytes)))))
    as [C1 C2].
  rewrite Hv in V2. rewrite Hr in R2. rewrite Hh in C2.
  repeat split; assumption.
Qed.

End PkceFacts.

(** ** Worked examples for Part III *)

Lemma refresh_failures_witness :
  let settings := example.settings_with false 50 in
  let posted :=
    [RefreshCalled;
     TokenPost (oauth_token_url settings) (auth.refresh_form settings "r1")
       auth.form_headers] in
  auth.refresh (example_more.env_with_token (Resp example_more.server_error)
                  example.retried example.retried) settings example.w_valid
  = (Raise (HTTPStatusError 500),
     {| store := store example.w_valid; trace := posted |})
  /\ auth.refresh (example_more.env_with_token (Resp example_more.null_lifetime)
                     example.retried example.retried) settings example.w_valid
     = (Raise TypeError,
        {| store := {| TokenStore._access_token := "a1";
                       TokenStore._refresh_token := "r1";
                       TokenStore._expires_at := Fin 5000 |};
           trace := posted |}).
Proof.
  intros settings posted. split.
  - pose proof (refresh_failures
                  (example_more.env_with_token (Resp example_more.server_error)
                     example.retried example.retried)
                  settings example.w_valid
                  ltac:(discriminate) ltac:(discriminate) ltac:(discriminate))
      as (_ & _ & H & _).
    apply (H example_more.server_error); reflexivity.
  - pose proof (refresh_failures
                  (example_more.env_with_token (Resp example_more.null_lifetime)
                     example.retried example.retried)
                  settings example.w_valid
                  ltac:(discriminate) ltac:(discriminate) ltac:(discriminate))
      as (_ & _ & _ & _ & _ & _ & H & _).
    apply (H example_more.null_lifetime
             {| TokenPayload.access_token := Some "a1";
                TokenPayload.refresh_token := Some "r2";
                TokenPayload.expires_in := Some JNull |} "a1" TypeError);
      reflexivity.
Defined.

Lemma refresh_posts_once_witness :
  let settings := example.settings_with false 50 in
  obs.network_calls
    (trace (snd (auth.refresh (example.env_of example.retried example.retried)
                   settings example.w_valid)))
  = [TokenPost (oauth_token_url settings)
       [("grant_type", "refresh_token"); ("refresh_token", "r1");
        ("client_id", "id"); ("client_secret", "secret"); ("scope", "commercial")]
       [("Content-Type", "application/x-www-form-urlencoded");
        ("Accept", "application/json")]].
Proof.
  intros settings.
  pose proof (refresh_posts_once (example.env_of example.retried example.retried)
                settings example.w_valid
                ltac:(discriminate) ltac:(discriminate) ltac:(discriminate))
    as [H _].
  exact H.
Defined.

Lemma refresh_validity_witness :
  let settings := example.settings_with false 50 in
  TokenStore.is_valid
    (store (snd (auth.refresh (example.env_of example.retried example.retried)
                   settings example.w_valid))) 1000 = true
  /\ TokenStore.is_valid
       (store (snd (auth.refresh
                      (example_more.env_with_token (Resp example_more.short_lived)
                         example.retried example.retried)
                      settings example.w_valid))) 1000 = false.
Proof.
  intros settings. split.
  - pose proof (refresh_validity (example.env_of example.retried example.retried)
                  settings example.w_valid example.token_ok example.token_payload
                  "a1" 3600
                  ltac:(discriminate) ltac:(discriminate) ltac:(discriminate)
                  eq_refl eq_refl eq_refl eq_refl eq_refl) as [_ H].
    apply H. split; [discriminate|reflexivity].
  - pose proof (refresh_validity
                  (example_more.env_with_token (Resp example_more.short_lived)
                     example.retried example.retried)
                  settings example.w_valid example_more.short_lived
                  {| TokenPayload.access_token := Some "a1";
                     TokenPayload.refresh_token := None;
                     TokenPayload.expires_in := Some (JInt 30) |} "a1" 30
                  ltac:(discriminate) ltac:(discriminate) ltac:(discriminate)
                  eq_refl eq_refl eq_refl eq_refl eq_refl) as [_ H].
    apply not_true_iff_false. intros Hv. apply H in Hv as [_ Hlt].
    discriminate Hlt.
Defined.

Lemma refresh_rotation_witness :
  let env := example.env_of example.retried example.retried in
  let settings := example.settings_with false 50 in
  let w1 := snd (auth.refresh env settings example.w_valid) in
  TokenStore._refresh_token (store w1) = "r2"
  /\ obs.network_calls
       (trace (snd (auth.refresh env settings
                      {| store := store w1;
                         trace := trace w1 ++ [WebbrowserOpen "later"] |})))
     = (obs.network_calls (trace w1 ++ [WebbrowserOpen "later"])
        ++ [TokenPost (oauth_token_url settings)
              (auth.refresh_form settings "r2") auth.form_headers])%list.
Proof.
  intros env settings w1.
  pose proof (refresh_rotation env settings example.w_valid example.token_ok
                example.token_payload "a1" "r2" 3600
                ltac:(discriminate) ltac:(discriminate) ltac:(discriminate)
                eq_refl eq_refl eq_refl eq_refl eq_refl eq_refl
                ltac:(discriminate)) as [H1 H2].
  split; [exact H1|]. apply H2.
Defined.

Lemma request_ok_is_success_witness :
  exists (tr : list event) (h : list (string * string)) (r : response json),
    api_endpoint (example.env_of example.unauthorized example.retried)
      tr "GET" "/api/customers" h [] = Resp r
    /\ 200 <= status_code r <= 299
    /\ json_ r = Some (JObj [("retried", JBool true)]).
Proof.
  apply (request_ok_is_success
           (example.env_of example.unauthorized example.retried)
           (example.settings_with false 50) "GET" "/api/customers" []
           example.w_valid).
  reflexivity.
Defined.

Lemma request_with_valid_bearer_witness :
  let env := example.env_of example.retried example.retried in
  let h := [("Authorization", "Bearer old")] in
  client._request env (example.settings_with false 50) "GET" "/api/customers" []
    example.w_valid
  = (client.outcome_of example.retried,
     {| store := store example.w_valid;
        trace := [ApiRequest "GET" "/api/customers" h []] |}).
Proof.
  intros env h.
  pose proof (request_with_valid_bearer env (example.settings_with false 50)
                "GET" "/api/customers" [] example.w_valid example.retried
                eq_refl eq_refl eq_refl ltac:(discriminate)) as [H _].
  exact H.
Defined.

Lemma request_proactive_renewal_witness :
  let env := example.env_of example.retried example.retried in
  let settings := example.settings_with false 50 in
  client._request env settings "GET" "/api/customers" [] example.w_new
  = (Raise (RuntimeError auth.no_refresh_token),
     {| store := TokenStore.new; trace := [RefreshCalled] |})
  /\ client.first_send env settings "GET" "/api/customers" []
       {| store := TokenStore.load_refresh_token TokenStore.new "r1"; trace := [] |}
     = client.client_request env "GET" "/api/customers"
         [("Authorization", "Bearer a1")] []
         (snd (auth.refresh env settings
                 {| store := TokenStore.load_refresh_token TokenStore.new "r1";
                    trace := [] |})).
Proof.
  intros env settings. split.
  - pose proof (request_proactive_renewal env settings "GET" "/api/customers" []
                  example.w_new eq_refl eq_refl) as H.
    apply H.
  - pose proof (request_proactive_renewal env settings "GET" "/api/customers" []
                  {| store := TokenStore.load_refresh_token TokenStore.new "r1";
                     trace := [] |} eq_refl eq_refl) as H.
    exact H.
Defined.

Lemma validated_id_passes_path_check_witness :
  client._SAFE_PATH_RE_match "/api/customers/42" = true
  /\ py.contains ".." "/api/customers/42" = false
  /\ obs.no_value_error
       (TOCOnlineClient.get (example.env_of example.retried example.retried)
          settings.default "/api/customers/42" JNull)
  /\ obs.no_value_error
       (TOCOnlineClient.delete (example.env_of example.retried example.retried)
          settings.default "/api/customers/42" JNull).
Proof.
  apply (validated_id_passes_path_check
           (example.env_of example.retried example.retried) settings.default
           "42" "customer_id" "/api/customers/" JNull JNull); reflexivity.
Defined.

Lemma validate_resource_id_spec_witness :
  unicode.validate_resource_id unicode.ascii_digit [52; 50]%N "customer_id"
  = unicode.Returns [52; 50]%N
  /\ unicode.validate_resource_id unicode.ascii_digit [52; 50; 10]%N "customer_id"
     = unicode.Returns [52; 50; 10]%N
  /\ unicode.validate_resource_id unicode.ascii_digit [52; 47; 50]%N "customer_id"
     = unicode.ToolError "customer_id" [52; 47; 50]%N.
Proof.
  split; [|split].
  - apply (validate_resource_id_spec unicode.ascii_digit (fun _ _ => eq_refl)
             [52; 50]%N "customer_id").
    exists [52; 50]%N, []. cbn. intuition lia.
  - apply (validate_resource_id_spec unicode.ascii_digit (fun _ _ => eq_refl)
             [52; 50; 10]%N "customer_id").
    exists [52; 50]%N, [10%N]. cbn. intuition lia.
  - destruct (validate_resource_id_spec unicode.ascii_digit (fun _ _ => eq_refl)
                [52; 47; 50]%N "customer_id") as ([H|H] & _ & _);
      [discriminate H|exact H].
Defined.

Lemma lifespan_static_token_witness :
  lifespan.token_store example_more.settings_static (Some "kc")
  = TokenStore.load_static TokenStore.new "abc"
  /\ client._request (example.env_of example.retried example.retried)
       example_more.settings_static "GET" "/api/customers" []
       {| store := lifespan.token_store example_more.settings_static (Some "kc");
          trace := [] |}
     = (client.outcome_of example.retried,
        {| store := lifespan.token_store example_more.settings_static (Some "kc");
           trace := [ApiRequest "GET" "/api/customers"
                       [("Authorization", "Bearer abc")] []] |}).
Proof.
  pose proof (lifespan_static_token example_more.settings_static (Some "kc")
                ltac:(discriminate)) as (H1 & _ & _ & H2).
  split; [exact H1|].
  apply (H2 (example.env_of example.retried example.retried) "GET"
            "/api/customers" [] [] example.retried); [reflexivity|reflexivity|].
  discriminate.
Defined.

Lemma lifespan_refresh_seed_witness :
  let settings := example.settings_with false 50 in
  TokenStore._refresh_token (lifespan.token_store settings (Some "kc")) = "kc"
  /\ (forall t : Q,
        TokenStore.is_valid (lifespan.token_store settings (Some "kc")) t = false)
  /\ auth.refresh (example.env_of example.retried example.retried) settings
       {| store := lifespan.token_store settings None; trace := [] |}
     = (Raise (RuntimeError auth.no_refresh_token),
        {| store := lifespan.token_store settings None;
           trace := [RefreshCalled] |}).
Proof.
  intros settings.
  destruct (lifespan_refresh_seed settings (Some "kc") eq_refl)
    as (_ & H1 & H2 & _).
  destruct (lifespan_refresh_seed settings None eq_refl) as (_ & _ & _ & H3).
  split; [exact H1|]. split; [exact H2|].
  destruct (H3 (example.env_of example.retried example.retried) []) as [_ H4].
  destruct (H4 ltac:(discriminate) ltac:(discriminate)) as [_ H5].
  apply H5. reflexivity.
Defined.

Lemma is_valid_antitone_witness :
  TokenStore.is_valid (store example.w_valid) 1000 = true
  /\ TokenStore.is_valid (store example.w_valid) 6000 = false.
Proof.
  split.
  - destruct (is_valid_antitone (store example.w_valid) 1000 2000) as [H _].
    + discriminate.
    + apply H. reflexivity.
  - destruct (is_valid_antitone (store example.w_valid) 5000 6000) as [_ H].
    + discriminate.
    + apply H. reflexivity.
Defined.

Lemma read_only_session_witness :
  app.session Z unit example.echo_tool (example.settings_with true 1) [10; 20; 30]
    (app.initial tt)
  = (repeat (Ok (JObj [("error", JStr app._READ_ONLY_ERROR)])) 3, app.initial tt).
Proof.
  apply (read_only_session Z unit example.echo_tool (example.settings_with true 1)
           [10; 20; 30] (app.initial tt)).
  reflexivity.
Defined.

Lemma negative_ceiling_unlimited_witness :
  app.session Z unit example.echo_tool (example.settings_with false (-1))
    [10; 20; 30] (app.initial tt)
  = ([Ok (JInt 10); Ok (JInt 20); Ok (JInt 30)],
     {| app._write_call_count := 0; app.tools := tt; app.invoked := [10; 20; 30] |}).
Proof.
  apply (negative_ceiling_unlimited Z unit example.echo_tool
           (example.settings_with false (-1)) [10; 20; 30] (app.initial tt));
    reflexivity.
Defined.

Lemma pkce_shape_witness :
  String.length
    (fst (pkce._generate_pkce_pair example_more.zero_digest example_more.bytes32))
  = 43%nat
  /\ pkce.all_urlsafe
       (snd (pkce._generate_pkce_pair example_more.zero_digest example_more.bytes32))
     = true
  /\ String.length (pkce._generate_state example_more.bytes16) = 22%nat.
Proof.
  pose proof (pkce_shape example_more.zero_digest example_more.bytes32
                example_more.bytes16 eq_refl eq_refl (fun _ => eq_refl))
    as (H1 & _ & _ & H4 & _ & H6 & _).
  split; [exact H1|]. split; [exact H4|exact H6].
Defined.

(** ** More on codes, renewed stores and verbs *)

Section CodesAndVerbs.
Variable urlparse_query : string -> option string.
Variable parse_qs_first : string -> string -> option string.
Variable env : Env.
Variable settings : Settings.

(** X20.  For a pasted line that is not a URL, [_extract_code] never
    raises; it returns nothing exactly when the line is blank, and
    otherwise the line without the white space around it: the code it
    returns is not empty and stripping it again changes nothing.  For a
    line that begins like a URL it returns the [code] parameter of the
    query, if there is one, when [urlparse] accepts the line, and raises
    the [ValueError] of [urlparse] when it does not. *)
Theorem extract_code_spec (user_input : string) :
  let u := py.strip user_input in
  let extracted := cli._extract_code urlparse_query parse_qs_first user_input in
  (cli.is_url u = false ->
   (extracted = Ok None <-> u = "")
   /\ (forall code, extracted = Ok (Some code) ->
         code = u /\ code <> "" /\ py.strip code = code)
   /\ (forall e, extracted <> Raise e))
  /\ (cli.is_url u = true ->
      (forall query, urlparse_query u = Some query ->
         extracted = Ok (parse_qs_first query "code"))
      /\ (urlparse_query u = None -> extracted = Raise (ValueError_urlparse u))).
Proof.
  cbv zeta. unfold cli._extract_code, cli.query_first. split.
  - intros Hraw. rewrite Hraw.
    destruct (py.truthy (py.strip user_input)) eqn:E; cbn [negb].
    + apply truthy_nonempty in E. split; [|split].
      * split; [discriminate|intros H; contradiction].
      * intros code H. injection H as <-.
        split; [reflexivity|]. split; [exact E|apply strip_idem].
      * discriminate.
    + apply truthy_false_iff in E. split; [|split].
      * split; [intros _; exact E|reflexivity].
      * intros code H. discriminate.
      * discriminate.
  - intros Hurl. rewrite Hurl.
    destruct (py.truthy (py.strip user_input)) eqn:E; cbn [negb].
    + split; [intros query ->|intros ->]; reflexivity.
    + apply truthy_false_iff in E. rewrite E in Hurl. discriminate.
Qed.

(** X27.  A request that comes after a successful renewal, in whatever
    world holds the store the renewal left, does not renew again while
    the clock it reads is still more than 60 seconds before the new
    expiry: when it is not answered by 401 it makes one call, with the
    bearer that the renewal installed, and leaves the store, rotated
    refresh string included, as the renewal left it. *)
Theorem request_after_renewal (method path : string)
    (kwargs : list (string * json)) (w : World)
    (resp : response TokenPayload.body) (p : TokenPayload.t) (a : string)
    (seconds : Z) (later : list event) (r : response json) :
  client_id settings <> "" ->
  client_secret settings <> "" ->
  let held := py.or_ (TokenStore._refresh_token (store w)) (refresh_token settings) in
  held <> "" ->
  let form := auth.refresh_form settings held in
  let post := TokenPost (oauth_token_url settings) form auth.form_headers in
  token_endpoint env (trace w ++ [RefreshCalled]) (oauth_token_url settings)
    form auth.form_headers = Resp resp ->
  is_success resp = true ->
  json_ resp = Some (TokenPayload.Object p) ->
  TokenPayload.access_token p = Some a ->
  auth.lifetime p = Ok seconds ->
  a <> "" ->
  let renewed := store (snd (auth.refresh env settings w)) in
  let expiry := (time_time env (trace w ++ [RefreshCalled; post])
                 + inject_Z seconds)%Q in
  (time_time env later < expiry - 60)%Q ->
  negb (client._SAFE_PATH_RE_match path) || py.contains ".." path = false ->
  let h := [("Authorization", "Bearer " ++ a)] in
  api_endpoint env later method path h kwargs = Resp r ->
  status_code r <> 401 ->
  client._request env settings method path kwargs
    {| store := renewed; trace := later |}
  = (client.outcome_of r,
     {| store := renewed;
        trace := later ++ [ApiRequest method path h kwargs] |})
  /\ TokenStore._refresh_token renewed
     = match TokenPayload.refresh_token p with
       | Some (String c s) => String c s
       | _ => TokenStore._refresh_token (store w)
       end.
Proof.
  intros Hi Hs held Hh form post Hr Hok Hj Ha Hl Hne renewed expiry Hclock Hsafe
    h Hep H401.
  destruct (refresh_success_store env settings w resp p a seconds
              Hi Hs Hh Hr Hok Hj Ha Hl) as [_ Hst].
  fold held form post renewed in Hst.
  assert (Hvalid : TokenStore.is_valid renewed (time_time env later) = true).
  { apply is_valid_true_iff. rewrite Hst. cbn. split; [exact Hne|exact Hclock]. }
  assert (Hb : TokenStore._access_token renewed = a) by now rewrite Hst.
  split; [|now rewrite Hst].
  pose proof (request_valid_run env settings method path kwargs
                {| store := renewed; trace := later |} r Hsafe Hvalid) as H.
  cbv zeta in H. cbn [store trace] in H. rewrite Hb in H.
  apply H; [exact Hep|exact H401].
Qed.

(** X28.  Each verb of the client sends its own method and hands its
    argument on under the right keyword: with a store that is valid by
    the clock and an answer other than 401, the one request that goes
    out is a GET with [params], a POST, PATCH or DELETE with [json]. *)
Theorem verbs_send_their_method (path : string) (arg : json) (w : World)
    (r : response json) :
  negb (client._SAFE_PATH_RE_match path) || py.contains ".." path = false ->
  TokenStore.is_valid (store w) (time_time env (trace w)) = true ->
  let h := [("Authorization", "Bearer " ++ TokenStore._access_token (store w))] in
  let sent (method kw : string) :=
    {| store := store w;
       trace := trace w ++ [ApiRequest method path h [(kw, arg)]] |} in
  status_code r <> 401 ->
  (api_endpoint env (trace w) "GET" path h [("params", arg)] = Resp r ->
   TOCOnlineClient.get env settings path arg w
   = (client.outcome_of r, sent "GET" "params"))
  /\ (api_endpoint env (trace w) "POST" path h [("json", arg)] = Resp r ->
      TOCOnlineClient.post env settings path arg w
      = (client.outcome_of r, sent "POST" "json"))
  /\ (api_endpoint env (trace w) "PATCH" path h [("json", arg)] = Resp r ->
      TOCOnlineClient.patch env settings path arg w
      = (client.outcome_of r, sent "PATCH" "json"))
  /\ (api_endpoint env (trace w) "DELETE" path h [("json", arg)] = Resp r ->
      TOCOnlineClient.delete env settings path arg w
      = (client.outcome_of r, sent "DELETE" "json")).
Proof.
  intros Hsafe Hvalid h sent H401. subst sent. cbv beta.
  unfold TOCOnlineClient.get, TOCOnlineClient.post, TOCOnlineClient.patch,
    TOCOnlineClient.delete.
  repeat split; intros Hep;
    apply (request_valid_run env settings _ path _ w r Hsafe Hvalid Hep H401).
Qed.

End CodesAndVerbs.

Lemma request_after_renewal_witness :
  let env := example_more.env_ticking example.retried example.retried in
  let settings := example.settings_with false 50 in
  let w1 := snd (auth.refresh env settings example.w_valid) in
  let later := (trace w1 ++ [WebbrowserOpen "a"; WebbrowserOpen "b"])%list in
  time_time env (trace w1) = 1400%Q
  /\ time_time env later = 1600%Q
  /\ client._request env settings "GET" "/api/customers" []
       {| store := store w1; trace := later |}
     = (client.outcome_of example.retried,
        {| store := store w1;
           trace := later ++ [ApiRequest "GET" "/api/customers"
                                [("Authorization", "Bearer a1")] []] |})
  /\ TokenStore._refresh_token (store w1) = "r2".
Proof.
  intros env settings w1 later.
  split; [reflexivity|]. split; [reflexivity|].
  exact (request_after_renewal env settings "GET" "/api/customers" []
           example.w_valid example.token_ok example.token_payload "a1" 3600
           later example.retried
           ltac:(discriminate) ltac:(discriminate) ltac:(discriminate)
           eq_refl eq_refl eq_refl eq_refl eq_refl ltac:(discriminate)
           eq_refl eq_refl eq_refl ltac:(discriminate)).
Defined.

Lemma verbs_send_their_method_witness :
  let env := example.env_of example.retried example.retried in
  let h := [("Authorization", "Bearer old")] in
  TOCOnlineClient.post env (example.settings_with false 50) "/api/customers"
    (JObj [("name", JStr "x")]) example.w_valid
  = (client.outcome_of example.retried,
     {| store := store example.w_valid;
        trace := [ApiRequest "POST" "/api/customers" h
                    [("json", JObj [("name", JStr "x")])]] |}).
Proof.
  intros env h.
  pose proof (verbs_send_their_method env (example.settings_with false 50)
                "/api/customers" (JObj [("name", JStr "x")]) example.w_valid
                example.retried eq_refl eq_refl ltac:(discriminate))
    as (_ & H & _).
  apply H. reflexivity.
Defined.
